(** * shabu-order: the receipt-printing path

    A shallow embedding of the ESC/POS printer service
    ([services/escposPrinter.js]), of the second copy of that service
    which the repository carries (a shorter EPSON initialisation, a
    4000 ms deadline, no idle timeout, no delayed close; here
    [LegacyPrinter]), and of the order handler that routes an order to
    the two thermal printers.

    Around that path: the plain-text fallback of the second copy, the
    cart of [public/js/client.js] that fills an order ([Client]), the
    route that creates a category ([Admin]), and the variant of the
    server that keeps menu and orders in memory ([Memory]). *)

From Stdlib Require Import ZArith List String Ascii Bool Lia Permutation.
From Stdlib.Strings Require Import Byte.
From Stdlib Require Import DecimalString.
From Stdlib Require DecimalFacts DecimalPos.
Import ListNotations.

Local Open Scope string_scope.
Local Open Scope list_scope.
Local Open Scope Z_scope.

(* ===================================================================== *)
(** * JavaScript values                                                    *)
(* ===================================================================== *)

Module Js.

(** The primitive values a JSON request body can put into a field.
    Numbers are kept to the integers that a double holds exactly and
    prints in full (a quantity typed by a client, a clock reading):
    fractions, NaN and integers from 2^53 on are outside the model. *)
Inductive value : Type :=
| Undefined
| Null
| Bool (b : bool)
| Num (n : Z)
| Str (s : string).

(** ToBoolean. *)
Definition truthy (v : value) : bool :=
  match v with
  | Undefined | Null => false
  | Bool b => b
  | Num n => negb (n =? 0)
  | Str s => negb (String.eqb s "")
  end.

(** [a || b] *)
Definition or (a b : value) : value := if truthy a then a else b.

(** Number::toString on an integer below 10^21, from where JavaScript
    prints an exponent. *)
Definition num_to_string (n : Z) : string :=
  NilZero.string_of_int (Z.to_int n).

(** ToString, as a template literal applies it. *)
Definition to_string (v : value) : string :=
  match v with
  | Undefined => "undefined"
  | Null => "null"
  | Bool true => "true"
  | Bool false => "false"
  | Num n => num_to_string n
  | Str s => s
  end.

(** [a === b] for a string [a]. *)
Definition str_strict_eq (a : string) (b : value) : bool :=
  match b with
  | Str s => String.eqb a s
  | _ => false
  end.

(** [s.slice(-k)]: the last [k] characters. *)
Definition slice_last (k : nat) (s : string) : string :=
  substring (String.length s - k)%nat k s.

(** The line feed. *)
Definition nl : string := String (ascii_of_nat 10) "".

End Js.

(* ===================================================================== *)
(** * Buffers                                                              *)
(* ===================================================================== *)

Module Buffer.

Definition t : Type := list byte.

(** A number stored into a Buffer is taken modulo 256. *)
Definition byte_of_Z (z : Z) : byte :=
  match Byte.of_N (Z.to_N (z mod 256)) with
  | Some b => b
  | None => x00
  end.

(** [Buffer.from([b0, b1, ...])] *)
Definition from (bytes : list Z) : t := map byte_of_Z bytes.

(** [Buffer.concat(chunks)] *)
Definition concat (chunks : list t) : t := List.concat chunks.

(** [chunks.push(c)] *)
Definition push (chunks : list t) (c : t) : list t := chunks ++ [c].

End Buffer.

(** The code pages the two printers are driven with. *)
Inductive codepage : Type := TIS620 | CP874.

(** The receipt text shared by both printer services. *)
Definition divider : string := "------------------------------".
Definition thanks : string := "ขอบคุณครับ/ค่ะ".
Definition default_title : string := "SHABU ORDER".

(** [title = 'SHABU ORDER'] in a destructured parameter: the default
    replaces [undefined] only. *)
Definition title_or_default (title : option string) : string :=
  match title with Some s => s | None => default_title end.

(** [line ?? ''] *)
Definition line_or_empty (line : option string) : string :=
  match line with Some s => s | None => "" end.

(** The chunk list every print function assembles, as the sequence of
    [chunks.push] calls the source makes; [encode] is [iconv.encode] at the
    function's code page. *)
Definition receipt_chunks (init cut : Buffer.t) (encode : string -> Buffer.t)
    (title : option string) (lines : list (option string)) : list Buffer.t :=
  let chunks := [] in
  let chunks := Buffer.push chunks init in
  let chunks := Buffer.push chunks
                  (encode (Js.nl ++ title_or_default title ++ Js.nl)%string) in
  let chunks := Buffer.push chunks (encode (divider ++ Js.nl)%string) in
  let chunks := fold_left
                  (fun acc line =>
                     Buffer.push acc (encode (line_or_empty line ++ Js.nl)%string))
                  lines chunks in
  let chunks := Buffer.push chunks (encode (divider ++ Js.nl)%string) in
  let chunks := Buffer.push chunks (encode (thanks ++ Js.nl)%string) in
  let chunks := Buffer.push chunks [x0a; x0a; x0a] in
  let chunks := Buffer.push chunks cut in
  chunks.

(* ===================================================================== *)
(** * The socket, the timers and the promise of one print call             *)
(* ===================================================================== *)

Module Net.

(** How the promise returned by a print function settles:
    [resolve({ ok: true })] or [reject(new Error(message))]. *)
Inductive outcome : Type :=
| Resolved
| Rejected (message : string).

(** One call's world: the clock (milliseconds since the call), the two
    timers the code may arm, the socket with the idle timer that
    [socket.setTimeout] gives it, and the promise. A promise settles
    once; [settled] keeps the first settlement and its time. *)
Record socket : Type := mkSocket {
  now : Z;
  timer : option Z;         (* due time of [timer], while armed *)
  hold : option Z;          (* due time of the delayed close, while armed *)
  timeout : option Z;       (* [socket.timeout], as set by the call *)
  idle : option Z;          (* due time of the idle timer, while armed *)
  wired : bool;             (* [socket.connect] returned; listeners are on *)
  connected : bool;
  written : option Buffer.t;  (* what [socket.write] was given *)
  progressed : bool;        (* part of the write in flight has left the
                               queue since the idle timer last looked *)
  flushed_at : option Z;    (* when the write callback ran *)
  ended_at : option Z;      (* [socket.end()] *)
  destroyed_at : option Z;  (* [socket.destroy()] *)
  errored : bool;           (* closed by the runtime after 'error' *)
  settled : option (outcome * Z)
}.

Definition fresh : socket :=
  mkSocket 0 None None None None false false None false None None None false
    None.

Definition set_now (t : Z) (s : socket) : socket :=
  mkSocket (Z.max (now s) t) (timer s) (hold s) (timeout s) (idle s)
    (wired s) (connected s) (written s) (progressed s) (flushed_at s)
    (ended_at s) (destroyed_at s) (errored s) (settled s).

Definition set_timer (d : option Z) (s : socket) : socket :=
  mkSocket (now s) d (hold s) (timeout s) (idle s)
    (wired s) (connected s) (written s) (progressed s) (flushed_at s)
    (ended_at s) (destroyed_at s) (errored s) (settled s).

Definition set_hold (d : option Z) (s : socket) : socket :=
  mkSocket (now s) (timer s) d (timeout s) (idle s)
    (wired s) (connected s) (written s) (progressed s) (flushed_at s)
    (ended_at s) (destroyed_at s) (errored s) (settled s).

Definition set_idle (d : option Z) (s : socket) : socket :=
  mkSocket (now s) (timer s) (hold s) (timeout s) d
    (wired s) (connected s) (written s) (progressed s) (flushed_at s)
    (ended_at s) (destroyed_at s) (errored s) (settled s).

Definition set_connected (s : socket) : socket :=
  mkSocket (now s) (timer s) (hold s) (timeout s) (idle s)
    (wired s) true (written s) (progressed s) (flushed_at s) (ended_at s)
    (destroyed_at s) (errored s) (settled s).

(** The write callback is about to run; the runtime forgets the size of
    the write. *)
Definition set_flushed (s : socket) : socket :=
  mkSocket (now s) (timer s) (hold s) (timeout s) (idle s)
    (wired s) (connected s) (written s) false (Some (now s)) (ended_at s)
    (destroyed_at s) (errored s) (settled s).

Definition set_progressed (p : bool) (s : socket) : socket :=
  mkSocket (now s) (timer s) (hold s) (timeout s) (idle s)
    (wired s) (connected s) (written s) p (flushed_at s) (ended_at s)
    (destroyed_at s) (errored s) (settled s).

(** The runtime closes the socket after 'error'; a closed socket has no
    idle timer. *)
Definition set_errored (s : socket) : socket :=
  mkSocket (now s) (timer s) (hold s) (timeout s) None
    (wired s) (connected s) (written s) (progressed s) (flushed_at s)
    (ended_at s) (destroyed_at s) true (settled s).

(** Activity on the socket starts its idle timer afresh. *)
Definition refresh (s : socket) : socket :=
  set_idle (match timeout s with
            | Some ms => Some (now s + ms)
            | None => None
            end) s.

(** [setTimeout(cb, d)] for the deadline, and [clearTimeout(timer)]. *)
Definition setTimeout_timer (d : Z) (s : socket) : socket :=
  set_timer (Some (now s + d)) s.
Definition clearTimeout_timer (s : socket) : socket := set_timer None s.

(** [setTimeout(cb, d)] for the delayed close. *)
Definition setTimeout_hold (d : Z) (s : socket) : socket :=
  set_hold (Some (now s + d)) s.

(** [socket.setTimeout(ms)]: the idle timer runs from now on. *)
Definition socket_setTimeout (ms : Z) (s : socket) : socket :=
  mkSocket (now s) (timer s) (hold s) (Some ms) (Some (now s + ms))
    (wired s) (connected s) (written s) (progressed s) (flushed_at s)
    (ended_at s) (destroyed_at s) (errored s) (settled s).

(** [socket.connect(port, host, cb)] when it returns, and the
    [socket.on(...)] calls after it. *)
Definition socket_connect (s : socket) : socket :=
  refresh
    (mkSocket (now s) (timer s) (hold s) (timeout s) (idle s)
       true (connected s) (written s) (progressed s) (flushed_at s)
       (ended_at s) (destroyed_at s) (errored s) (settled s)).

(** [socket.write(payload, cb)]; the runtime notes the size of the
    write. *)
Definition socket_write (payload : Buffer.t) (s : socket) : socket :=
  refresh
    (mkSocket (now s) (timer s) (hold s) (timeout s) (idle s)
       (wired s) (connected s) (Some payload) false (flushed_at s)
       (ended_at s) (destroyed_at s) (errored s) (settled s)).

(** [socket.end()] *)
Definition socket_end (s : socket) : socket :=
  mkSocket (now s) (timer s) (hold s) (timeout s) (idle s)
    (wired s) (connected s) (written s) (progressed s) (flushed_at s)
    (match ended_at s with Some t => Some t | None => Some (now s) end)
    (destroyed_at s) (errored s) (settled s).

(** [socket.destroy()] *)
Definition socket_destroy (s : socket) : socket :=
  mkSocket (now s) (timer s) (hold s) (timeout s) None
    (wired s) (connected s) (written s) (progressed s) (flushed_at s)
    (ended_at s)
    (match destroyed_at s with Some t => Some t | None => Some (now s) end)
    (errored s) (settled s).

Definition settle (o : outcome) (s : socket) : socket :=
  mkSocket (now s) (timer s) (hold s) (timeout s) (idle s)
    (wired s) (connected s) (written s) (progressed s) (flushed_at s)
    (ended_at s) (destroyed_at s) (errored s)
    (match settled s with Some r => Some r | None => Some (o, now s) end).

Definition resolve (s : socket) : socket := settle Resolved s.
Definition reject (message : string) (s : socket) : socket :=
  settle (Rejected message) s.

(** [socket.connect] checks the port before it touches the network: a
    number that is no integer from 0 to 65535 makes it throw, with this
    message in Node 20. The ports here are integers; NaN, which [Number]
    makes of an environment variable that is no number, is refused in
    the same way. *)
Definition legal_port (port : Z) : bool :=
  (0 <=? port) && (port <=? 65535).

Definition bad_port (port : Z) : string :=
  ("Port should be >= 0 and < 65536. Received type number ("
     ++ Js.num_to_string port ++ ").")%string.

(** The callbacks a print function registers. *)
Record callbacks : Type := mkCallbacks {
  on_timer : socket -> socket;      (* the deadline [setTimeout] *)
  on_hold : socket -> socket;       (* the delayed close, if any *)
  on_connect : socket -> socket;    (* [socket.connect(port, host, cb)] *)
  on_flushed : socket -> socket;    (* [socket.write(payload, cb)] *)
  on_error : string -> socket -> socket;  (* [socket.on('error', cb)] *)
  on_timeout : socket -> socket     (* [socket.on('timeout', cb)] *)
}.

(** What the network reports about the socket: the connection is
    accepted; part of the write in flight leaves the queue; the write is
    done; the peer sends bytes; the socket fails, in the write it has in
    flight or otherwise. *)
Inductive event : Type :=
| Connected
| Progress
| Flushed
| Data
| Failed (message : string)
| WriteFailed (message : string).

Definition alive (s : socket) : bool :=
  match destroyed_at s with
  | Some _ => false
  | None => negb (errored s)
  end.

Definition write_pending (s : socket) : bool :=
  match written s, flushed_at s with
  | Some _, None => true
  | _, _ => false
  end.

(** The write callback runs. *)
Definition complete_write (cb : callbacks) (s : socket) : socket :=
  on_flushed cb (set_flushed s).

(** A socket that was closed with a write in flight, by
    [socket.destroy()] or by the runtime, still has that write's callback
    run. *)
Definition after_close (cb : callbacks) (s : socket) : socket :=
  if negb (alive s) && write_pending s then complete_write cb s else s.

(** Delivery of one event. A socket that is closed, or whose
    [socket.connect] threw, reports nothing; the connect callback runs
    once; the write callback runs once, after a write; connecting,
    a write's completion and reading are activity, the progress of a
    write is not; 'error' closes the socket; and when a write fails, its
    callback runs before 'error' is emitted. *)
Definition deliver (cb : callbacks) (e : event) (s : socket) : socket :=
  if alive s && wired s then
    match e with
    | Connected =>
        if connected s then s else on_connect cb (refresh (set_connected s))
    | Progress => if write_pending s then set_progressed true s else s
    | Flushed =>
        if write_pending s then complete_write cb (refresh s) else s
    | Data => if connected s then refresh s else s
    | Failed message => after_close cb (on_error cb message (set_errored s))
    | WriteFailed message =>
        on_error cb message
          (set_errored (if write_pending s then complete_write cb s else s))
    end
  else s.

(** The three timers of a call. *)
Inductive which : Type := Deadline | Hold | Idle.

Definition tag (w : which) (due : option Z) : option (which * Z) :=
  match due with
  | Some d => Some (w, d)
  | None => None
  end.

Definition earlier (a b : option (which * Z)) : option (which * Z) :=
  match a, b with
  | Some (_, da), Some (_, db) => if da <=? db then a else b
  | Some _, None => a
  | None, _ => b
  end.

(** The armed timer that is due first; of two that are due at the same
    millisecond the deadline goes before the delayed close and that
    before the idle timer. *)
Definition first_due (s : socket) : option (which * Z) :=
  earlier (tag Deadline (timer s))
    (earlier (tag Hold (hold s)) (tag Idle (idle s))).

(** The socket's idle timer fires: while a write is in flight and part
    of it has left the queue since the timer last looked, the runtime
    starts the timer afresh and emits nothing; otherwise it emits
    'timeout', which finds a listener only when [socket.connect]
    returned. *)
Definition idle_fired (cb : callbacks) (s : socket) : socket :=
  if write_pending s && progressed s then
    refresh (set_progressed false (set_idle None s))
  else if wired s then on_timeout cb (set_idle None s)
  else set_idle None s.

(** A timer fires: the clock is at its due time, the timer is off, its
    callback runs. *)
Definition fire (cb : callbacks) (w : which) (d : Z) (s : socket) : socket :=
  let s := set_now d s in
  match w with
  | Deadline => after_close cb (on_timer cb (set_timer None s))
  | Hold => on_hold cb (set_hold None s)
  | Idle => idle_fired cb s
  end.

(** Timers that are due by [t] fire, the earliest first. *)
Fixpoint fire_due (rounds : nat) (cb : callbacks) (t : Z) (s : socket)
    : socket :=
  match rounds with
  | O => s
  | S rounds' =>
      match first_due s with
      | Some (w, d) =>
          if d <=? t then fire_due rounds' cb t (fire cb w d s) else s
      | None => s
      end
  end.

(** No call has more than three timers; the deadline's firing can arm
    the delayed close, and the idle timer is put off at most once
    without another event. *)
Definition rounds : nat := 5.

(** The clock moves to [t]. *)
Definition advance (cb : callbacks) (t : Z) (s : socket) : socket :=
  let t' := Z.max t (now s) in
  set_now t' (fire_due rounds cb t' s).

(** The events of a call, each with the time it happens at; an event
    finds the timers that are due by its time already fired, and a time
    that lies before the clock counts as the clock's. *)
Fixpoint run (cb : callbacks) (s : socket) (evs : list (Z * event))
    : socket :=
  match evs with
  | [] => s
  | (t, e) :: evs' => run cb (deliver cb e (advance cb t s)) evs'
  end.

(** Once the network is silent, the timers still armed fire. *)
Fixpoint run_out (rounds : nat) (cb : callbacks) (s : socket) : socket :=
  match rounds with
  | O => s
  | S rounds' =>
      match first_due s with
      | Some (w, d) => run_out rounds' cb (fire cb w d s)
      | None => s
      end
  end.

Definition drain (cb : callbacks) (s : socket) : socket :=
  run_out rounds cb s.

Definition session (cb : callbacks) (s0 : socket) (evs : list (Z * event))
    : socket :=
  drain cb (run cb s0 evs).

(** What [await] sees. *)
Definition await (s : socket) : option outcome :=
  match settled s with
  | Some (o, _) => Some o
  | None => None
  end.

End Net.

(* ===================================================================== *)
(** * services/escposPrinter.js                                            *)
(* ===================================================================== *)

Module EscposPrinter.

Definition esc (bytes : list Z) : Buffer.t := Buffer.from bytes.

Definition cutPaper : Buffer.t := Buffer.from [0x1D; 0x56; 0x41; 0x10].

Definition epsonSetThai : Buffer.t :=
  let ESC := 0x1B in
  Buffer.concat [
    Buffer.from [ESC; 0x40];
    Buffer.from [ESC; 0x52; 0x0B];
    Buffer.from [ESC; 0x74; 0x15]
  ].

(** [Number(process.env.XPR_CODEPAGE || 70)], with the environment
    variable already read as a number when it is set. *)
Definition XPR_CODEPAGE (env : option Z) : Z :=
  match env with Some n => n | None => 70 end.

Definition xprinterSetThaiCP874 (cp : Z) : Buffer.t :=
  let ESC := 0x1B in
  let GS := 0x1D in
  let FS := 0x1C in
  Buffer.concat [
    esc [ESC; 0x40];
    esc [FS; 0x2E];
    esc [ESC; 0x52; 0x00];
    esc [ESC; 0x74; cp];
    esc [GS; 0x74; cp];
    esc [ESC; 0x4D; 0x00]
  ].

(** The callbacks of [printEpson] and [printXprinterThaiCP874] (the two
    are the same): the deadline destroys the socket and rejects; the
    write callback clears the deadline and arms the delayed close, which
    ends the socket and resolves; 'error' and 'timeout' clear the
    deadline and reject. *)
Definition transport (payload : Buffer.t) : Net.callbacks :=
  Net.mkCallbacks
    (fun s => Net.reject "Printer timeout" (Net.socket_destroy s))
    (fun s => Net.resolve (Net.socket_end s))
    (fun s => Net.socket_write payload s)
    (fun s => Net.setTimeout_hold 200 (Net.clearTimeout_timer s))
    (fun err s => Net.reject err (Net.clearTimeout_timer s))
    (fun s => Net.reject "Printer timeout" (Net.clearTimeout_timer s)).

(** The executor up to [socket.connect]: [socket.setTimeout(10000)]
    starts the idle timer, then the deadline is armed. *)
Definition prepared : Net.socket :=
  Net.setTimeout_timer 12000 (Net.socket_setTimeout 10000 Net.fresh).

(** The call once [socket.connect] has returned and the listeners are
    registered. *)
Definition start : Net.socket := Net.socket_connect prepared.

(** [catch (e) { reject(e); }] when [socket.connect] threw: the promise
    is rejected at once, no listener is registered and neither timer is
    cleared. *)
Definition thrown (message : string) : Net.socket :=
  Net.reject message prepared.

(** One call, to a printer at [port] behind the network [net]. *)
Definition call (port : Z) (payload : Buffer.t) (net : list (Z * Net.event))
    : Net.socket :=
  if Net.legal_port port then Net.session (transport payload) start net
  else Net.session (transport payload) (thrown (Net.bad_port port)) net.

Section Compose.
Variable encode : codepage -> string -> Buffer.t.

Definition printEpson_payload (title : option string)
    (lines : list (option string)) : Buffer.t :=
  Buffer.concat
    (receipt_chunks epsonSetThai cutPaper (encode TIS620) title lines).

Definition printXprinterThaiCP874_payload (cp : Z)
    (title : option string) (lines : list (option string)) : Buffer.t :=
  Buffer.concat
    (receipt_chunks (xprinterSetThaiCP874 cp) cutPaper (encode CP874)
       title lines).
End Compose.

End EscposPrinter.

(* ===================================================================== *)
(** * The second copy of the printer service                               *)
(* ===================================================================== *)

Module LegacyPrinter.

Definition esc (bytes : list Z) : Buffer.t := Buffer.from bytes.

Definition epsonSetThai : Buffer.t :=
  let ESC := 0x1B in
  Buffer.concat [
    esc [ESC; 0x52; 0x0B];
    esc [ESC; 0x74; 0x15]
  ].

Definition xprinterSetThaiCP874 : Buffer.t :=
  let ESC := 0x1B in
  let GS := 0x1D in
  let FS := 0x1C in
  Buffer.concat [
    esc [ESC; 0x40];
    esc [FS; 0x2E];
    esc [ESC; 0x52; 0x00];
    esc [ESC; 0x74; 70];
    esc [GS; 0x74; 70];
    esc [ESC; 0x4D; 0x00]
  ].

Definition cutPaper : Buffer.t :=
  let GS := 0x1D in
  esc [GS; 0x56; 0x42; 0x00].

(** The callbacks of the three print functions of this copy: a 4000 ms
    deadline, the socket ended in the write callback, no idle time set
    and no 'timeout' listener. *)
Definition transport (payload : Buffer.t) : Net.callbacks :=
  Net.mkCallbacks
    (fun s => Net.reject "Printer timeout" (Net.socket_destroy s))
    (fun s => s)
    (fun s => Net.socket_write payload s)
    (fun s => Net.resolve (Net.socket_end (Net.clearTimeout_timer s)))
    (fun err s => Net.reject err (Net.clearTimeout_timer s))
    (fun s => s).

(** The executor up to [socket.connect]: the deadline is armed. *)
Definition prepared : Net.socket := Net.setTimeout_timer 4000 Net.fresh.

(** The call once [socket.connect] has returned and the 'error' listener
    is registered. *)
Definition start : Net.socket := Net.socket_connect prepared.

(** [catch (e) { reject(e); }] when [socket.connect] threw; in
    [printXprinterAscii], which has no [try], the promise is rejected
    with what its executor threw. The deadline is not cleared. *)
Definition thrown (message : string) : Net.socket :=
  Net.reject message prepared.

(** One call, to a printer at [port] behind the network [net]. *)
Definition call (port : Z) (payload : Buffer.t) (net : list (Z * Net.event))
    : Net.socket :=
  if Net.legal_port port then Net.session (transport payload) start net
  else Net.session (transport payload) (thrown (Net.bad_port port)) net.

Section Compose.
Variable encode : codepage -> string -> Buffer.t.

Definition printEpson_payload (title : option string)
    (lines : list (option string)) : Buffer.t :=
  Buffer.concat
    (receipt_chunks epsonSetThai cutPaper (encode TIS620) title lines).

Definition printXprinterThaiCP874_payload
    (title : option string) (lines : list (option string)) : Buffer.t :=
  Buffer.concat
    (receipt_chunks xprinterSetThaiCP874 cutPaper (encode CP874)
       title lines).
End Compose.

End LegacyPrinter.

(* ===================================================================== *)
(** * The order handler                                                    *)
(* ===================================================================== *)

Module Server.

(** An element of [req.body.items] and what the handler reads off it;
    a property that is missing is [undefined]. The values are
    primitives; an object or an array in a field is outside the model. *)
Record item : Type := mkItem {
  name : Js.value;
  qty : Js.value;
  category : Js.value;
  price : Js.value
}.

(** A [Category] document. *)
Record category_doc : Type := mkCategory {
  cat_name : string;
  printer : string;
  active : bool
}.

(** The object the handler passes to [new Order(...)]. Mongoose casts it
    by the schema when it builds the document ([table] and [note] to
    strings, [qty] and [price] to numbers); the cast is not part of this
    model, which keeps the values as the handler computed them. *)
Record order : Type := mkOrder {
  orderId : string;
  order_table : Js.value;
  order_items : list item;
  order_note : Js.value;
  status : string
}.

(** [req.body]; [items] is [None] when the field is missing or is not an
    array; an element of the array is [null] ([None]) or has properties
    to read, as an object has (a number, a string or a boolean has none
    of the four). *)
Record body : Type := mkBody {
  table : Js.value;
  items : option (list (option item));
  note : Js.value
}.

(** [items.map(item => ({ name: item.name, ... }))] reads a property of
    every element, which [null] does not have: the elements when all of
    them are objects. *)
Fixpoint objects (elements : list (option item)) : option (list item) :=
  match elements with
  | [] => Some []
  | Some x :: rest =>
      match objects rest with
      | Some xs => Some (x :: xs)
      | None => None
      end
  | None :: _ => None
  end.

(** The TypeError of V8 for it. *)
Definition null_item_error : string :=
  "Cannot read properties of null (reading 'name')".

(** The items the handler goes on with, if the request has them. *)
Definition item_objects (b : body) : option (list item) :=
  match items b with
  | Some elements => objects elements
  | None => None
  end.

(** The two printers. *)
Inductive target : Type := EPSON | XPRINTER.

Definition target_eqb (a b : target) : bool :=
  match a, b with
  | EPSON, EPSON | XPRINTER, XPRINTER => true
  | _, _ => false
  end.

(** The addresses read from the environment at start-up. *)
Record config : Type := mkConfig {
  EPSON_IP : string;
  EPSON_PORT : Z;
  XPRINTER_IP : string;
  XPRINTER_PORT : Z;
  XPR_CODEPAGE_env : option Z
}.

Inductive response : Type :=
| JsonError (message : string)
| JsonOk (orderId : string).

(** What the handler does to the outside, in order. *)
Inductive effect : Type :=
| OrderSave (o : order)
| Emit (channel : string) (o : order)
| CategoryFind
| Print (t : target) (host : string) (port : Z) (title : string)
    (lines : list string)
| OrderSetPrintedAt (orderId : string)
| ConsoleError (tag : string) (message : string)
| Respond (status : Z) (json : response).

(** What the outside answers: the clock, the database and the network
    of each printer. *)
Record env : Type := mkEnv {
  clock : Z;
  save_error : option string;
  db_categories : list category_doc;
  find_error : option string;
  epson_net : list (Z * Net.event);
  epson_update_error : option string;
  xprinter_net : list (Z * Net.event);
  xprinter_update_error : option string
}.

(** ** Effects and exceptions *)

Inductive result (A : Type) : Type :=
| Ok (a : A)
| Throw (message : string)
| Pending.                      (* an awaited promise never settles *)
Arguments Ok {A} a.
Arguments Throw {A} message.
Arguments Pending {A}.

Definition M (A : Type) : Type := (list effect * result A)%type.

Definition ret {A} (a : A) : M A := ([], Ok a).

Definition bind {A B} (m : M A) (f : A -> M B) : M B :=
  match m with
  | (tr, Ok a) => let (tr', r) := f a in (tr ++ tr', r)
  | (tr, Throw e) => (tr, Throw e)
  | (tr, Pending) => (tr, Pending)
  end.

Definition perform (e : effect) : M unit := ([e], Ok tt).

Definition throw {A} (message : string) : M A := ([], Throw message).

(** [try { m } catch (e) { h e }] *)
Definition try_catch {A} (m : M A) (h : string -> M A) : M A :=
  match m with
  | (tr, Throw e) => let (tr', r) := h e in (tr ++ tr', r)
  | other => other
  end.

(** An awaited database call that may reject. *)
Definition db_call (e : effect) (error : option string) : M unit :=
  match error with
  | Some message => bind (perform e) (fun _ => throw message)
  | None => perform e
  end.

Notation "x <- m ;; k" := (bind m (fun x => k))
  (at level 61, m at next level, right associativity).
Notation "m ;; k" := (bind m (fun _ => k))
  (at level 61, right associativity).

Definition trace {A} (m : M A) : list effect := fst m.

(** ** Routing *)

Record by_printer : Type := mkByPrinter {
  bp_EPSON : list item;
  bp_XPRINTER : list item
}.

(** [byPrinter[target].push(item)] *)
Definition bp_push (bp : by_printer) (t : target) (it : item)
    : by_printer :=
  match t with
  | EPSON => mkByPrinter (bp_EPSON bp ++ [it]) (bp_XPRINTER bp)
  | XPRINTER => mkByPrinter (bp_EPSON bp) (bp_XPRINTER bp ++ [it])
  end.

(** [Category.find({ active: true })] *)
Definition Category_find_active (db : list category_doc)
    : list category_doc :=
  filter active db.

(** [categories.find(c => c.name === item.category)] *)
Definition lookup_category (categories : list category_doc) (it : item)
    : option category_doc :=
  find (fun c => Js.str_strict_eq (cat_name c) (category it)) categories.

(** The [printer] field of [... || { printer: 'EPSON' }]. *)
Definition cat_printer (categories : list category_doc) (it : item)
    : string :=
  match lookup_category categories it with
  | Some c => printer c
  | None => "EPSON"
  end.

Definition target_of (categories : list category_doc) (it : item)
    : target :=
  if String.eqb (cat_printer categories it) "XPRINTER" then XPRINTER
  else EPSON.

(** The loop [for (const item of items) ... byPrinter[target].push(item)]. *)
Definition byPrinter (categories : list category_doc) (its : list item)
    : by_printer :=
  fold_left (fun bp it => bp_push bp (target_of categories it) it)
    its (mkByPrinter [] []).

(** ** Receipt lines *)

Definition table_line (table : Js.value) : string :=
  ("โต๊ะ " ++ Js.to_string (Js.or table (Js.Str "-")))%string.

Definition item_line (x : item) : string :=
  ("x" ++ Js.to_string (Js.or (qty x) (Js.Num 1)) ++ "  "
     ++ Js.to_string (name x))%string.

Definition note_prefix : string := "หมายเหตุ: ".

Definition note_line (note : Js.value) : string :=
  (note_prefix ++ Js.to_string note)%string.

Definition makeLines (table note : Js.value) (subset : list item)
    : list string :=
  [table_line table]
    ++ map item_line subset
    ++ (if Js.truthy note then [note_line note] else []).

(** ** The handler *)

Section Handler.
Variable encode : codepage -> string -> Buffer.t.
Variable cfg : config.

(** The bytes a [Print] call sends. *)
Definition payload_of (t : target) (title : string)
    (lines : list string) : Buffer.t :=
  match t with
  | EPSON =>
      EscposPrinter.printEpson_payload encode (Some title)
        (map Some lines)
  | XPRINTER =>
      EscposPrinter.printXprinterThaiCP874_payload encode
        (EscposPrinter.XPR_CODEPAGE (XPR_CODEPAGE_env cfg))
        (Some title) (map Some lines)
  end.

(** [await printEpson({...})] / [await printXprinterThaiCP874({...})]:
    the call, then the settlement of its promise on the network the
    printer is behind. *)
Definition await_print (t : target) (host : string) (port : Z)
    (title : string) (lines : list string) (net : list (Z * Net.event))
    : M unit :=
  perform (Print t host port title lines) ;;
  match Net.await
          (EscposPrinter.call port (payload_of t title lines) net) with
  | Some Net.Resolved => ret tt
  | Some (Net.Rejected message) => throw message
  | None => ([], Pending)
  end.

Definition make_orderId (e : env) : string :=
  Js.slice_last 6 (Js.num_to_string (clock e)).

Definition order_title (oid : string) : string :=
  ("ORDER #" ++ oid)%string.

Definition new_order (oid : string) (b : body) (its : list item) : order :=
  mkOrder oid
    (Js.or (table b) (Js.Str ""))
    (map (fun it => mkItem (name it)
                      (Js.or (qty it) (Js.Num 1))
                      (Js.or (category it) (Js.Str ""))
                      (Js.or (price it) (Js.Num 0)))
       its)
    (Js.or (note b) (Js.Str ""))
    "NEW".

(** One [if (byPrinter.X.length) { try { ... } catch (e) { ... } }]. *)
Definition print_group (e : env) (b : body) (oid : string) (t : target)
    (subset : list item) : M unit :=
  match subset with
  | [] => ret tt
  | _ :: _ =>
      let host := match t with EPSON => EPSON_IP cfg
                             | XPRINTER => XPRINTER_IP cfg end in
      let port := match t with EPSON => EPSON_PORT cfg
                             | XPRINTER => XPRINTER_PORT cfg end in
      let net := match t with EPSON => epson_net e
                            | XPRINTER => xprinter_net e end in
      let update_error := match t with
                          | EPSON => epson_update_error e
                          | XPRINTER => xprinter_update_error e end in
      let tag := match t with EPSON => "Print EPSON error:"
                            | XPRINTER => "Print XPRINTER error:" end in
      try_catch
        (await_print t host port (order_title oid)
           (makeLines (table b) (note b) subset) net ;;
         db_call (OrderSetPrintedAt oid) update_error)
        (fun message => perform (ConsoleError tag message))
  end.

Definition orderHandler (e : env) (b : body) : M unit :=
  try_catch
    (match items b with
     | None | Some [] =>
         perform (Respond 400
                    (JsonError "ต้องมีรายการอาหารอย่างน้อย 1 รายการ"))
     | Some elements =>
         let oid := make_orderId e in
         match objects elements with
         | None => throw null_item_error
         | Some its =>
             let o := new_order oid b its in
             db_call (OrderSave o) (save_error e) ;;
             perform (Emit "new-order" o) ;;
             db_call CategoryFind (find_error e) ;;
             let categories := Category_find_active (db_categories e) in
             let bp := byPrinter categories its in
             print_group e b oid EPSON (bp_EPSON bp) ;;
             print_group e b oid XPRINTER (bp_XPRINTER bp) ;;
             perform (Respond 200 (JsonOk oid))
         end
     end)
    (fun message =>
       perform (ConsoleError "Order creation error:" message) ;;
       perform (Respond 500 (JsonError message))).

End Handler.

(** The [Print] calls of a trace, in order. *)
Definition print_calls (tr : list effect)
    : list (target * (string * list string)) :=
  flat_map (fun ef => match ef with
                      | Print t _ _ title lines => [(t, (title, lines))]
                      | _ => []
                      end) tr.

Definition responses (tr : list effect) : list (Z * response) :=
  flat_map (fun ef => match ef with
                      | Respond st js => [(st, js)]
                      | _ => []
                      end) tr.

End Server.

(** A code page for running the definitions: bytes below 128 pass, the
    others become a question mark. *)
Definition ascii_only (_ : codepage) (s : string) : Buffer.t :=
  map (fun b => if (Byte.to_N b <? 128)%N then b else x3f)
    (list_byte_of_string s).

Definition sample_cfg : Server.config :=
  Server.mkConfig "192.168.1.33" 9100 "192.168.1.23" 9100 None.

Definition pork : Server.item :=
  Server.mkItem (Js.Str "Pork Slice") (Js.Num 2) (Js.Str "Meat") Js.Undefined.
Definition squid : Server.item :=
  Server.mkItem (Js.Str "Squid") (Js.Num 1) (Js.Str "Seafood") Js.Undefined.
Definition refund : Server.item :=
  Server.mkItem (Js.Str "Pork Slice") (Js.Num (-2)) (Js.Str "Meat")
    Js.Undefined.

Definition sample_categories : list Server.category_doc :=
  [ Server.mkCategory "Meat" "EPSON" true;
    Server.mkCategory "Seafood" "XPRINTER" true ].

Definition sample_body : Server.body :=
  Server.mkBody (Js.Str "5") (Some [Some pork; Some squid])
    (Js.Str "no spice").

(** Both printers unreachable: the EPSON one is silent, the XPRINTER one
    refuses the connection. *)
Definition sample_env : Server.env :=
  Server.mkEnv 1700000123456 None sample_categories None
    [] None [(3, Net.Failed "connect ECONNREFUSED")] None.

(* ===================================================================== *)
(** * The vocabulary of the statements                                   *)
(* ===================================================================== *)

(** The commands by their ESC/POS names, for stating what a builder
    emits. *)
Module Cmd.
Definition reset : Buffer.t := [x1b; x40].                  (* ESC @ *)
Definition cancel_kanji : Buffer.t := [x1c; x2e].           (* FS .  *)
Definition intl (n : byte) : Buffer.t := [x1b; x52; n].     (* ESC R n *)
Definition codepage_esc (n : byte) : Buffer.t := [x1b; x74; n]. (* ESC t n *)
Definition codepage_gs (n : byte) : Buffer.t := [x1d; x74; n].  (* GS t n *)
Definition font (n : byte) : Buffer.t := [x1b; x4d; n].     (* ESC M n *)
Definition intl_thai : byte := x0b.
Definition intl_usa : byte := x00.
Definition tis620_page : byte := x15.
Definition font_a : byte := x00.
End Cmd.

(** The receipt as the specification lays it out, text by text: the
    initialisation sequence, a blank line, the title, a divider of 30
    dashes, the lines, the divider, the thank-you line, three line feeds
    and the cut. *)
Definition LF : string := String "010"%char "".

Definition receipt_layout (encode : string -> Buffer.t)
    (init cut : Buffer.t) (title : string) (lines : list string)
    : Buffer.t :=
  init
    ++ encode (LF ++ title ++ LF)%string
    ++ encode ("------------------------------" ++ LF)%string
    ++ flat_map (fun line => encode (line ++ LF)%string) lines
    ++ encode ("------------------------------" ++ LF)%string
    ++ encode ("ขอบคุณครับ/ค่ะ" ++ LF)%string
    ++ [x0a; x0a; x0a]
    ++ cut.

(** The title and a line as a caller gave them: a title that is left
    out is [SHABU ORDER], a line that is null or undefined is empty. *)
Definition given_title (title : option string) : string :=
  match title with
  | Some s => s
  | None => "SHABU ORDER"
  end.

Definition given_line (line : option string) : string :=
  match line with
  | Some s => s
  | None => ""
  end.

(** The plain-text receipt of the fallback: the title, the divider, the
    lines, the divider with the feed, the cut. *)
Definition plain_layout (ascii : string -> Buffer.t) (cut : Buffer.t)
    (title : string) (lines : list string) : Buffer.t :=
  ascii (LF ++ title ++ LF)%string
    ++ ascii ("------------------------------" ++ LF)%string
    ++ flat_map (fun line => ascii (line ++ LF)%string) lines
    ++ ascii ("------------------------------" ++ LF ++ LF ++ LF)%string
    ++ cut.

(** The lines of a receipt, text by text: the table, or a dash for a
    table that is missing; one line per item, the quantity (1 for a
    quantity that is missing or zero) after an x, two spaces, the name;
    and the note after its label, when there is one. *)
Definition receipt_lines (table note : Js.value)
    (subset : list Server.item) : list string :=
  ("โต๊ะ " ++ Js.to_string (if Js.truthy table then table else Js.Str "-"))
      %string
    :: map (fun x =>
              ("x" ++ Js.to_string (if Js.truthy (Server.qty x)
                                    then Server.qty x else Js.Num 1)
                 ++ "  " ++ Js.to_string (Server.name x))%string)
         subset
    ++ (if Js.truthy note
        then [("หมายเหตุ: " ++ Js.to_string note)%string]
        else []).

(** The printer an item is for: XPRINTER when the first active category
    of the item's category name says so, EPSON otherwise. *)
Definition routed_to_xprinter (categories : list Server.category_doc)
    (it : Server.item) : Prop :=
  exists c,
    find (fun c => Js.str_strict_eq (Server.cat_name c) (Server.category it))
      categories = Some c
    /\ Server.printer c = "XPRINTER".

(** The items that go to printer [t], in the order they came. *)
Definition group (categories : list Server.category_doc)
    (t : Server.target) (its : list Server.item) : list Server.item :=
  filter (fun it => Server.target_eqb (Server.target_of categories it) t)
    its.

(** The [Print] call of one group, if the group has an item. *)
Definition group_call (b : Server.body) (oid : string)
    (t : Server.target) (subset : list Server.item)
    : list (Server.target * (string * list string)) :=
  match subset with
  | [] => []
  | _ :: _ =>
      [(t, (Server.order_title oid,
            Server.makeLines (Server.table b) (Server.note b) subset))]
  end.

(** The bytes sent to each printer in a run. *)
Definition payloads (encode : codepage -> string -> Buffer.t)
    (cfg : Server.config) (tr : list Server.effect)
    : list (Server.target * Buffer.t) :=
  map (fun c => (fst c,
                 Server.payload_of encode cfg (fst c) (fst (snd c))
                   (snd (snd c))))
    (Server.print_calls tr).

(** The quantity printed on a receipt line and stored in the order. *)
Definition receipt_qty (x : Server.item) : Js.value :=
  Js.or (Server.qty x) (Js.Num 1).

(** The armed timers are all ahead of the clock. *)
Definition ahead (s : Net.socket) : Prop :=
  forall w d, Net.first_due s = Some (w, d) -> Net.now s < d.

(** A measure of the timers still armed; the deadline counts twice, for
    the delayed close it may arm when it fires, and the progress of a
    write once, for the idle timer it may start afresh. *)
Definition rank (s : Net.socket) : nat :=
  (match Net.timer s with Some _ => 2 | None => 0 end)
  + (match Net.hold s with Some _ => 1 | None => 0 end)
  + (match Net.idle s with Some _ => 1 | None => 0 end)
  + (if Net.progressed s then 1 else 0).

(** The states a call of [services/escposPrinter.js] goes through, once
    [socket.connect] has returned. [n] is the clock, [tw] the time of the
    write callback, [i] the due time of the idle timer. *)
Inductive escpos_phase (payload : Buffer.t) : Net.socket -> Prop :=
| connecting (n : Z) :
    n <= 10000 ->
    escpos_phase payload
      (Net.mkSocket n (Some 12000) None (Some 10000) (Some 10000) true
         false None false None None None false None)
| timed_out (n : Z) :
    (* the idle timer fired before the connection was accepted *)
    10000 <= n ->
    escpos_phase payload
      (Net.mkSocket n None None (Some 10000) None true
         false None false None None None false
         (Some (Net.Rejected "Printer timeout", 10000)))
| failed_unconnected (n : Z) (message : string) (t : Z) :
    (* 'error' before the connection was accepted *)
    t <= 10000 ->
    escpos_phase payload
      (Net.mkSocket n None None (Some 10000) None true
         false None false None None None true
         (Some (Net.Rejected message, t)))
| writing (n i : Z) (p : bool) :
    n <= 12000 -> n <= i ->
    escpos_phase payload
      (Net.mkSocket n (Some 12000) None (Some 10000) (Some i) true
         true (Some payload) p None None None false None)
| writing_rejected (n : Z) (i : option Z) (p : bool) (t : Z) :
    (* the idle timer fired first; the write is still in flight *)
    t <= 12000 -> (forall d, i = Some d -> n <= d) ->
    escpos_phase payload
      (Net.mkSocket n None None (Some 10000) i true
         true (Some payload) p None None None false
         (Some (Net.Rejected "Printer timeout", t)))
| holding (n tw i : Z) (st : option (Net.outcome * Z)) :
    (* the write callback ran; the delayed close is armed *)
    tw <= n <= tw + 200 -> tw + 200 < i ->
    (st = None /\ tw < 12000
     \/ exists t, st = Some (Net.Rejected "Printer timeout", t)
                  /\ t <= 12000) ->
    escpos_phase payload
      (Net.mkSocket n None (Some (tw + 200)) (Some 10000) (Some i) true
         true (Some payload) false (Some tw) None None false st)
| closed_holding (n tw : Z) (d : option Z) (er : bool) (message : string)
    (t : Z) :
    (* the socket was closed; the delayed close is armed all the same *)
    tw <= n <= tw + 200 ->
    (d = Some 12000 /\ er = false /\ tw = 12000
       /\ message = "Printer timeout" /\ t = 12000
     \/ d = None /\ er = true /\ t < 12200) ->
    escpos_phase payload
      (Net.mkSocket n None (Some (tw + 200)) (Some 10000) None true
         true (Some payload) false (Some tw) None d er
         (Some (Net.Rejected message, t)))
| ended (n tw : Z) (i : option Z) (o : Net.outcome) (t : Z) :
    tw + 200 <= n -> (forall d, i = Some d -> n <= d) ->
    (o = Net.Resolved /\ t = tw + 200 /\ tw < 12000
     \/ o = Net.Rejected "Printer timeout" /\ t <= 12000) ->
    escpos_phase payload
      (Net.mkSocket n None None (Some 10000) i true
         true (Some payload) false (Some tw) (Some (tw + 200)) None false
         (Some (o, t)))
| closed_ended (n tw : Z) (d : option Z) (er : bool) (o : Net.outcome)
    (t : Z) :
    tw + 200 <= n ->
    (d = Some 12000 /\ er = false /\ tw = 12000
       /\ o = Net.Rejected "Printer timeout" /\ t = 12000
     \/ d = None /\ er = true /\ t < 12200
        /\ (o = Net.Resolved -> t = tw + 200 /\ tw < 12000)) ->
    escpos_phase payload
      (Net.mkSocket n None None (Some 10000) None true
         true (Some payload) false (Some tw) (Some (tw + 200)) d er
         (Some (o, t))).

(** The states a call of the second copy goes through, once
    [socket.connect] has returned. *)
Inductive legacy_phase (payload : Buffer.t) : Net.socket -> Prop :=
| legacy_connecting (n : Z) :
    n <= 4000 ->
    legacy_phase payload
      (Net.mkSocket n (Some 4000) None None None true
         false None false None None None false None)
| legacy_unconnected (n : Z) (d : option Z) (er : bool) (message : string)
    (t : Z) :
    (* the deadline or 'error', before the connection was accepted *)
    t <= 4000 ->
    (d = Some 4000 /\ er = false \/ d = None /\ er = true) ->
    legacy_phase payload
      (Net.mkSocket n None None None None true
         false None false None None d er (Some (Net.Rejected message, t)))
| legacy_writing (n : Z) (p : bool) :
    n <= 4000 ->
    legacy_phase payload
      (Net.mkSocket n (Some 4000) None None None true
         true (Some payload) p None None None false None)
| legacy_done (n tw : Z) (d : option Z) (er : bool) (o : Net.outcome)
    (t : Z) :
    t <= 4000 ->
    (o = Net.Resolved -> t = tw /\ d = None) ->
    legacy_phase payload
      (Net.mkSocket n None None None None true
         true (Some payload) false (Some tw) (Some tw) d er
         (Some (o, t))).

(** The same order a thousand seconds later: the clock ends in the same
    six digits, the EPSON printer now answers, and the time stamp after
    the XPRINTER print would fail. *)
Definition sample_env_later : Server.env :=
  Server.mkEnv 1700001123456 None sample_categories None
    [(4, Net.Connected); (9, Net.Flushed)] None
    [] (Some "write conflict").

(* ===================================================================== *)
(** * More of the printer services                                        *)
(* ===================================================================== *)

(** [printXprinterAscii] of the second copy: the plain-text fallback. Its
    parts are pushed as the source pushes them; [ascii] is
    [Buffer.from(text, 'ascii')]. Its socket code is that of the other
    functions of the copy. *)
Definition printXprinterAscii_parts (ascii : string -> Buffer.t)
    (title : option string) (lines : list (option string)) : list Buffer.t :=
  let parts := [] in
  let parts := Buffer.push parts
                 (ascii (Js.nl ++ title_or_default title ++ Js.nl)%string) in
  let parts := Buffer.push parts (ascii (divider ++ Js.nl)%string) in
  let parts := fold_left
                 (fun acc line =>
                    Buffer.push acc (ascii (line_or_empty line ++ Js.nl)%string))
                 lines parts in
  let parts := Buffer.push parts
                 (ascii (divider ++ Js.nl ++ Js.nl ++ Js.nl)%string) in
  let parts := Buffer.push parts LegacyPrinter.cutPaper in
  parts.

Definition printXprinterAscii_payload (ascii : string -> Buffer.t)
    (title : option string) (lines : list (option string)) : Buffer.t :=
  Buffer.concat (printXprinterAscii_parts ascii title lines).

(* ===================================================================== *)
(** * More of the order handler                                           *)
(* ===================================================================== *)

(** The [printedAt] time stamps a run asks the database for. *)
Definition stamps (tr : list Server.effect) : list string :=
  flat_map (fun ef => match ef with
                      | Server.OrderSetPrintedAt oid => [oid]
                      | _ => []
                      end) tr.

(** Whether the print of printer [t]'s group was made and resolved. *)
Definition print_resolved (encode : codepage -> string -> Buffer.t)
    (cfg : Server.config) (e : Server.env) (b : Server.body)
    (t : Server.target) (its : list Server.item) : bool :=
  match group (Server.Category_find_active (Server.db_categories e)) t its
  with
  | [] => false
  | x :: xs =>
      match Net.await
              (EscposPrinter.call
                 (match t with
                  | Server.EPSON => Server.EPSON_PORT cfg
                  | Server.XPRINTER => Server.XPRINTER_PORT cfg
                  end)
                 (Server.payload_of encode cfg t
                    (Server.order_title (Server.make_orderId e))
                    (Server.makeLines (Server.table b) (Server.note b)
                       (x :: xs)))
                 (match t with
                  | Server.EPSON => Server.epson_net e
                  | Server.XPRINTER => Server.xprinter_net e
                  end)) with
      | Some Net.Resolved => true
      | _ => false
      end
  end.

(** The character of a decimal digit, and a number's last six decimal
    digits, zeros included. *)
Definition digit_char (k : Z) : ascii := ascii_of_nat (48 + Z.to_nat k).

Definition six_digits (m : Z) : string :=
  String (digit_char (m / 100000 mod 10))
    (String (digit_char (m / 10000 mod 10))
       (String (digit_char (m / 1000 mod 10))
          (String (digit_char (m / 100 mod 10))
             (String (digit_char (m / 10 mod 10))
                (String (digit_char (m mod 10)) ""))))).

(* ===================================================================== *)
(** * public/js/client.js: the cart                                       *)
(* ===================================================================== *)

Module Client.

(** [a === b] on the values of the model. *)
Definition strict_eq (a b : Js.value) : bool :=
  match a, b with
  | Js.Undefined, Js.Undefined => true
  | Js.Null, Js.Null => true
  | Js.Bool x, Js.Bool y => Bool.eqb x y
  | Js.Num x, Js.Num y => x =? y
  | Js.Str x, Js.Str y => String.eqb x y
  | _, _ => false
  end.

(** What [changeQty] reads of a menu item. *)
Record menu_item : Type := mkMenuItem {
  mi_name : string;
  mi_category : Js.value
}.

(** A cart entry, [{ name, category, qty }]. *)
Record entry : Type := mkEntry {
  e_name : string;
  e_category : Js.value;
  e_qty : Z
}.

(** [x.name === name && x.category === item.category] *)
Definition same_item (name : string) (cat : Js.value) (x : entry) : bool :=
  String.eqb (e_name x) name && strict_eq (e_category x) cat.

(** The index of the first element that satisfies [p]. *)
Fixpoint find_index {A} (p : A -> bool) (l : list A) : option nat :=
  match l with
  | [] => None
  | x :: l' =>
      if p x then Some 0%nat
      else match find_index p l' with
           | Some i => Some (S i)
           | None => None
           end
  end.

(** [cart[i].qty = q] *)
Fixpoint set_qty (i : nat) (q : Z) (cart : list entry) : list entry :=
  match cart, i with
  | [], _ => []
  | x :: cart', O => mkEntry (e_name x) (e_category x) q :: cart'
  | x :: cart', S i' => x :: set_qty i' q cart'
  end.

(** [cart.splice(i, 1)] *)
Fixpoint splice1 {A} (i : nat) (l : list A) : list A :=
  match l, i with
  | [], _ => []
  | _ :: l', O => l'
  | x :: l', S i' => x :: splice1 i' l'
  end.

(** [entry.qty || 0] *)
Definition qty_or_0 (x : option entry) : Z :=
  match x with
  | Some en => if e_qty en =? 0 then 0 else e_qty en
  | None => 0
  end.

(** [changeQty(name, delta)] on [state.cart], with [state.menu.items]:
    the entry is looked up, or pushed with quantity 0; its quantity
    becomes [Math.max(0, qty + delta)]; an entry that reaches 0 is
    spliced out. *)
Definition changeQty (menu : list menu_item) (cart : list entry)
    (name : string) (delta : Z) : list entry :=
  match find (fun i => String.eqb (mi_name i) name) menu with
  | None => cart
  | Some item =>
      let found := find_index (same_item name (mi_category item)) cart in
      let cart1 := match found with
                   | Some _ => cart
                   | None => cart ++ [mkEntry name (mi_category item) 0]
                   end in
      let idx := match found with
                 | Some i => i
                 | None => List.length cart
                 end in
      let q := Z.max 0 (qty_or_0 (nth_error cart1 idx) + delta) in
      let cart2 := set_qty idx q cart1 in
      if q =? 0 then splice1 idx cart2 else cart2
  end.

(** [state.cart.reduce((s, x) => s + x.qty, 0)] *)
Definition cart_total (cart : list entry) : Z :=
  fold_left (fun s x => s + e_qty x) cart 0.

(** The item a cart entry becomes in the request's JSON. *)
Definition to_item (x : entry) : Server.item :=
  Server.mkItem (Js.Str (e_name x)) (Js.Num (e_qty x)) (e_category x)
    Js.Undefined.

(** The request [submitOrder] sends: none for an empty cart; [note] is
    what [prompt] returned, a string or null. *)
Definition submitOrder_request (cart : list entry) (table : string)
    (note : option string) : option Server.body :=
  match cart with
  | [] => None
  | _ :: _ =>
      Some (Server.mkBody (Js.Str table)
              (Some (map (fun x => Some (to_item x)) cart))
              (match note with Some s => Js.Str s | None => Js.Null end))
  end.

End Client.

(** The key of a cart entry, the quantity the cart holds for a key, and
    the state of a cart that clicks can reach: every quantity is at least
    1 and no two entries have the same name and category. *)
Definition entry_key (x : Client.entry) : string * Js.value :=
  (Client.e_name x, Client.e_category x).

Definition cart_qty (cart : list Client.entry) (name : string)
    (cat : Js.value) : Z :=
  match find (Client.same_item name cat) cart with
  | Some x => Client.e_qty x
  | None => 0
  end.

Definition cart_ok (cart : list Client.entry) : Prop :=
  Forall (fun x => 1 <= Client.e_qty x) cart
  /\ NoDup (map entry_key cart).

(* ===================================================================== *)
(** * Creating a category                                                 *)
(* ===================================================================== *)

Module Admin.

(** What a handler answers: the status and, for an error, its message. *)
Record reply : Type := mkReply {
  status : Z;
  error : option string;
  categories : list (string * string)   (* [{ name, printer }], on success *)
}.

Definition fail (st : Z) (message : string) : reply :=
  mkReply st (Some message) [].

(** [printer === 'XPRINTER' ? 'XPRINTER' : 'EPSON'] *)
Definition normalize_printer (p : Js.value) : string :=
  if Js.str_strict_eq "XPRINTER" p then "XPRINTER" else "EPSON".

(** [req.body] of the category routes; a missing field is [Undefined]. *)
Record category_body : Type := mkCategoryBody {
  cb_oldName : Js.value;
  cb_name : Js.value;
  cb_printer : Js.value
}.

(** What the database answers besides its contents: each awaited call
    may reject. *)
Record db_env : Type := mkDbEnv {
  findOne_error : option string;
  save_error : option string;
  find_error : option string
}.

Section Categories.
(** [String.prototype.trim], and the order of
    [Category.find({ active: true }).sort({ name: 1 })]. *)
Variable trim : string -> string.
Variable sort_by_name : list Server.category_doc -> list Server.category_doc.

(** The [categories] of a successful answer. *)
Definition listing (db : list Server.category_doc) : list (string * string) :=
  map (fun c => (Server.cat_name c, Server.printer c))
    (sort_by_name (Server.Category_find_active db)).

(** [Category.findOne({ name })] *)
Definition findOne (db : list Server.category_doc) (name : string)
    : option Server.category_doc :=
  find (fun c => String.eqb (Server.cat_name c) name) db.

(** [app.post('/api/categories', ...)]: the collection after the request
    and the answer. A name that is not a string has no [trim]. *)
Definition createCategory (env : db_env) (db : list Server.category_doc)
    (body : category_body) : list Server.category_doc * reply :=
  let printer := match cb_printer body with
                 | Js.Undefined => Js.Str "EPSON"
                 | p => p
                 end in
  if negb (Js.truthy (cb_name body)) then (db, fail 400 "ต้องใส่ชื่อหมวด")
  else
    match cb_name body with
    | Js.Str name =>
        if String.eqb (trim name) "" then (db, fail 400 "ต้องใส่ชื่อหมวด")
        else
          match findOne_error env with
          | Some message => (db, fail 500 message)
          | None =>
              match findOne db (trim name) with
              | Some _ => (db, fail 400 "มีชื่อหมวดนี้อยู่แล้ว")
              | None =>
                  let category :=
                    Server.mkCategory (trim name) (normalize_printer printer)
                      true in
                  match save_error env with
                  | Some message => (db, fail 500 message)
                  | None =>
                      let db' := db ++ [category] in
                      match find_error env with
                      | Some message => (db', fail 500 message)
                      | None => (db', mkReply 200 None (listing db'))
                      end
                  end
              end
          end
    | _ => (db, fail 500 "name.trim is not a function")
    end.

End Categories.

End Admin.

(* ===================================================================== *)
(** * The in-memory server                                                *)
(* ===================================================================== *)

Module Memory.

(** An element of [menuItems]. *)
Record menu_item : Type := mkMenuItem {
  mi_id : Z;
  mi_name : Js.value;
  mi_category : Js.value;
  mi_image : Js.value;
  available : bool
}.

(** A value of a request body where the handler prints it: a primitive,
    or an object or array, of which the handler uses that it is truthy
    and whether turning it into a string succeeds (it throws for an
    object whose [toString] and [valueOf] give no primitive). *)
Inductive field : Type :=
| Prim (v : Js.value)
| Obj (prints : bool).

Definition truthy (f : field) : bool :=
  match f with
  | Prim v => Js.truthy v
  | Obj _ => true
  end.

(** Whether a template literal can hold the value. *)
Definition printable (f : field) : bool :=
  match f with
  | Prim _ => true
  | Obj prints => prints
  end.

(** An element of [items] in the body of an order that is an object;
    quantities are integers, as the cart of the client counts them. *)
Record line : Type := mkLine {
  l_name : field;
  l_category : Js.value;
  l_qty : Z
}.

(** [items] in the body of an order: missing or falsy; an array, whose
    elements are objects or [null]; or a truthy value that is no array,
    with a [length] that is not 0 and without [reduce] (a string, a
    number, an object; one whose [length] is 0 is refused as the empty
    array is). *)
Inductive items_field : Type :=
| ItemsMissing
| ItemsArray (elements : list (option line))
| ItemsOther.

(** An element of [orders]; [timestamp] and [updatedAt] are the clock
    readings that [toISOString] prints and [new Date] reads back. *)
Record order : Type := mkOrder {
  o_id : Z;
  o_table : field;
  o_items : list (option line);
  o_note : Js.value;
  o_status : Js.value;
  o_timestamp : Z;
  o_totalItems : Z;
  o_updatedAt : option Z
}.

(** The module-level variables. *)
Record state : Type := mkState {
  menuItems : list menu_item;
  orders : list order;
  orderIdCounter : Z
}.

Definition seeded (id : Z) (name category : string) : menu_item :=
  mkMenuItem id (Js.Str name) (Js.Str category) Js.Null true.

Definition initial : state :=
  mkState
    [ seeded 1 "เนื้อวัวสไลด์" "เนื้อ";
      seeded 2 "หมูสไลด์" "หมู";
      seeded 3 "กุ้งสด" "ทะเล";
      seeded 4 "ปลาหมึก" "ทะเล";
      seeded 5 "ผักรวม" "ผัก";
      seeded 6 "เห็ดรวม" "ผัก";
      seeded 7 "เส้นอุด้ง" "เส้น";
      seeded 8 "เส้นบะหมี่" "เส้น" ]
    []
    1.

(** The requests the routes take; the body is a JSON object.
    [parseInt(req.params.id)] is an integer or NaN ([None]). *)
Inductive request : Type :=
| GetMenu
| PostOrder (table : field) (items : items_field) (note : Js.value)
| GetOrders
| PatchOrder (id : option Z) (status : Js.value)
| PostMenu (name category image : Js.value).

(** [res.json(...)], after [res.status(...)] for a refusal. *)
Inductive answer : Type :=
| Menu (items : list menu_item)
| OrderAccepted (orderId : Z)
| Orders (listed : list order)
| StatusUpdated
| ItemAdded (item : menu_item)
| Rejected (status : Z) (error : string).

(** [io.emit(...)] *)
Inductive emitted : Type :=
| NewOrder (o : order)
| OrderStatusUpdated (orderId : option Z) (status : Js.value)
| MenuUpdated.

(** [items.reduce((sum, item) => sum + item.qty, 0)] from [sum] on;
    reading [qty] off [null] throws. *)
Fixpoint reduce_qty (sum : Z) (items : list (option line)) : option Z :=
  match items with
  | [] => Some sum
  | Some item :: rest => reduce_qty (sum + l_qty item) rest
  | None :: _ => None
  end.

(** The comparator of [orders.sort]:
    [new Date(b.timestamp) - new Date(a.timestamp)]. *)
Definition compare_orders (a b : order) : Z := o_timestamp b - o_timestamp a.

(** [Array.prototype.sort] is stable, and this comparator is a total
    preorder, which fixes the result: each element goes before the first
    one that the comparator does not put ahead of it. *)
Fixpoint insert (x : order) (l : list order) : list order :=
  match l with
  | [] => [x]
  | y :: l' => if compare_orders x y <=? 0 then x :: l else y :: insert x l'
  end.

Definition sort (l : list order) : list order := fold_right insert [] l.

(** [o.id === orderId]; nothing equals NaN. *)
Definition has_id (orderId : option Z) (o : order) : bool :=
  match orderId with
  | Some n => o_id o =? n
  | None => false
  end.

(** [order.status = status; order.updatedAt = new Date().toISOString()] *)
Definition with_status (status : Js.value) (now : Z) (o : order) : order :=
  mkOrder (o_id o) (o_table o) (o_items o) (o_note o) status (o_timestamp o)
    (o_totalItems o) (Some now).

(** The array after the object that [orders.find] returned is assigned
    to: the first match changes, in place. *)
Fixpoint assign (orderId : option Z) (status : Js.value) (now : Z)
    (l : list order) : list order :=
  match l with
  | [] => []
  | o :: l' =>
      if has_id orderId o then with_status status now o :: l'
      else o :: assign orderId status now l'
  end.

(** [Math.max(...ids, 0)] *)
Definition max_id (ids : list Z) : Z := fold_right Z.max 0 ids.

(** The variables when the order literal throws: [id: orderIdCounter++]
    is evaluated before [totalItems], and the handler's [catch] answers
    500. *)
Definition burnt (st : state) : state :=
  mkState (menuItems st) (orders st) (orderIdCounter st + 1).

(** Whether the [console.log] after [orders.push] and [io.emit] returns:
    its template literals hold the table and every item's name. *)
Definition logs (table : field) (elements : list (option line)) : bool :=
  printable table
  && forallb (fun i => match i with
                       | Some x => printable (l_name x)
                       | None => false
                       end) elements.

(** One request, served at clock reading [now]: the variables afterwards,
    the answer, and what was emitted. *)
Definition handle (now : Z) (st : state) (r : request)
    : state * answer * list emitted :=
  match r with
  | GetMenu => (st, Menu (filter available (menuItems st)), [])
  | PostOrder table items note =>
      if negb (truthy table) then
        (st, Rejected 400 "กรุณาระบุหมายเลขโต๊ะ", [])
      else
        match items with
        | ItemsMissing | ItemsArray [] =>
            (st, Rejected 400 "กรุณาเลือกเมนูอย่างน้อย 1 รายการ", [])
        | ItemsOther =>
            (burnt st, Rejected 500 "เกิดข้อผิดพลาดในการส่งออเดอร์", [])
        | ItemsArray elements =>
            match reduce_qty 0 elements with
            | None =>
                (burnt st, Rejected 500 "เกิดข้อผิดพลาดในการส่งออเดอร์", [])
            | Some total =>
                let order :=
                  mkOrder (orderIdCounter st) table elements
                    (Js.or note (Js.Str "")) (Js.Str "pending") now total
                    None in
                let stored :=
                  mkState (menuItems st) (orders st ++ [order])
                    (orderIdCounter st + 1) in
                if logs table elements then
                  (stored, OrderAccepted (o_id order), [NewOrder order])
                else
                  (stored, Rejected 500 "เกิดข้อผิดพลาดในการส่งออเดอร์",
                   [NewOrder order])
            end
        end
  | GetOrders =>
      let sorted := sort (orders st) in
      (mkState (menuItems st) sorted (orderIdCounter st), Orders sorted, [])
  | PatchOrder orderId status =>
      match find (has_id orderId) (orders st) with
      | None => (st, Rejected 404 "ไม่พบออเดอร์", [])
      | Some _ =>
          (mkState (menuItems st) (assign orderId status now (orders st))
             (orderIdCounter st),
           StatusUpdated, [OrderStatusUpdated orderId status])
      end
  | PostMenu name category image =>
      if negb (Js.truthy name) then
        (st, Rejected 400 "กรุณาระบุชื่อเมนู", [])
      else
        let newItem :=
          mkMenuItem (max_id (map mi_id (menuItems st)) + 1) name
            (Js.or category (Js.Str "")) (Js.or image Js.Null) true in
        (mkState (menuItems st ++ [newItem]) (orders st) (orderIdCounter st),
         ItemAdded newItem, [MenuUpdated])
  end.

(** The variables after a sequence of requests, each with the clock
    reading it is served at. *)
Definition serve (st : state) (requests : list (Z * request)) : state :=
  fold_left (fun st r => fst (fst (handle (fst r) st (snd r)))) requests st.

(** The orders are listed newest first. *)
Fixpoint newest_first (l : list order) : Prop :=
  match l with
  | [] => True
  | a :: l' =>
      Forall (fun b => o_timestamp b <= o_timestamp a) l' /\ newest_first l'
  end.

(** The orders placed at one instant, in the order of the list. *)
Definition placed_at (t : Z) (l : list order) : list order :=
  filter (fun o => o_timestamp o =? t) l.

End Memory.

(** The order ids in use are distinct, lie from 1 up to the counter, and
    the counter has moved at least once per stored order. *)
Definition store_ok (st : Memory.state) : Prop :=
  NoDup (map Memory.o_id (Memory.orders st))
  /\ Forall (fun i => 1 <= i < Memory.orderIdCounter st)
       (map Memory.o_id (Memory.orders st))
  /\ 1 + Z.of_nat (List.length (Memory.orders st))
     <= Memory.orderIdCounter st.

(** The menu ids are distinct and positive, and every item is on offer. *)
Definition menu_ok (st : Memory.state) : Prop :=
  NoDup (map Memory.mi_id (Memory.menuItems st))
  /\ Forall (fun m => Memory.available m = true /\ 1 <= Memory.mi_id m)
       (Memory.menuItems st)
  /\ exists added,
       Memory.menuItems st = Memory.menuItems Memory.initial ++ added.


(* ===================================================================== *)
(** * Command sequences                                                    *)
(* ===================================================================== *)

(** What [services/escposPrinter.js] emits for each model: the EPSON
    sequence is reset, international set Thai, code page 21; the XPRINTER
    sequence is reset, cancel double-byte mode, international set USA, the
    configured code page through ESC t and again through GS t, font A. *)
Lemma init_sequences (cp : Z) :
  EscposPrinter.epsonSetThai
    = Cmd.reset ++ Cmd.intl Cmd.intl_thai ++ Cmd.codepage_esc Cmd.tis620_page
  /\ EscposPrinter.xprinterSetThaiCP874 cp
    = Cmd.reset ++ Cmd.cancel_kanji ++ Cmd.intl Cmd.intl_usa
        ++ Cmd.codepage_esc (Buffer.byte_of_Z cp)
        ++ Cmd.codepage_gs (Buffer.byte_of_Z cp)
        ++ Cmd.font Cmd.font_a
  /\ Cmd.codepage_esc (Buffer.byte_of_Z cp)
       <> Cmd.codepage_gs (Buffer.byte_of_Z cp)
  /\ Cmd.intl_usa <> Cmd.intl_thai.
Proof.
  repeat split; try reflexivity; discriminate.
Qed.

Example epson_init_bytes :
  EscposPrinter.epsonSetThai = [x1b; x40; x1b; x52; x0b; x1b; x74; x15].
Proof. reflexivity. Qed.

Example xprinter_init_bytes :
  EscposPrinter.xprinterSetThaiCP874 70
  = [x1b; x40; x1c; x2e; x1b; x52; x00; x1b; x74; x46; x1d; x74; x46;
     x1b; x4d; x00].
Proof. reflexivity. Qed.

(** The two copies cut differently: GS V A 16 and GS V B 0. *)
Example cut_bytes :
  EscposPrinter.cutPaper = [x1d; x56; x41; x10]
  /\ LegacyPrinter.cutPaper = [x1d; x56; x42; x00].
Proof. split; reflexivity. Qed.

(** A code page numeral beyond a byte wraps around. *)
Example codepage_wraps : Buffer.byte_of_Z (256 + 70) = x46.
Proof. reflexivity. Qed.

(** The code page numeral defaults to 70. *)
Lemma XPR_CODEPAGE_default :
  EscposPrinter.XPR_CODEPAGE None = 70
  /\ Buffer.byte_of_Z (EscposPrinter.XPR_CODEPAGE None) = x46.
Proof. split; reflexivity. Qed.

(** The second copy emits the same XPRINTER sequence, with 70 written in. *)
Lemma legacy_xprinter_init :
  LegacyPrinter.xprinterSetThaiCP874 = EscposPrinter.xprinterSetThaiCP874 70.
Proof. reflexivity. Qed.

(** C2, at the second copy of the service: its EPSON builder emits the
    international-set and code-page selectors only. The device reset that
    the claim puts first, and that [services/escposPrinter.js] emits, is
    not there: the sequence is the other builder's without its first two
    bytes. *)
Theorem legacy_epson_init_has_no_reset :
  LegacyPrinter.epsonSetThai
    = Cmd.intl Cmd.intl_thai ++ Cmd.codepage_esc Cmd.tis620_page
  /\ LegacyPrinter.epsonSetThai
    <> Cmd.reset ++ Cmd.intl Cmd.intl_thai
         ++ Cmd.codepage_esc Cmd.tis620_page
  /\ EscposPrinter.epsonSetThai = Cmd.reset ++ LegacyPrinter.epsonSetThai.
Proof.
  repeat split; try reflexivity; discriminate.
Qed.

(* ===================================================================== *)
(** * Payload composition                                                  *)
(* ===================================================================== *)

Section Composer.
Variable encode : string -> Buffer.t.

Lemma push_loop (lines : list (option string)) (acc : list Buffer.t) :
  fold_left
    (fun acc line =>
       Buffer.push acc (encode (line_or_empty line ++ Js.nl)%string))
    lines acc
  = acc ++ map (fun line => encode (line_or_empty line ++ Js.nl)%string)
             lines.
Proof.
  revert acc.
  induction lines as [|l ls IH]; intros acc; simpl.
  - now rewrite app_nil_r.
  - rewrite IH. unfold Buffer.push. now rewrite <- app_assoc.
Qed.

Lemma concat_chunks (init cut : Buffer.t) (title : option string)
    (lines : list (option string)) :
  Buffer.concat (receipt_chunks init cut encode title lines)
  = receipt_layout encode init cut (given_title title)
      (map given_line lines).
Proof.
  unfold receipt_chunks, receipt_layout, Buffer.concat.
  rewrite push_loop. unfold Buffer.push.
  repeat rewrite concat_app. simpl.
  repeat rewrite app_nil_r.
  repeat rewrite <- app_assoc.
  destruct title as [title|];
    (do 3 f_equal;
     rewrite flat_map_concat_map, map_map; f_equal;
     apply map_ext; intros [line|]; reflexivity).
Qed.
End Composer.

(** C3: for every title and every list of lines, also the empty one, the
    payload of each print function is its initialisation sequence, the
    encoded blank line, title and newline (the title [SHABU ORDER] when
    none is given), the encoded 30-dash divider, every line in input
    order, each followed by a newline (an empty line for one that is null
    or undefined), the divider again, the Thai thank-you line, three line
    feeds and the cut command, in this order; this holds in
    [services/escposPrinter.js] and in the second copy, each around its
    own initialisation and cut bytes; no payload is empty. *)
Theorem payload_is_layout (encode : codepage -> string -> Buffer.t)
    (cp : Z) (title : option string) (lines : list (option string)) :
  EscposPrinter.printEpson_payload encode title lines
    = receipt_layout (encode TIS620) EscposPrinter.epsonSetThai
        EscposPrinter.cutPaper
        (match title with Some s => s | None => "SHABU ORDER" end)
        (map (fun line => match line with Some s => s | None => "" end)
           lines)
  /\ EscposPrinter.printXprinterThaiCP874_payload encode cp title lines
    = receipt_layout (encode CP874) (EscposPrinter.xprinterSetThaiCP874 cp)
        EscposPrinter.cutPaper
        (match title with Some s => s | None => "SHABU ORDER" end)
        (map (fun line => match line with Some s => s | None => "" end)
           lines)
  /\ LegacyPrinter.printEpson_payload encode title lines
    = receipt_layout (encode TIS620) LegacyPrinter.epsonSetThai
        LegacyPrinter.cutPaper
        (match title with Some s => s | None => "SHABU ORDER" end)
        (map (fun line => match line with Some s => s | None => "" end)
           lines)
  /\ LegacyPrinter.printXprinterThaiCP874_payload encode title lines
    = receipt_layout (encode CP874) LegacyPrinter.xprinterSetThaiCP874
        LegacyPrinter.cutPaper
        (match title with Some s => s | None => "SHABU ORDER" end)
        (map (fun line => match line with Some s => s | None => "" end)
           lines)
  /\ EscposPrinter.printEpson_payload encode title lines <> []
  /\ EscposPrinter.printXprinterThaiCP874_payload encode cp title lines <> []
  /\ LegacyPrinter.printEpson_payload encode title lines <> []
  /\ LegacyPrinter.printXprinterThaiCP874_payload encode title lines <> [].
Proof.
  unfold EscposPrinter.printEpson_payload,
    EscposPrinter.printXprinterThaiCP874_payload,
    LegacyPrinter.printEpson_payload,
    LegacyPrinter.printXprinterThaiCP874_payload.
  rewrite !concat_chunks.
  repeat split; try reflexivity; discriminate.
Qed.

(** With no line at all the payload is still the initialisation, the
    header, two dividers, the thank-you line, the feed and the cut. *)
Example empty_receipt :
  EscposPrinter.printEpson_payload ascii_only (Some "T") []
  = [x1b; x40; x1b; x52; x0b; x1b; x74; x15]
      ++ [x0a; x54; x0a]
      ++ repeat x2d 30 ++ [x0a]
      ++ repeat x2d 30 ++ [x0a]
      ++ repeat x3f 30 ++ [x2f] ++ repeat x3f 9 ++ [x0a]
      ++ [x0a; x0a; x0a] ++ [x1d; x56; x41; x10].
Proof. reflexivity. Qed.

(** A receipt without a title and with a line that is null: the default
    title, the line [A], an empty line, byte by byte. *)
Example default_title_and_null_line :
  LegacyPrinter.printEpson_payload ascii_only None [Some "A"; None]
  = [x1b; x52; x0b; x1b; x74; x15]
      ++ [x0a; x53; x48; x41; x42; x55; x20; x4f; x52; x44; x45; x52; x0a]
      ++ repeat x2d 30 ++ [x0a]
      ++ [x41; x0a] ++ [x0a]
      ++ repeat x2d 30 ++ [x0a]
      ++ repeat x3f 30 ++ [x2f] ++ repeat x3f 9 ++ [x0a]
      ++ [x0a; x0a; x0a] ++ [x1d; x56; x42; x00].
Proof. reflexivity. Qed.

(* ===================================================================== *)
(** * The transport                                                        *)
(* ===================================================================== *)

(** The timer that is due first is armed, and no armed timer is due
    before it. *)
Lemma first_due_cases (s : Net.socket) (w : Net.which) (d : Z) :
  Net.first_due s = Some (w, d) ->
  match w with
  | Net.Deadline =>
      Net.timer s = Some d
      /\ (forall h, Net.hold s = Some h -> d <= h)
      /\ (forall i, Net.idle s = Some i -> d <= i)
  | Net.Hold =>
      Net.hold s = Some d
      /\ (forall m, Net.timer s = Some m -> d < m)
      /\ (forall i, Net.idle s = Some i -> d <= i)
  | Net.Idle =>
      Net.idle s = Some d
      /\ (forall m, Net.timer s = Some m -> d < m)
      /\ (forall h, Net.hold s = Some h -> d < h)
  end.
Proof.
  unfold Net.first_due, Net.earlier, Net.tag.
  destruct (Net.timer s) as [m|], (Net.hold s) as [h|],
    (Net.idle s) as [i|];
    repeat match goal with
           | |- context [Z.leb ?a ?b] => destruct (Z.leb_spec a b)
           end;
    intros Heq; inversion Heq; subst;
    repeat split; intros x Hx; inversion Hx; subst; lia.
Qed.

Lemma first_due_none (s : Net.socket) :
  Net.first_due s = None ->
  Net.timer s = None /\ Net.hold s = None /\ Net.idle s = None.
Proof.
  unfold Net.first_due, Net.earlier, Net.tag.
  destruct (Net.timer s) as [m|], (Net.hold s) as [h|],
    (Net.idle s) as [i|];
    repeat match goal with
           | |- context [Z.leb ?a ?b] => destruct (Z.leb_spec a b)
           end;
    intros Heq; try discriminate Heq; auto.
Qed.

Lemma rank_zero (s : Net.socket) : rank s = 0%nat -> Net.first_due s = None.
Proof.
  unfold rank, Net.first_due.
  destruct (Net.timer s), (Net.hold s), (Net.idle s), (Net.progressed s);
    simpl; intros H; try discriminate H; reflexivity.
Qed.

Lemma rank_rounds (s : Net.socket) : (rank s <= Net.rounds)%nat.
Proof.
  unfold rank, Net.rounds.
  destruct (Net.timer s), (Net.hold s), (Net.idle s), (Net.progressed s);
    simpl; lia.
Qed.

(** One round of the timers, when the first one is known. *)
Lemma fire_due_fire (n : nat) (cb : Net.callbacks) (t : Z) (s : Net.socket)
    (w : Net.which) (d : Z) :
  Net.first_due s = Some (w, d) -> d <= t ->
  Net.fire_due (S n) cb t s = Net.fire_due n cb t (Net.fire cb w d s).
Proof.
  intros Hf Hd. simpl. rewrite Hf.
  destruct (Z.leb_spec d t); [reflexivity|lia].
Qed.

Lemma fire_due_later (n : nat) (cb : Net.callbacks) (t : Z) (s : Net.socket)
    (w : Net.which) (d : Z) :
  Net.first_due s = Some (w, d) -> t < d -> Net.fire_due n cb t s = s.
Proof.
  intros Hf Hd. destruct n; simpl; [reflexivity|]. rewrite Hf.
  destruct (Z.leb_spec d t); [lia|reflexivity].
Qed.

Lemma fire_due_none (n : nat) (cb : Net.callbacks) (t : Z) (s : Net.socket) :
  Net.first_due s = None -> Net.fire_due n cb t s = s.
Proof.
  intros Hf. destruct n; simpl; [reflexivity|]. now rewrite Hf.
Qed.

Lemma run_out_fire (n : nat) (cb : Net.callbacks) (s : Net.socket)
    (w : Net.which) (d : Z) :
  Net.first_due s = Some (w, d) ->
  Net.run_out (S n) cb s = Net.run_out n cb (Net.fire cb w d s).
Proof. intros Hf. simpl. now rewrite Hf. Qed.

Lemma run_out_none (n : nat) (cb : Net.callbacks) (s : Net.socket) :
  Net.first_due s = None -> Net.run_out n cb s = s.
Proof.
  intros Hf. destruct n; simpl; [reflexivity|]. now rewrite Hf.
Qed.

Section Clockwork.
Variable cb : Net.callbacks.

(** What the callbacks of a print function have in common: they leave
    the clock alone, and every firing leaves fewer timers to fire. *)
Hypothesis fire_now :
  forall s w d, Net.now (Net.fire cb w d s) = Z.max (Net.now s) d.
Hypothesis fire_rank :
  forall s w d, Net.first_due s = Some (w, d) ->
    (rank (Net.fire cb w d s) < rank s)%nat.

Lemma fire_due_now (n : nat) (t : Z) :
  forall s, Net.now s <= t -> Net.now (Net.fire_due n cb t s) <= t.
Proof.
  induction n as [|n IH]; intros s Hs; simpl; [exact Hs|].
  destruct (Net.first_due s) as [[w d]|]; [|exact Hs].
  destruct (Z.leb_spec d t); [|exact Hs].
  apply IH. rewrite fire_now. lia.
Qed.

(** After the timers have fired, none that is due is left. *)
Lemma fire_due_complete (n : nat) (t : Z) :
  forall s, (rank s <= n)%nat ->
    forall w d, Net.first_due (Net.fire_due n cb t s) = Some (w, d) -> t < d.
Proof.
  induction n as [|n IH]; intros s Hr w d; simpl.
  - rewrite rank_zero by lia. discriminate.
  - destruct (Net.first_due s) as [[w0 d0]|] eqn:Hd; [|congruence].
    destruct (Z.leb_spec d0 t).
    + apply IH. specialize (fire_rank s w0 d0 Hd). lia.
    + rewrite Hd. intros H'. inversion H'; subst. lia.
Qed.

Lemma run_out_complete (n : nat) :
  forall s, (rank s <= n)%nat -> Net.first_due (Net.run_out n cb s) = None.
Proof.
  induction n as [|n IH]; intros s Hr; simpl.
  - apply rank_zero. lia.
  - destruct (Net.first_due s) as [[w0 d0]|] eqn:Hd; [|exact Hd].
    apply IH. specialize (fire_rank s w0 d0 Hd). lia.
Qed.

Variable P : Net.socket -> Prop.
Hypothesis fire_keeps :
  forall s w d, P s -> Net.first_due s = Some (w, d) ->
    P (Net.fire cb w d s).

Lemma fire_due_keeps (n : nat) (t : Z) :
  forall s, P s -> P (Net.fire_due n cb t s).
Proof.
  induction n as [|n IH]; intros s Hs; simpl; [exact Hs|].
  destruct (Net.first_due s) as [[w d]|] eqn:Hd; [|exact Hs].
  destruct (Z.leb_spec d t); [|exact Hs].
  apply IH. now apply fire_keeps.
Qed.

Lemma run_out_keeps (n : nat) :
  forall s, P s -> P (Net.run_out n cb s).
Proof.
  induction n as [|n IH]; intros s Hs; simpl; [exact Hs|].
  destruct (Net.first_due s) as [[w d]|] eqn:Hd; [|exact Hs].
  apply IH. now apply fire_keeps.
Qed.

(** Draining keeps the property and leaves no timer armed. *)
Lemma drain_keeps (s : Net.socket) :
  P s ->
  P (Net.drain cb s)
  /\ Net.timer (Net.drain cb s) = None
  /\ Net.hold (Net.drain cb s) = None
  /\ Net.idle (Net.drain cb s) = None.
Proof.
  intros Hs. unfold Net.drain. split; [now apply run_out_keeps|].
  apply first_due_none. apply run_out_complete. apply rank_rounds.
Qed.

Hypothesis clock_keeps :
  forall s t, P s -> Net.now s <= t ->
    (forall w d, Net.first_due s = Some (w, d) -> t < d) ->
    P (Net.set_now t s).

(** Moving the clock keeps the property and leaves every armed timer
    ahead of the clock. *)
Lemma advance_keeps (t : Z) (s : Net.socket) :
  P s -> P (Net.advance cb t s) /\ ahead (Net.advance cb t s).
Proof.
  intros Hs. unfold Net.advance.
  set (t' := Z.max t (Net.now s)).
  assert (Hnow : Net.now (Net.fire_due Net.rounds cb t' s) <= t')
    by (apply fire_due_now; unfold t'; lia).
  assert (Hdone : forall w d,
             Net.first_due (Net.fire_due Net.rounds cb t' s) = Some (w, d) ->
             t' < d)
    by (apply fire_due_complete, rank_rounds).
  split.
  - apply clock_keeps; [now apply fire_due_keeps | exact Hnow | exact Hdone].
  - intros w d Hd.
    change (Net.first_due (Net.fire_due Net.rounds cb t' s) = Some (w, d))
      in Hd.
    specialize (Hdone w d Hd).
    unfold Net.set_now. cbn [Net.now]. lia.
Qed.

Variable Q : Net.event -> Prop.
Hypothesis deliver_keeps :
  forall e s, Q e -> P s -> ahead s -> P (Net.deliver cb e s).

(** A property kept by the timers, by the clock and by every delivery is
    kept by a whole run. *)
Lemma run_keeps (evs : list (Z * Net.event)) :
  forall s, Forall (fun te => Q (snd te)) evs -> P s -> P (Net.run cb s evs).
Proof.
  induction evs as [|[t e] evs IH]; intros s Hall Hs; simpl.
  - exact Hs.
  - inversion Hall as [|x l Hq Hrest]; subst. simpl in Hq.
    apply IH; [exact Hrest|].
    destruct (advance_keeps t s Hs) as [Hp Ha].
    now apply deliver_keeps.
Qed.

End Clockwork.

Lemma Forall_any_event (evs : list (Z * Net.event)) :
  Forall (fun te => (fun _ : Net.event => True) (snd te)) evs.
Proof. apply Forall_forall. intros; exact I. Qed.

(** Unfolding one step of a call down to the record. *)
Ltac socket_unfold :=
  cbv [Net.fire Net.idle_fired Net.deliver Net.alive Net.after_close
       Net.complete_write Net.set_progressed Net.progressed
       Net.write_pending Net.first_due Net.earlier Net.tag
       EscposPrinter.transport EscposPrinter.start EscposPrinter.prepared
       EscposPrinter.thrown
       LegacyPrinter.transport LegacyPrinter.start LegacyPrinter.prepared
       LegacyPrinter.thrown
       Net.reject Net.resolve Net.settle Net.socket_destroy Net.socket_end
       Net.socket_write Net.socket_connect Net.socket_setTimeout Net.refresh
       Net.setTimeout_hold Net.setTimeout_timer
       Net.clearTimeout_timer Net.set_errored Net.set_flushed
       Net.set_connected Net.set_hold Net.set_timer Net.set_idle Net.set_now
       Net.fresh
       Net.on_timer Net.on_hold Net.on_connect Net.on_flushed Net.on_error
       Net.on_timeout
       Net.now Net.timer Net.hold Net.timeout Net.idle Net.wired
       Net.connected Net.written Net.flushed_at
       Net.ended_at Net.destroyed_at Net.errored Net.settled
       rank andb negb] in *.

Ltac destruct_fields :=
  repeat match goal with
         | x : option _ |- _ => destruct x
         | x : bool |- _ => destruct x
         end.

(** Case analysis on what a step of the socket looks at. *)
Ltac split_matches :=
  repeat (match goal with
          | |- context [match ?x with _ => _ end] => is_var x; destruct x
          | |- context [if ?x then _ else _] => is_var x; destruct x
          end; cbv beta iota).

(** The callbacks of both copies leave the clock alone, and each firing
    leaves fewer timers to fire. *)
Lemma escpos_fire_now (payload : Buffer.t) (s : Net.socket)
    (w : Net.which) (d : Z) :
  Net.now (Net.fire (EscposPrinter.transport payload) w d s)
  = Z.max (Net.now s) d.
Proof.
  destruct s as [n tm hd to i wi c wr p f en ds er st].
  destruct w; socket_unfold; split_matches; reflexivity.
Qed.

Lemma escpos_fire_rank (payload : Buffer.t) (s : Net.socket)
    (w : Net.which) (d : Z) :
  Net.first_due s = Some (w, d) ->
  (rank (Net.fire (EscposPrinter.transport payload) w d s) < rank s)%nat.
Proof.
  intros Hd. apply first_due_cases in Hd.
  destruct s as [n tm hd to i wi c wr p f en ds er st].
  destruct w; cbn [Net.timer Net.hold Net.idle] in Hd;
    destruct Hd as [Hd _]; subst; socket_unfold; split_matches;
    cbn; lia.
Qed.

Lemma legacy_fire_now (payload : Buffer.t) (s : Net.socket)
    (w : Net.which) (d : Z) :
  Net.now (Net.fire (LegacyPrinter.transport payload) w d s)
  = Z.max (Net.now s) d.
Proof.
  destruct s as [n tm hd to i wi c wr p f en ds er st].
  destruct w; socket_unfold; split_matches; reflexivity.
Qed.

Lemma legacy_fire_rank (payload : Buffer.t) (s : Net.socket)
    (w : Net.which) (d : Z) :
  Net.first_due s = Some (w, d) ->
  (rank (Net.fire (LegacyPrinter.transport payload) w d s) < rank s)%nat.
Proof.
  intros Hd. apply first_due_cases in Hd.
  destruct s as [n tm hd to i wi c wr p f en ds er st].
  destruct w; cbn [Net.timer Net.hold Net.idle] in Hd;
    destruct Hd as [Hd _]; subst; socket_unfold; split_matches;
    cbn; lia.
Qed.

(** Tactics for the steps of a call through its phases. *)
Ltac open_hyps :=
  repeat first
    [ match goal with
      | H : _ /\ _ |- _ => destruct H
      | H : exists _, _ |- _ => destruct H
      | H : _ \/ _ |- _ => destruct H
      | H : Some _ = Some _ |- _ => inversion H; subst; clear H
      | H : (_, _) = (_, _) |- _ => inversion H; subst; clear H
      | H : Some _ = None |- _ => discriminate H
      | H : None = Some _ |- _ => discriminate H
      | H : true = false |- _ => discriminate H
      | H : false = true |- _ => discriminate H
      end
    | progress subst ].

Ltac settle_max :=
  repeat match goal with
         | |- context [Z.max ?a ?b] =>
             first [ rewrite (Z.max_r a b) by lia
                   | rewrite (Z.max_l a b) by lia ]
         end.

Ltac use_foralls :=
  repeat match goal with
         | H : forall x, ?i = Some x -> _, H' : ?i = Some _ |- _ =>
             specialize (H _ H')
         | H : forall x, Some _ = Some x -> _ |- _ =>
             specialize (H _ eq_refl)
         | H : ?x = ?x -> _ |- _ => specialize (H eq_refl)
         | H : ?A -> _, H' : ?A |- _ => specialize (H H')
         end.

Ltac side :=
  solve
    [ lia
    | reflexivity
    | intros; open_hyps; use_foralls; open_hyps;
        first [ lia | congruence | discriminate
              | split; first [lia | congruence] ]
    | left; repeat split; first [reflexivity | lia]
    | right; repeat split; first [reflexivity | lia]
    | right; eexists; split; [reflexivity | lia]
    | right; repeat split;
        first [ reflexivity | lia
              | intros; open_hyps; first [lia | congruence | discriminate
                                         | split; lia] ]
    | intuition (open_hyps; use_foralls; open_hyps;
                 first [lia | congruence | discriminate]) ].

Ltac escpos_phase_pick :=
  first
    [ exfalso; lia
    | eapply connecting; side
    | eapply timed_out; side
    | eapply failed_unconnected; side
    | eapply writing; side
    | eapply writing_rejected; side
    | eapply holding; side
    | eapply closed_holding; side
    | eapply ended; side
    | eapply closed_ended; side ].

Lemma escpos_phase_fire (payload : Buffer.t) (s : Net.socket)
    (w : Net.which) (d : Z) :
  escpos_phase payload s -> Net.first_due s = Some (w, d) ->
  escpos_phase payload (Net.fire (EscposPrinter.transport payload) w d s).
Proof.
  intros H Hd. apply first_due_cases in Hd.
  destruct H; destruct w; cbn [Net.timer Net.hold Net.idle] in Hd;
    destruct Hd as [Hd [Hx Hy]]; try discriminate Hd;
    try (specialize (Hx _ eq_refl)); try (specialize (Hy _ eq_refl));
    open_hyps; socket_unfold; split_matches; settle_max;
    escpos_phase_pick.
Qed.

(** When the timer that is due first is later than [t], every armed
    timer is. *)
Lemma all_later (s : Net.socket) (t : Z) :
  (forall w d, Net.first_due s = Some (w, d) -> t < d) ->
  (forall m, Net.timer s = Some m -> t < m)
  /\ (forall h, Net.hold s = Some h -> t < h)
  /\ (forall i, Net.idle s = Some i -> t < i).
Proof.
  intros Hd.
  destruct (Net.first_due s) as [[w d]|] eqn:Hf.
  - specialize (Hd w d eq_refl). apply first_due_cases in Hf.
    destruct w; destruct Hf as [Hw [Hx Hy]];
      repeat split; intros x Hx';
      try (rewrite Hw in Hx'; inversion Hx'; subst; lia);
      try (specialize (Hx _ Hx'); lia);
      try (specialize (Hy _ Hx'); lia).
  - apply first_due_none in Hf. destruct Hf as [-> [-> ->]].
    repeat split; intros x Hx'; discriminate Hx'.
Qed.

Lemma escpos_phase_clock (payload : Buffer.t) (s : Net.socket) (t : Z) :
  escpos_phase payload s -> Net.now s <= t ->
  (forall w d, Net.first_due s = Some (w, d) -> t < d) ->
  escpos_phase payload (Net.set_now t s).
Proof.
  intros H Hn Hd. apply all_later in Hd. destruct Hd as [Hm [Hh Hi]].
  destruct H; cbn [Net.now Net.timer Net.hold Net.idle] in Hn, Hm, Hh, Hi;
    try (specialize (Hm _ eq_refl)); try (specialize (Hh _ eq_refl));
    try (specialize (Hi _ eq_refl));
    open_hyps; socket_unfold; split_matches; settle_max;
    escpos_phase_pick.
Qed.

Lemma escpos_phase_deliver (payload : Buffer.t) (e : Net.event)
    (s : Net.socket) :
  escpos_phase payload s -> ahead s ->
  escpos_phase payload (Net.deliver (EscposPrinter.transport payload) e s).
Proof.
  intros H Ha. apply all_later in Ha. destruct Ha as [Hm [Hh Hi]].
  destruct H; cbn [Net.now Net.timer Net.hold Net.idle] in Hm, Hh, Hi;
    try (specialize (Hm _ eq_refl)); try (specialize (Hh _ eq_refl));
    try (specialize (Hi _ eq_refl));
    destruct e; open_hyps; socket_unfold; split_matches; settle_max;
    escpos_phase_pick.
Qed.

Lemma escpos_phase_start (payload : Buffer.t) :
  escpos_phase payload EscposPrinter.start.
Proof. apply (connecting payload 0). lia. Qed.

(** Every state of every call is one of the phases. *)
Lemma escpos_phase_run (payload : Buffer.t) (evs : list (Z * Net.event)) :
  escpos_phase payload
    (Net.run (EscposPrinter.transport payload) EscposPrinter.start evs).
Proof.
  apply run_keeps with (Q := fun _ => True).
  - apply escpos_fire_now.
  - apply escpos_fire_rank.
  - apply escpos_phase_fire.
  - apply escpos_phase_clock.
  - intros e s _. apply escpos_phase_deliver.
  - apply Forall_any_event.
  - apply escpos_phase_start.
Qed.

(** When the timers have run out the call is in a phase with no timer
    armed. *)
Lemma escpos_phase_session (payload : Buffer.t)
    (evs : list (Z * Net.event)) :
  let s := Net.session (EscposPrinter.transport payload) EscposPrinter.start
             evs in
  escpos_phase payload s
  /\ Net.timer s = None /\ Net.hold s = None /\ Net.idle s = None.
Proof.
  unfold Net.session. apply drain_keeps.
  - apply escpos_fire_rank.
  - apply escpos_phase_fire.
  - apply escpos_phase_run.
Qed.

Ltac legacy_phase_pick :=
  first
    [ exfalso; lia
    | eapply legacy_connecting; side
    | eapply legacy_unconnected; side
    | eapply legacy_writing; side
    | eapply legacy_done; side ].

Lemma legacy_phase_fire (payload : Buffer.t) (s : Net.socket)
    (w : Net.which) (d : Z) :
  legacy_phase payload s -> Net.first_due s = Some (w, d) ->
  legacy_phase payload (Net.fire (LegacyPrinter.transport payload) w d s).
Proof.
  intros H Hd. apply first_due_cases in Hd.
  destruct H; destruct w; cbn [Net.timer Net.hold Net.idle] in Hd;
    destruct Hd as [Hd [Hx Hy]]; try discriminate Hd;
    open_hyps; socket_unfold; split_matches; settle_max;
    legacy_phase_pick.
Qed.

Lemma legacy_phase_clock (payload : Buffer.t) (s : Net.socket) (t : Z) :
  legacy_phase payload s -> Net.now s <= t ->
  (forall w d, Net.first_due s = Some (w, d) -> t < d) ->
  legacy_phase payload (Net.set_now t s).
Proof.
  intros H Hn Hd. apply all_later in Hd. destruct Hd as [Hm [Hh Hi]].
  destruct H; cbn [Net.now Net.timer Net.hold Net.idle] in Hn, Hm, Hh, Hi;
    try (specialize (Hm _ eq_refl));
    open_hyps; socket_unfold; split_matches; settle_max;
    legacy_phase_pick.
Qed.

Lemma legacy_phase_deliver (payload : Buffer.t) (e : Net.event)
    (s : Net.socket) :
  legacy_phase payload s -> ahead s ->
  legacy_phase payload (Net.deliver (LegacyPrinter.transport payload) e s).
Proof.
  intros H Ha. apply all_later in Ha. destruct Ha as [Hm [Hh Hi]].
  destruct H; cbn [Net.now Net.timer Net.hold Net.idle] in Hm, Hh, Hi;
    try (specialize (Hm _ eq_refl));
    destruct e; open_hyps; destruct_fields; socket_unfold; split_matches;
    settle_max; legacy_phase_pick.
Qed.

Lemma legacy_phase_run (payload : Buffer.t) (evs : list (Z * Net.event)) :
  legacy_phase payload
    (Net.run (LegacyPrinter.transport payload) LegacyPrinter.start evs).
Proof.
  apply run_keeps with (Q := fun _ => True).
  - apply legacy_fire_now.
  - apply legacy_fire_rank.
  - apply legacy_phase_fire.
  - apply legacy_phase_clock.
  - intros e s _. apply legacy_phase_deliver.
  - apply Forall_any_event.
  - apply (legacy_connecting payload 0). lia.
Qed.

Lemma legacy_phase_session (payload : Buffer.t)
    (evs : list (Z * Net.event)) :
  let s := Net.session (LegacyPrinter.transport payload) LegacyPrinter.start
             evs in
  legacy_phase payload s
  /\ Net.timer s = None /\ Net.hold s = None /\ Net.idle s = None.
Proof.
  unfold Net.session. apply drain_keeps.
  - apply legacy_fire_rank.
  - apply legacy_phase_fire.
  - apply legacy_phase_run.
Qed.

(** A promise settles once: no step of a call changes a settlement. *)
Lemma escpos_settled_stable (payload : Buffer.t)
    (x : Net.outcome * Z) (evs : list (Z * Net.event)) (s : Net.socket) :
  Net.settled s = Some x ->
  Net.settled (Net.session (EscposPrinter.transport payload) s evs) = Some x.
Proof.
  intros Hs. unfold Net.session.
  apply (drain_keeps (EscposPrinter.transport payload)
           (escpos_fire_rank payload)
           (fun s => Net.settled s = Some x)).
  - clear. intros s w d Hs _.
    destruct s as [n tm hd to i wi c wr p f en ds er st].
    cbn in Hs. subst st.
    destruct w; socket_unfold; split_matches; reflexivity.
  - apply run_keeps with (Q := fun _ => True).
    + apply escpos_fire_now.
    + apply escpos_fire_rank.
    + clear. intros s w d Hs _.
      destruct s as [n tm hd to i wi c wr p f en ds er st].
      cbn in Hs. subst st.
      destruct w; socket_unfold; split_matches; reflexivity.
    + clear. intros s t Hs _ _. exact Hs.
    + clear. intros e s _ Hs _.
      destruct s as [n tm hd to i wi c wr p f en ds er st].
      cbn in Hs. subst st.
      destruct e; socket_unfold; split_matches; reflexivity.
    + apply Forall_any_event.
    + exact Hs.
Qed.

Lemma legacy_settled_stable (payload : Buffer.t)
    (x : Net.outcome * Z) (evs : list (Z * Net.event)) (s : Net.socket) :
  Net.settled s = Some x ->
  Net.settled (Net.session (LegacyPrinter.transport payload) s evs) = Some x.
Proof.
  intros Hs. unfold Net.session.
  apply (drain_keeps (LegacyPrinter.transport payload)
           (legacy_fire_rank payload)
           (fun s => Net.settled s = Some x)).
  - clear. intros s w d Hs _.
    destruct s as [n tm hd to i wi c wr p f en ds er st].
    cbn in Hs. subst st.
    destruct w; socket_unfold; split_matches; reflexivity.
  - apply run_keeps with (Q := fun _ => True).
    + apply legacy_fire_now.
    + apply legacy_fire_rank.
    + clear. intros s w d Hs _.
      destruct s as [n tm hd to i wi c wr p f en ds er st].
      cbn in Hs. subst st.
      destruct w; socket_unfold; split_matches; reflexivity.
    + clear. intros s t Hs _ _. exact Hs.
    + clear. intros e s _ Hs _.
      destruct s as [n tm hd to i wi c wr p f en ds er st].
      cbn in Hs. subst st.
      destruct e; socket_unfold; split_matches; reflexivity.
    + apply Forall_any_event.
    + exact Hs.
Qed.


(** Every call settles, and does so before 12200 ms, also a call whose
    [socket.connect] threw. *)
Lemma session_settles (payload : Buffer.t) (evs : list (Z * Net.event)) :
  exists o t,
    Net.settled
      (Net.session (EscposPrinter.transport payload) EscposPrinter.start evs)
    = Some (o, t) /\ t < 12200.
Proof.
  destruct (escpos_phase_session payload evs) as [Hp [Ht [Hh Hi]]].
  destruct Hp; cbn in Ht, Hh, Hi; try discriminate;
    eexists; eexists; (split; [reflexivity|]); open_hyps; lia.
Qed.

Lemma call_settles (port : Z) (payload : Buffer.t)
    (evs : list (Z * Net.event)) :
  exists o t,
    Net.settled (EscposPrinter.call port payload evs) = Some (o, t)
    /\ t < 12200.
Proof.
  unfold EscposPrinter.call. destruct (Net.legal_port port).
  - apply session_settles.
  - exists (Net.Rejected (Net.bad_port port)), 0. split; [|lia].
    apply escpos_settled_stable. reflexivity.
Qed.

Lemma await_call (port : Z) (payload : Buffer.t)
    (evs : list (Z * Net.event)) :
  Net.await (EscposPrinter.call port payload evs) <> None.
Proof.
  destruct (call_settles port payload evs) as [o [t [H _]]].
  unfold Net.await. rewrite H. discriminate.
Qed.




(** The second copy arms 4000 ms and sets no idle time. *)
Lemma legacy_deadline :
  Net.timer LegacyPrinter.start = Some 4000
  /\ Net.idle LegacyPrinter.start = None
  /\ Net.settled
       (Net.session (LegacyPrinter.transport [x41]) LegacyPrinter.start [])
     = Some (Net.Rejected "Printer timeout", 4000).
Proof. repeat split; reflexivity. Qed.


(** In [services/escposPrinter.js] the socket is held for 200 ms after
    the write callback: at every moment of every call, an ended socket was
    ended exactly 200 ms after the write callback ran, never in the
    callback itself; and once the timers have run out, a call whose write
    callback ran has ended its socket. *)
Lemma close_is_held (payload : Buffer.t) (evs : list (Z * Net.event)) :
  let cb := EscposPrinter.transport payload in
  let s := Net.run cb EscposPrinter.start evs in
  let s' := Net.session cb EscposPrinter.start evs in
  (forall te, Net.ended_at s = Some te ->
     exists tw, Net.flushed_at s = Some tw /\ te = tw + 200 /\ tw < te)
  /\ (forall tw, Net.flushed_at s' = Some tw ->
        Net.ended_at s' = Some (tw + 200))
  /\ 100 <= 200 < 1000.
Proof.
  cbv zeta.
  pose proof (escpos_phase_run payload evs) as Hrun.
  destruct (escpos_phase_session payload evs) as [Hp [Ht [Hh Hi]]].
  split; [|split; [|lia]].
  - intros te Hte. destruct Hrun; cbn in Hte |- *; try discriminate;
      inversion Hte; subst; exists tw; repeat split; lia.
  - intros tw' Hf. destruct Hp; cbn in Hf, Hh |- *; try discriminate;
      inversion Hf; subst; reflexivity.
Qed.

(** C5, at the second copy of the service: the printer accepts the
    connection at 5 ms and the write callback runs at 7 ms; the socket is
    ended at 7 ms, in the write callback, where
    [services/escposPrinter.js] ends it at 207 ms. At every moment of
    every call of the second copy the socket is ended at the time of the
    write callback. *)
Theorem legacy_ends_socket_in_write_callback :
  let evs := [(5, Net.Connected); (7, Net.Flushed)] in
  let old := Net.session (LegacyPrinter.transport [x41]) LegacyPrinter.start
               evs in
  let new := Net.session (EscposPrinter.transport [x41]) EscposPrinter.start
               evs in
  Net.flushed_at old = Some 7
  /\ Net.ended_at old = Some 7
  /\ Net.settled old = Some (Net.Resolved, 7)
  /\ Net.ended_at new = Some 207
  /\ forall payload evs',
       let s := Net.run (LegacyPrinter.transport payload) LegacyPrinter.start
                  evs' in
       Net.ended_at s = Net.flushed_at s.
Proof.
  cbv zeta. repeat split; try reflexivity.
  intros payload evs'.
  destruct (legacy_phase_run payload evs'); reflexivity.
Qed.

(* ===================================================================== *)
(** * Routing                                                              *)
(* ===================================================================== *)

Section Routing.
Variable categories : list Server.category_doc.

Lemma byPrinter_loop (its : list Server.item) (acc : Server.by_printer) :
  let bp := fold_left
              (fun bp it =>
                 Server.bp_push bp (Server.target_of categories it) it)
              its acc in
  Server.bp_EPSON bp
  = Server.bp_EPSON acc ++ group categories Server.EPSON its
  /\ Server.bp_XPRINTER bp
     = Server.bp_XPRINTER acc ++ group categories Server.XPRINTER its.
Proof.
  revert acc.
  induction its as [|it its IH]; intros acc; simpl.
  - now rewrite !app_nil_r.
  - destruct (IH (Server.bp_push acc (Server.target_of categories it) it))
      as [HE HX].
    cbv zeta in HE, HX. rewrite HE, HX.
    destruct (Server.target_of categories it); simpl;
      rewrite <- ?app_assoc; split; reflexivity.
Qed.

Lemma byPrinter_groups (its : list Server.item) :
  Server.bp_EPSON (Server.byPrinter categories its)
    = group categories Server.EPSON its
  /\ Server.bp_XPRINTER (Server.byPrinter categories its)
    = group categories Server.XPRINTER its.
Proof.
  unfold Server.byPrinter.
  destruct (byPrinter_loop its (Server.mkByPrinter [] [])) as [HE HX].
  split; assumption.
Qed.

(** The two groups together are the order: nothing lost, nothing
    twice. *)
Lemma groups_partition (its : list Server.item) :
  Permutation
    (group categories Server.EPSON its
       ++ group categories Server.XPRINTER its) its.
Proof.
  induction its as [|it its IH]; simpl.
  - constructor.
  - unfold group in *. simpl.
    destruct (Server.target_of categories it); simpl.
    + now constructor.
    + apply Permutation_sym. apply Permutation_cons_app.
      now apply Permutation_sym.
Qed.
End Routing.

(* ===================================================================== *)
(** * The handler, path by path                                            *)
(* ===================================================================== *)

Lemma print_calls_app (tr1 tr2 : list Server.effect) :
  Server.print_calls (tr1 ++ tr2)
  = Server.print_calls tr1 ++ Server.print_calls tr2.
Proof. apply flat_map_app. Qed.

Lemma responses_app (tr1 tr2 : list Server.effect) :
  Server.responses (tr1 ++ tr2)
  = Server.responses tr1 ++ Server.responses tr2.
Proof. apply flat_map_app. Qed.

(** An array of objects, and nothing else, goes through
    [items.map]. *)
Lemma objects_map_Some (its : list Server.item) :
  Server.objects (map Some its) = Some its.
Proof.
  induction its as [|it its IH]; simpl; [reflexivity|].
  now rewrite IH.
Qed.

Lemma objects_Some (elements : list (option Server.item))
    (its : list Server.item) :
  Server.objects elements = Some its -> elements = map Some its.
Proof.
  revert its.
  induction elements as [|[x|] rest IH]; intros its H; simpl in H.
  - inversion H. reflexivity.
  - destruct (Server.objects rest) as [xs|]; [|discriminate].
    inversion H; subst. simpl. now rewrite (IH xs eq_refl).
  - discriminate.
Qed.

Lemma item_objects_Some (b : Server.body) (its : list Server.item) :
  Server.items b = Some (map Some its) -> Server.item_objects b = Some its.
Proof.
  intros H. unfold Server.item_objects. rewrite H.
  apply objects_map_Some.
Qed.

Section HandlerFacts.
Variable encode : codepage -> string -> Buffer.t.
Variable cfg : Server.config.

(** A group's block never throws and never blocks: the failure of its
    print, or of the time stamp after it, ends in the block's own
    [catch]. *)
Lemma print_group_returns (e : Server.env) (b : Server.body)
    (oid : string) (t : Server.target) (subset : list Server.item) :
  snd (Server.print_group encode cfg e b oid t subset) = Server.Ok tt
  /\ Server.print_calls
       (Server.trace (Server.print_group encode cfg e b oid t subset))
     = group_call b oid t subset
  /\ Server.responses
       (Server.trace (Server.print_group encode cfg e b oid t subset))
     = []
  /\ forall o, ~ In (Server.OrderSave o)
       (Server.trace (Server.print_group encode cfg e b oid t subset)).
Proof.
  unfold Server.print_group.
  destruct subset as [|x xs]; [simpl; intuition|].
  unfold Server.await_print.
  set (lines := Server.makeLines _ _ _).
  set (host := match t with Server.EPSON => _ | Server.XPRINTER => _ end).
  set (port := match t with Server.EPSON => Server.EPSON_PORT cfg
                          | Server.XPRINTER => _ end).
  set (net := match t with Server.EPSON => Server.epson_net e
                         | Server.XPRINTER => _ end).
  set (upd := match t with Server.EPSON => Server.epson_update_error e
                         | Server.XPRINTER => _ end).
  set (tag := match t with Server.EPSON => "Print EPSON error:"
                         | Server.XPRINTER => _ end).
  pose proof (await_call port
                (Server.payload_of encode cfg t
                   (Server.order_title oid) lines) net) as Haw.
  destruct (Net.await _) as [[|message]|]; [| |congruence];
    destruct upd as [m|]; cbn; intuition congruence.
Qed.

(** The path of an order that is saved and whose categories are read:
    the order is saved and announced, the categories are read, the EPSON
    block runs, then the XPRINTER block, then the handler answers 200,
    whatever the two blocks met. *)
Lemma handler_saved_path (e : Server.env) (b : Server.body)
    (it : Server.item) (its : list Server.item) :
  Server.items b = Some (map Some (it :: its)) ->
  Server.save_error e = None ->
  Server.find_error e = None ->
  let oid := Server.make_orderId e in
  let o := Server.new_order oid b (it :: its) in
  let bp := Server.byPrinter
              (Server.Category_find_active (Server.db_categories e))
              (it :: its) in
  Server.orderHandler encode cfg e b
  = ([Server.OrderSave o; Server.Emit "new-order" o; Server.CategoryFind]
       ++ Server.trace
            (Server.print_group encode cfg e b oid Server.EPSON
               (Server.bp_EPSON bp))
       ++ Server.trace
            (Server.print_group encode cfg e b oid Server.XPRINTER
               (Server.bp_XPRINTER bp))
       ++ [Server.Respond 200 (Server.JsonOk oid)],
     Server.Ok tt).
Proof.
  intros Hit Hsave Hfind oid o bp.
  unfold Server.orderHandler. rewrite Hit.
  cbn [map]. rewrite <- (map_cons Some it its), objects_map_Some.
  cbv zeta. rewrite Hsave, Hfind.
  fold oid. fold o. fold bp.
  destruct (print_group_returns e b oid Server.EPSON (Server.bp_EPSON bp))
    as [R1 _].
  destruct (print_group_returns e b oid Server.XPRINTER
              (Server.bp_XPRINTER bp)) as [R2 _].
  destruct (Server.print_group encode cfg e b oid Server.EPSON _)
    as [tr1 r1].
  destruct (Server.print_group encode cfg e b oid Server.XPRINTER _)
    as [tr2 r2].
  simpl in R1, R2. subst r1 r2.
  cbn [Server.bind Server.perform Server.db_call Server.try_catch
       Server.trace fst snd app].
  rewrite <- ?app_assoc. reflexivity.
Qed.

(** The [Print] calls of any run of the handler: those of the two
    groups on the saved path, none on the others. *)
Lemma handler_print_calls (e : Server.env) (b : Server.body) :
  Server.print_calls (Server.trace (Server.orderHandler encode cfg e b))
  = match Server.item_objects b, Server.save_error e, Server.find_error e
    with
    | Some its, None, None =>
        let cats := Server.Category_find_active (Server.db_categories e) in
        let oid := Server.make_orderId e in
        group_call b oid Server.EPSON (group cats Server.EPSON its)
          ++ group_call b oid Server.XPRINTER
               (group cats Server.XPRINTER its)
    | _, _, _ => []
    end.
Proof.
  unfold Server.item_objects.
  destruct (Server.items b) as [[|el els]|] eqn:Hit.
  - unfold Server.orderHandler. rewrite Hit.
    destruct (Server.save_error e), (Server.find_error e); reflexivity.
  - destruct (Server.objects (el :: els)) as [[|it its]|] eqn:Hobj.
    + simpl in Hobj. destruct el; [|discriminate].
      destruct (Server.objects els); discriminate.
    + apply objects_Some in Hobj. rewrite Hobj in Hit.
      destruct (Server.save_error e) as [m|] eqn:Hsave.
      { unfold Server.orderHandler.
        rewrite Hit, objects_map_Some. cbn [map].
        cbv zeta. rewrite Hsave. reflexivity. }
      destruct (Server.find_error e) as [m|] eqn:Hfind.
      { unfold Server.orderHandler.
        rewrite Hit, objects_map_Some. cbn [map].
        cbv zeta. rewrite Hsave, Hfind. reflexivity. }
      rewrite (handler_saved_path e b it its Hit Hsave Hfind).
      cbv zeta. unfold Server.trace at 1. cbn [fst].
      rewrite !print_calls_app.
      destruct (byPrinter_groups
                  (Server.Category_find_active (Server.db_categories e))
                  (it :: its)) as [HE HX].
      destruct (print_group_returns e b (Server.make_orderId e)
                  Server.EPSON
                  (Server.bp_EPSON
                     (Server.byPrinter
                        (Server.Category_find_active
                           (Server.db_categories e))
                        (it :: its)))) as [_ [P1 _]].
      destruct (print_group_returns e b (Server.make_orderId e)
                  Server.XPRINTER
                  (Server.bp_XPRINTER
                     (Server.byPrinter
                        (Server.Category_find_active
                           (Server.db_categories e))
                        (it :: its)))) as [_ [P2 _]].
      rewrite P1, P2, HE, HX.
      simpl. now rewrite app_nil_r.
    + unfold Server.orderHandler. rewrite Hit, Hobj.
      destruct (Server.save_error e), (Server.find_error e); reflexivity.
  - unfold Server.orderHandler. rewrite Hit. reflexivity.
Qed.

(** A rejected EPSON print ends in the EPSON block's [catch]. *)
Lemma print_group_rejected (e : Server.env) (b : Server.body)
    (oid : string) (x : Server.item) (xs : list Server.item)
    (message : string) :
  let lines := Server.makeLines (Server.table b) (Server.note b) (x :: xs) in
  Net.await
    (EscposPrinter.call (Server.EPSON_PORT cfg)
       (Server.payload_of encode cfg Server.EPSON
          (Server.order_title oid) lines)
       (Server.epson_net e))
  = Some (Net.Rejected message) ->
  Server.trace (Server.print_group encode cfg e b oid Server.EPSON (x :: xs))
  = [Server.Print Server.EPSON (Server.EPSON_IP cfg) (Server.EPSON_PORT cfg)
       (Server.order_title oid) lines;
     Server.ConsoleError "Print EPSON error:" message].
Proof.
  intros lines H.
  unfold Server.print_group, Server.await_print. fold lines.
  rewrite H. reflexivity.
Qed.

End HandlerFacts.

(** The lines the handler makes are the receipt's lines, text by
    text. *)
Lemma makeLines_texts (table note : Js.value) (subset : list Server.item) :
  Server.makeLines table note subset = receipt_lines table note subset.
Proof. reflexivity. Qed.

(** The target the handler computes is XPRINTER exactly for the items
    whose category says so. *)
Lemma target_of_xprinter (cats : list Server.category_doc)
    (it : Server.item) :
  Server.target_of cats it = Server.XPRINTER <-> routed_to_xprinter cats it.
Proof.
  unfold Server.target_of, Server.cat_printer, Server.lookup_category,
    routed_to_xprinter.
  destruct (find _ cats) as [c|].
  - destruct (String.eqb_spec (Server.printer c) "XPRINTER") as [He|Hne].
    + split; [intros _; exists c; split; [reflexivity|exact He]
             |reflexivity].
    + split; [discriminate|].
      intros [c' [Hc Hp]]. inversion Hc; subst. contradiction.
  - simpl. split; [discriminate|]. intros [c [Hc _]]. discriminate.
Qed.

Lemma group_routed (cats : list Server.category_doc)
    (its : list Server.item) (it : Server.item) :
  (In it (group cats Server.XPRINTER its)
   <-> In it its /\ routed_to_xprinter cats it)
  /\ (In it (group cats Server.EPSON its)
      <-> In it its /\ ~ routed_to_xprinter cats it).
Proof.
  unfold group. rewrite !filter_In.
  pose proof (target_of_xprinter cats it) as Hx.
  destruct (Server.target_of cats it); simpl; split; split;
    intros [Hin H]; split; try exact Hin; try reflexivity;
    try discriminate.
  - apply Hx in H. discriminate.
  - intros Hr. apply Hx in Hr. discriminate.
  - now apply Hx.
  - exfalso. apply H. now apply Hx.
Qed.

(** C1: for an order that is saved and whose categories are read, the
    print calls are those of a list of groups, one call per group, whose
    lines are the table line, one line per item of the group with its
    quantity and name, and the note when there is one; the groups
    together are a permutation of the order's items, so no item is lost
    or printed twice; each group is non-empty and is the order's items
    routed to its printer, in their original order, an item going to the
    XPRINTER group exactly when the first active category of its name
    has the printer XPRINTER; and no two groups have the same printer. *)
Theorem routing_partition (encode : codepage -> string -> Buffer.t)
    (cfg : Server.config) (e : Server.env) (b : Server.body)
    (its : list Server.item) :
  Server.items b = Some (map Some its) ->
  Server.save_error e = None ->
  Server.find_error e = None ->
  let cats := Server.Category_find_active (Server.db_categories e) in
  let oid := Server.make_orderId e in
  exists groups : list (Server.target * list Server.item),
    Server.print_calls (Server.trace (Server.orderHandler encode cfg e b))
    = map (fun g => (fst g,
                     (("ORDER #" ++ oid)%string,
                      receipt_lines (Server.table b) (Server.note b)
                        (snd g)))) groups
    /\ Permutation (List.concat (map snd groups)) its
    /\ (forall t g, In (t, g) groups -> g <> [] /\ g = group cats t its)
    /\ NoDup (map fst groups)
    /\ (forall it,
          (In it (group cats Server.XPRINTER its)
           <-> In it its /\ routed_to_xprinter cats it)
          /\ (In it (group cats Server.EPSON its)
              <-> In it its /\ ~ routed_to_xprinter cats it)).
Proof.
  intros Hit Hsave Hfind cats oid.
  rewrite handler_print_calls, (item_objects_Some b its Hit), Hsave, Hfind.
  cbv zeta. fold cats oid.
  pose proof (groups_partition cats its) as Hperm.
  pose proof (group_routed cats its) as Hrouted.
  destruct (group cats Server.EPSON its) as [|x xs] eqn:HE;
    destruct (group cats Server.XPRINTER its) as [|y ys] eqn:HX.
  - exists []. simpl in *.
    split; [reflexivity|]. split; [exact Hperm|].
    split; [|split; [constructor|exact Hrouted]].
    intros t g [].
  - exists [(Server.XPRINTER, y :: ys)]. simpl in *.
    split; [reflexivity|]. split; [now rewrite app_nil_r|].
    split; [|split; [repeat constructor; intros []|exact Hrouted]].
    intros t g [Heq|[]]. inversion Heq; subst.
    split; [discriminate|now rewrite HX].
  - exists [(Server.EPSON, x :: xs)]. simpl in *.
    split; [reflexivity|]. split; [exact Hperm|].
    split; [|split; [repeat constructor; intros []|exact Hrouted]].
    intros t g [Heq|[]]. inversion Heq; subst.
    split; [discriminate|now rewrite HE].
  - exists [(Server.EPSON, x :: xs); (Server.XPRINTER, y :: ys)].
    simpl in *.
    split; [reflexivity|]. split; [now rewrite app_nil_r|].
    split; [|split; [|exact Hrouted]].
    + intros t g [Heq|[Heq|[]]]; inversion Heq; subst;
        (split; [discriminate|congruence]).
    + repeat constructor; simpl; intuition discriminate.
Qed.

(** The scenario of the specification: pork to the EPSON printer, squid
    to the XPRINTER one, both printers unreachable. *)
Lemma routing_partition_witness :
  exists groups : list (Server.target * list Server.item),
    Server.print_calls
      (Server.trace
         (Server.orderHandler ascii_only sample_cfg sample_env sample_body))
    = map (fun g => (fst g,
                     ("ORDER #123456",
                      receipt_lines (Js.Str "5") (Js.Str "no spice")
                        (snd g)))) groups
    /\ Permutation (List.concat (map snd groups)) [pork; squid]
    /\ (forall t g, In (t, g) groups ->
          g <> [] /\ g = group sample_categories t [pork; squid])
    /\ NoDup (map fst groups)
    /\ (forall it,
          (In it (group sample_categories Server.XPRINTER [pork; squid])
           <-> In it [pork; squid]
               /\ routed_to_xprinter sample_categories it)
          /\ (In it (group sample_categories Server.EPSON [pork; squid])
              <-> In it [pork; squid]
                  /\ ~ routed_to_xprinter sample_categories it)).
Proof.
  apply (routing_partition ascii_only sample_cfg sample_env sample_body
           [pork; squid]); reflexivity.
Defined.

(** The two jobs of the scenario, text by text. *)
Example scenario_two_jobs :
  Server.print_calls
    (Server.trace
       (Server.orderHandler ascii_only sample_cfg sample_env sample_body))
  = [(Server.EPSON, ("ORDER #123456",
        ["โต๊ะ 5"; "x2  Pork Slice"; "หมายเหตุ: no spice"]));
     (Server.XPRINTER, ("ORDER #123456",
        ["โต๊ะ 5"; "x1  Squid"; "หมายเหตุ: no spice"]))].
Proof. reflexivity. Qed.

(** An order without table, quantity or note: a dash for the table, 1
    for the quantity, no note line. *)
Example scenario_defaults :
  Server.print_calls
    (Server.trace
       (Server.orderHandler ascii_only sample_cfg sample_env
          (Server.mkBody Js.Undefined
             (Some [Some (Server.mkItem (Js.Str "Tea") Js.Undefined
                            Js.Undefined Js.Undefined)])
             Js.Null)))
  = [(Server.EPSON, ("ORDER #123456", ["โต๊ะ -"; "x1  Tea"]))].
Proof. reflexivity. Qed.

Example orderId_is_last_six_digits :
  Server.make_orderId sample_env = "123456".
Proof. reflexivity. Qed.

(** An order without items is refused and nothing is saved or printed. *)
Example empty_order_is_refused :
  Server.trace
    (Server.orderHandler ascii_only sample_cfg sample_env
       (Server.mkBody (Js.Str "5") (Some []) Js.Undefined))
  = [Server.Respond 400
       (Server.JsonError "ต้องมีรายการอาหารอย่างน้อย 1 รายการ")].
Proof. reflexivity. Qed.

(** An order that cannot be saved is answered 500 and is not printed. *)
Example unsaved_order_is_not_printed :
  let e := Server.mkEnv 1700000123456 (Some "validation failed")
             sample_categories None [] None [] None in
  let tr := Server.trace
              (Server.orderHandler ascii_only sample_cfg e sample_body) in
  Server.print_calls tr = []
  /\ Server.responses tr = [(500, Server.JsonError "validation failed")].
Proof. split; reflexivity. Qed.

(** C10: no run of the handler makes more than two print calls; an item
    whose category is not among the categories read, or whose category's
    [printer] is anything but [XPRINTER], resolves to the EPSON printer
    and is found in the EPSON group and not in the XPRINTER group. *)
Theorem at_most_two_jobs (encode : codepage -> string -> Buffer.t)
    (cfg : Server.config) (e : Server.env) (b : Server.body)
    (cats : list Server.category_doc) (its : list Server.item)
    (it : Server.item) :
  (List.length
     (Server.print_calls (Server.trace (Server.orderHandler encode cfg e b)))
   <= 2)%nat
  /\ (Server.lookup_category cats it = None
      \/ (exists c, Server.lookup_category cats it = Some c
                    /\ Server.printer c <> "XPRINTER") ->
      Server.target_of cats it = Server.EPSON
      /\ (In it its ->
          In it (Server.bp_EPSON (Server.byPrinter cats its))
          /\ ~ In it (Server.bp_XPRINTER (Server.byPrinter cats its)))).
Proof.
  split.
  - rewrite handler_print_calls.
    destruct (Server.item_objects b) as [l|]; [|simpl; lia].
    destruct (Server.save_error e); [simpl; lia|].
    destruct (Server.find_error e); [simpl; lia|].
    cbv zeta. rewrite length_app. unfold group_call.
    destruct (group _ Server.EPSON l), (group _ Server.XPRINTER l);
      simpl; lia.
  - intros H.
    assert (Ht : Server.target_of cats it = Server.EPSON).
    { unfold Server.target_of, Server.cat_printer.
      destruct H as [-> | [c [-> Hc]]]; [reflexivity|].
      destruct (String.eqb_spec (Server.printer c) "XPRINTER");
        [contradiction|reflexivity]. }
    split; [exact Ht|]. intros Hin.
    destruct (byPrinter_groups cats its) as [-> ->]. unfold group.
    rewrite !filter_In, Ht. simpl. split; [tauto|].
    intros [_ Hf]. discriminate.
Qed.

Lemma at_most_two_jobs_witness :
  Server.target_of sample_categories
    (Server.mkItem (Js.Str "Tea") (Js.Num 1) (Js.Str "Drinks") Js.Undefined)
  = Server.EPSON.
Proof.
  apply (at_most_two_jobs ascii_only sample_cfg sample_env sample_body
           sample_categories []
           (Server.mkItem (Js.Str "Tea") (Js.Num 1) (Js.Str "Drinks")
              Js.Undefined)).
  left. reflexivity.
Defined.

(** C6: once the order is saved and the categories are read, the handler
    returns and answers 200 with the order identifier, once, whatever the
    two printers and the time-stamp updates do; the order is saved first,
    before any print call, and nothing later in the run saves or removes
    an order; the print calls are those of the non-empty groups, so the
    XPRINTER call is made whenever its group has an item, also after a
    failed EPSON print; and a rejected EPSON print is logged by the EPSON
    block's own [catch]. *)
Theorem print_failure_is_isolated
    (encode : codepage -> string -> Buffer.t) (cfg : Server.config)
    (e : Server.env) (b : Server.body)
    (it : Server.item) (its : list Server.item) :
  Server.items b = Some (map Some (it :: its)) ->
  Server.save_error e = None ->
  Server.find_error e = None ->
  let cats := Server.Category_find_active (Server.db_categories e) in
  let oid := Server.make_orderId e in
  let o := Server.new_order oid b (it :: its) in
  let run := Server.orderHandler encode cfg e b in
  snd run = Server.Ok tt
  /\ Server.responses (Server.trace run) = [(200, Server.JsonOk oid)]
  /\ (exists rest,
        Server.trace run = Server.OrderSave o :: rest
        /\ (forall o', ~ In (Server.OrderSave o') rest)
        /\ last (Server.trace run) Server.CategoryFind
           = Server.Respond 200 (Server.JsonOk oid))
  /\ Server.print_calls (Server.trace run)
     = group_call b oid Server.EPSON (group cats Server.EPSON (it :: its))
         ++ group_call b oid Server.XPRINTER
              (group cats Server.XPRINTER (it :: its))
  /\ (forall y ys,
        group cats Server.XPRINTER (it :: its) = y :: ys ->
        In (Server.XPRINTER,
            (Server.order_title oid,
             Server.makeLines (Server.table b) (Server.note b) (y :: ys)))
          (Server.print_calls (Server.trace run)))
  /\ (forall x xs message,
        group cats Server.EPSON (it :: its) = x :: xs ->
        Net.await
          (EscposPrinter.call (Server.EPSON_PORT cfg)
             (Server.payload_of encode cfg Server.EPSON
                (Server.order_title oid)
                (Server.makeLines (Server.table b) (Server.note b)
                   (x :: xs)))
             (Server.epson_net e))
        = Some (Net.Rejected message) ->
        In (Server.ConsoleError "Print EPSON error:" message)
          (Server.trace run)).
Proof.
  intros Hit Hsave Hfind cats oid o run.
  pose proof (handler_print_calls encode cfg e b) as Hcalls.
  rewrite (item_objects_Some b _ Hit), Hsave, Hfind in Hcalls.
  cbv zeta in Hcalls.
  pose proof (handler_saved_path encode cfg e b it its Hit Hsave Hfind)
    as Hpath.
  cbv zeta in Hpath. fold oid o cats in Hpath. fold run in Hpath, Hcalls.
  destruct (byPrinter_groups cats (it :: its)) as [HE HX].
  rewrite HE, HX in Hpath.
  destruct (print_group_returns encode cfg e b oid Server.EPSON
              (group cats Server.EPSON (it :: its)))
    as [_ [_ [R1 S1]]].
  destruct (print_group_returns encode cfg e b oid Server.XPRINTER
              (group cats Server.XPRINTER (it :: its)))
    as [_ [_ [R2 S2]]].
  set (T1 := Server.trace
                (Server.print_group encode cfg e b oid Server.EPSON
                   (group cats Server.EPSON (it :: its)))) in *.
  set (T2 := Server.trace
                (Server.print_group encode cfg e b oid Server.XPRINTER
                   (group cats Server.XPRINTER (it :: its)))) in *.
  assert (Htr : Server.trace run
                = [Server.OrderSave o; Server.Emit "new-order" o;
                   Server.CategoryFind]
                    ++ T1 ++ T2 ++ [Server.Respond 200 (Server.JsonOk oid)])
    by (rewrite Hpath; reflexivity).
  assert (Hok : snd run = Server.Ok tt) by (rewrite Hpath; reflexivity).
  rewrite Htr in *.
  split; [exact Hok|]. split; [|split; [|split; [|split]]].
  - rewrite !responses_app, R1, R2. reflexivity.
  - eexists. split; [reflexivity|]. split.
    + intros o' Hin. simpl in Hin.
      destruct Hin as [Hin|[Hin|Hin]]; try discriminate.
      rewrite !in_app_iff in Hin.
      destruct Hin as [Hin|[Hin|[Hin|[]]]]; try discriminate.
      * exact (S1 o' Hin).
      * exact (S2 o' Hin).
    + rewrite !app_assoc. apply last_last.
  - exact Hcalls.
  - intros y ys Hg. rewrite Hcalls. apply in_or_app. right.
    unfold cats in Hg. rewrite Hg. left. reflexivity.
  - intros x xs message Hg Hrej. unfold T1. rewrite Hg.
    rewrite (print_group_rejected encode cfg e b oid x xs message Hrej).
    simpl. do 4 right. left. reflexivity.
Qed.

Lemma print_failure_is_isolated_witness :
  Server.responses
    (Server.trace
       (Server.orderHandler ascii_only sample_cfg sample_env sample_body))
  = [(200, Server.JsonOk (Server.make_orderId sample_env))].
Proof.
  pose proof (print_failure_is_isolated ascii_only sample_cfg sample_env
                sample_body pork [squid] eq_refl eq_refl eq_refl) as H.
  cbv zeta in H. destruct H as [_ [H _]]. exact H.
Defined.

(** C7 as stated does not hold: a quantity of -2 is printed, and stored,
    as -2. *)
Lemma negative_quantity_is_kept :
  Server.item_line refund = "x-2  Pork Slice"
  /\ receipt_qty refund = Js.Num (-2)
  /\ map Server.qty
       (Server.order_items
          (Server.new_order "123456" sample_body [refund]))
     = [Js.Num (-2)]
  /\ ~ (1 <= -2).
Proof. repeat split; try reflexivity. lia. Qed.

(** C7, as the code has it: the receipt line and the stored order carry
    [qty || 1]. A quantity that is missing, null or zero becomes 1; any
    other number is used unchanged; so the quantity is an integer of at
    least 1 whenever the source quantity is missing, zero or positive. *)
Theorem quantity_defaults_to_one (x : Server.item) :
  Server.item_line x
  = ("x" ++ Js.to_string (receipt_qty x) ++ "  "
       ++ Js.to_string (Server.name x))%string
  /\ (forall (oid : string) (b : Server.body) (its : list Server.item),
        map Server.qty (Server.order_items (Server.new_order oid b its))
        = map receipt_qty its)
  /\ (Server.qty x = Js.Undefined \/ Server.qty x = Js.Null
      \/ Server.qty x = Js.Num 0 -> receipt_qty x = Js.Num 1)
  /\ (forall n, Server.qty x = Js.Num n -> n <> 0 -> receipt_qty x = Js.Num n)
  /\ (forall n, Server.qty x = Js.Num n -> 0 <= n ->
        exists m, receipt_qty x = Js.Num m /\ 1 <= m).
Proof.
  unfold receipt_qty, Js.or.
  split; [reflexivity|]. split; [|split; [|split]].
  - intros oid b its. unfold Server.new_order. simpl.
    rewrite map_map. reflexivity.
  - intros [-> | [-> | ->]]; reflexivity.
  - intros n -> Hn. simpl.
    destruct (Z.eqb_spec n 0); [contradiction|reflexivity].
  - intros n -> Hn. simpl.
    destruct (Z.eqb_spec n 0) as [->|Hne]; simpl.
    + exists 1. split; [reflexivity|lia].
    + exists n. split; [reflexivity|lia].
Qed.

Lemma quantity_defaults_to_one_witness :
  receipt_qty (Server.mkItem (Js.Str "Squid") (Js.Num 0) Js.Undefined
                 Js.Undefined)
  = Js.Num 1
  /\ exists m, receipt_qty pork = Js.Num m /\ 1 <= m.
Proof.
  split.
  - destruct (quantity_defaults_to_one
                (Server.mkItem (Js.Str "Squid") (Js.Num 0) Js.Undefined
                   Js.Undefined)) as [_ [_ [Hzero _]]].
    apply Hzero. right. right. reflexivity.
  - destruct (quantity_defaults_to_one pork) as [_ [_ [_ [_ Hpos]]]].
    apply (Hpos 2); [reflexivity|lia].
Defined.

(** The lines of a receipt that are not the note: none of them starts
    with the note's label. *)
Lemma table_line_is_no_note (table : Js.value) :
  String.prefix Server.note_prefix (Server.table_line table) = false.
Proof. reflexivity. Qed.

Lemma item_line_is_no_note (x : Server.item) :
  String.prefix Server.note_prefix (Server.item_line x) = false.
Proof. reflexivity. Qed.

(** C8: in every print call of every run, a note that is there (a
    non-empty string, or any other truthy value) is the last line of the
    receipt, after the label; and when the note is absent (missing, null
    or the empty string) the receipt is the table line and the item lines
    only, and no line starts with the note's label. *)
Theorem note_is_on_every_receipt
    (encode : codepage -> string -> Buffer.t) (cfg : Server.config)
    (e : Server.env) (b : Server.body)
    (t : Server.target) (title : string) (lines : list string) :
  In (t, (title, lines))
    (Server.print_calls (Server.trace (Server.orderHandler encode cfg e b)))
  ->
  (forall s, Server.note b = Js.Str s -> s <> "" ->
     exists front, lines = front ++ [(Server.note_prefix ++ s)%string])
  /\ (Js.truthy (Server.note b) = true ->
      exists front, lines = front ++ [Server.note_line (Server.note b)])
  /\ (Server.note b = Js.Undefined \/ Server.note b = Js.Null
      \/ Server.note b = Js.Str "" ->
      forall l, In l lines -> String.prefix Server.note_prefix l = false).
Proof.
  intros Hin. rewrite handler_print_calls in Hin.
  assert (Hlines : exists g,
             lines = Server.makeLines (Server.table b) (Server.note b) g).
  { destruct (Server.item_objects b) as [its|]; [|destruct Hin].
    destruct (Server.save_error e); [destruct Hin|].
    destruct (Server.find_error e); [destruct Hin|].
    cbv zeta in Hin. apply in_app_or in Hin. unfold group_call in Hin.
    destruct Hin as [Hin|Hin];
      match type of Hin with
      | In _ (match ?g with _ => _ end) =>
          destruct g as [|x xs] eqn:Hg; [destruct Hin|];
          destruct Hin as [Heq|[]]; inversion Heq; subst;
          eexists; reflexivity
      end. }
  destruct Hlines as [g ->]. unfold Server.makeLines.
  assert (Htruthy : Js.truthy (Server.note b) = true ->
            exists front,
              [Server.table_line (Server.table b)]
                ++ map Server.item_line g
                ++ (if Js.truthy (Server.note b)
                    then [Server.note_line (Server.note b)] else [])
              = front ++ [Server.note_line (Server.note b)]).
  { intros ->.
    exists ([Server.table_line (Server.table b)] ++ map Server.item_line g).
    now rewrite <- app_assoc. }
  split; [|split].
  - intros s Hs Hne. rewrite Hs in Htruthy |- *.
    apply Htruthy. simpl.
    destruct (String.eqb_spec s ""); [contradiction|reflexivity].
  - exact Htruthy.
  - intros Habs l Hl.
    assert (Hf : Js.truthy (Server.note b) = false)
      by (destruct Habs as [-> | [-> | ->]]; reflexivity).
    rewrite Hf, app_nil_r in Hl. simpl in Hl.
    destruct Hl as [<- | Hl]; [apply table_line_is_no_note|].
    apply in_map_iff in Hl. destruct Hl as [x [<- _]].
    apply item_line_is_no_note.
Qed.

Lemma note_is_on_every_receipt_witness :
  exists front,
    [Server.table_line (Js.Str "5"); "x1  Squid";
     Server.note_line (Js.Str "no spice")]
    = front ++ [(Server.note_prefix ++ "no spice")%string].
Proof.
  destruct (note_is_on_every_receipt ascii_only sample_cfg sample_env
              sample_body Server.XPRINTER "ORDER #123456"
              [Server.table_line (Js.Str "5"); "x1  Squid";
               Server.note_line (Js.Str "no spice")]) as [Hnote _].
  - right. left. reflexivity.
  - apply (Hnote "no spice"); [reflexivity|discriminate].
Defined.

(** C9: two runs of the handler on the same request, with the same order
    identifier and the same categories, and the same answers of the
    database on saving and reading, send the same bytes to each printer,
    whatever else differs between them: the rest of the clock, the
    networks of the two printers, the fate of the time-stamp updates. The
    title of every call is the order identifier after [ORDER #]. *)
Theorem payloads_depend_on_inputs_only
    (encode : codepage -> string -> Buffer.t) (cfg : Server.config)
    (e1 e2 : Server.env) (b : Server.body) :
  Server.make_orderId e1 = Server.make_orderId e2 ->
  Server.Category_find_active (Server.db_categories e1)
  = Server.Category_find_active (Server.db_categories e2) ->
  Server.save_error e1 = Server.save_error e2 ->
  Server.find_error e1 = Server.find_error e2 ->
  payloads encode cfg (Server.trace (Server.orderHandler encode cfg e1 b))
  = payloads encode cfg (Server.trace (Server.orderHandler encode cfg e2 b))
  /\ forall c,
       In c (Server.print_calls
               (Server.trace (Server.orderHandler encode cfg e1 b))) ->
       fst (snd c) = ("ORDER #" ++ Server.make_orderId e1)%string.
Proof.
  intros Hid Hcats Hsave Hfind. split.
  - unfold payloads. rewrite !handler_print_calls.
    rewrite Hid, Hcats, Hsave, Hfind. reflexivity.
  - intros c Hin. rewrite handler_print_calls in Hin.
    destruct (Server.item_objects b) as [its|]; [|destruct Hin].
    destruct (Server.save_error e1); [destruct Hin|].
    destruct (Server.find_error e1); [destruct Hin|].
    cbv zeta in Hin. apply in_app_or in Hin. unfold group_call in Hin.
    destruct Hin as [Hin|Hin];
      match type of Hin with
      | In _ (match ?g with _ => _ end) =>
          destruct g as [|x xs]; [destruct Hin|];
          destruct Hin as [Heq|[]]; subst c; reflexivity
      end.
Qed.

Lemma payloads_depend_on_inputs_only_witness :
  payloads ascii_only sample_cfg
    (Server.trace
       (Server.orderHandler ascii_only sample_cfg sample_env sample_body))
  = payloads ascii_only sample_cfg
      (Server.trace
         (Server.orderHandler ascii_only sample_cfg sample_env_later
            sample_body)).
Proof.
  apply (payloads_depend_on_inputs_only ascii_only sample_cfg sample_env
           sample_env_later sample_body); reflexivity.
Defined.

(* ===================================================================== *)
(** * More on the transport                                                *)
(* ===================================================================== *)

(** X1: a resolved call of [services/escposPrinter.js] has done its work:
    the socket connected, [socket.write] was given the call's payload, the
    write callback ran 200 ms before the resolution, the socket was ended
    at the resolution and was never destroyed. *)
Theorem resolved_means_written (payload : Buffer.t)
    (evs : list (Z * Net.event)) (t : Z) :
  let s := Net.session (EscposPrinter.transport payload)
             EscposPrinter.start evs in
  Net.settled s = Some (Net.Resolved, t) ->
  Net.connected s = true
  /\ Net.written s = Some payload
  /\ Net.flushed_at s = Some (t - 200)
  /\ Net.ended_at s = Some t
  /\ Net.destroyed_at s = None.
Proof.
  cbv zeta. intros Hres.
  destruct (escpos_phase_session payload evs) as [Hp _].
  destruct Hp; cbn in Hres |- *; try discriminate;
    open_hyps; try discriminate; use_foralls; open_hyps;
    repeat split; first [reflexivity | f_equal; lia].
Qed.

Lemma resolved_means_written_witness :
  Net.written
    (Net.session (EscposPrinter.transport [x41; x42]) EscposPrinter.start
       [(5, Net.Connected); (7, Net.Flushed)])
  = Some [x41; x42].
Proof.
  apply (resolved_means_written [x41; x42]
           [(5, Net.Connected); (7, Net.Flushed)] 207).
  reflexivity.
Defined.

(** The messages a call can be rejected with: the timeout error, or one
    that the network reported. *)
Lemma rejection_run (payload : Buffer.t) (M : string -> Prop)
    (evs : list (Z * Net.event)) :
  Forall (fun te => match snd te with
                    | Net.Failed m | Net.WriteFailed m => M m
                    | _ => True
                    end) evs ->
  forall message t,
    Net.settled
      (Net.session (EscposPrinter.transport payload) EscposPrinter.start evs)
    = Some (Net.Rejected message, t) ->
    message = "Printer timeout" \/ M message.
Proof.
  intros Hall. unfold Net.session.
  apply (drain_keeps (EscposPrinter.transport payload)
           (escpos_fire_rank payload)
           (fun s => forall message t,
              Net.settled s = Some (Net.Rejected message, t) ->
              message = "Printer timeout" \/ M message)).
  - clear. intros s w d Hs _.
    destruct s as [n tm hd to i wi c wr p f en ds er st].
    cbn in Hs.
    destruct w; socket_unfold; split_matches; intros m ts Hst;
      inversion Hst; subst; eauto.
  - apply run_keeps
      with (Q := fun e => match e with
                          | Net.Failed m | Net.WriteFailed m => M m
                          | _ => True
                          end).
    + apply escpos_fire_now.
    + apply escpos_fire_rank.
    + clear. intros s w d Hs _.
      destruct s as [n tm hd to i wi c wr p f en ds er st].
      cbn in Hs.
      destruct w; socket_unfold; split_matches; intros m ts Hst;
        inversion Hst; subst; eauto.
    + clear. intros s t Hs _ _. exact Hs.
    + clear. intros e s He Hs _.
      destruct s as [n tm hd to i wi c wr p f en ds er st].
      cbn in Hs.
      destruct e; socket_unfold; split_matches; intros m ts Hst;
        inversion Hst; subst; eauto.
    + exact Hall.
    + intros message t Hst. discriminate Hst.
Qed.

(** X2: a rejected call of [services/escposPrinter.js] carries the
    timeout error, or the message of an error the socket reported during
    the call, or the error that [socket.connect] threw for a port that is
    no integer from 0 to 65535; that last rejection is immediate. *)
Theorem rejection_is_timeout_or_socket_error (port : Z)
    (payload : Buffer.t) (evs : list (Z * Net.event)) (message : string)
    (t : Z) :
  Net.settled (EscposPrinter.call port payload evs)
  = Some (Net.Rejected message, t) ->
  message = "Printer timeout"
  \/ (exists te, In (te, Net.Failed message) evs
                 \/ In (te, Net.WriteFailed message) evs)
  \/ (Net.legal_port port = false /\ message = Net.bad_port port /\ t = 0).
Proof.
  unfold EscposPrinter.call.
  destruct (Net.legal_port port) eqn:Hport; intros Hrej.
  - destruct (rejection_run payload
                (fun m => exists te, In (te, Net.Failed m) evs
                                     \/ In (te, Net.WriteFailed m) evs)
                evs) with (message := message) (t := t) as [H|H].
    + apply Forall_forall. intros [te e] Hin.
      destruct e; cbn; try exact I; exists te; auto.
    + exact Hrej.
    + left. exact H.
    + right. left. exact H.
  - rewrite (escpos_settled_stable payload
               (Net.Rejected (Net.bad_port port), 0)) in Hrej
      by reflexivity.
    inversion Hrej; subst. right. right. auto.
Qed.

Lemma rejection_is_timeout_or_socket_error_witness :
  Net.bad_port 70000 = "Printer timeout"
  \/ (exists te, In (te, Net.Failed (Net.bad_port 70000)) [(3, Net.Connected)]
                 \/ In (te, Net.WriteFailed (Net.bad_port 70000))
                      [(3, Net.Connected)])
  \/ (Net.legal_port 70000 = false
      /\ Net.bad_port 70000 = Net.bad_port 70000 /\ 0 = 0).
Proof.
  apply (rejection_is_timeout_or_socket_error 70000 [x41]
           [(3, Net.Connected)] (Net.bad_port 70000) 0).
  reflexivity.
Defined.




(** X5: the second copy of the service: every call settles, no later than
    4000 ms after it started, whatever the port is and whatever the
    network does; and a call resolves at the very moment of its write
    callback, with the payload handed to the socket and the socket ended
    at that moment. *)
Theorem legacy_call_settles_by_4000 (port : Z) (payload : Buffer.t)
    (evs : list (Z * Net.event)) :
  let s := LegacyPrinter.call port payload evs in
  exists o t,
    Net.settled s = Some (o, t) /\ t <= 4000
    /\ (o = Net.Resolved ->
        Net.written s = Some payload
        /\ Net.flushed_at s = Some t /\ Net.ended_at s = Some t
        /\ Net.destroyed_at s = None).
Proof.
  cbv zeta. unfold LegacyPrinter.call.
  destruct (Net.legal_port port).
  - destruct (legacy_phase_session payload evs) as [Hp [Ht _]].
    destruct Hp; cbn in Ht |- *; try discriminate;
      eexists; eexists; (split; [reflexivity|]); (split; [assumption|]);
      intros Ho; try discriminate Ho; use_foralls; open_hyps;
      repeat split; reflexivity.
  - exists (Net.Rejected (Net.bad_port port)), 0.
    split; [|split; [lia|discriminate]].
    apply legacy_settled_stable. reflexivity.
Qed.

(** A call of the second copy through a legal port is a session of the
    socket from the moment [socket.connect] returned. *)
Example legacy_call_on_port_9100 :
  LegacyPrinter.call 9100 [x41] [(5, Net.Connected); (7, Net.Flushed)]
  = Net.session (LegacyPrinter.transport [x41]) LegacyPrinter.start
      [(5, Net.Connected); (7, Net.Flushed)].
Proof. reflexivity. Qed.

(** A write that stalls after the connection was accepted at 1000 ms:
    when nothing of it leaves the queue the idle timer rejects the call
    at 11000 ms and the socket stays open; when part of it has left the
    queue the idle timer is put off, and the deadline aborts the call at
    12000 ms. *)
Example stalled_write :
  let quiet := Net.session (EscposPrinter.transport [x41])
                 EscposPrinter.start [(1000, Net.Connected)] in
  let moving := Net.session (EscposPrinter.transport [x41])
                  EscposPrinter.start
                  [(1000, Net.Connected); (1500, Net.Progress)] in
  Net.settled quiet = Some (Net.Rejected "Printer timeout", 11000)
  /\ Net.destroyed_at quiet = None
  /\ Net.settled moving = Some (Net.Rejected "Printer timeout", 12000)
  /\ Net.destroyed_at moving = Some 12000
  /\ Net.ended_at moving = Some 12200.
Proof. repeat split; reflexivity. Qed.

(** X4: the idle timeout is not final in [services/escposPrinter.js]. A
    printer that accepts the connection only after 10000 ms finds the
    promise rejected, by the 'timeout' listener at 10000 ms, and the
    socket open: the payload is still written, and when the write is
    done the socket is ended 200 ms later, under a promise that stays
    rejected. *)
Theorem idle_timeout_still_prints (payload : Buffer.t) (t2 t3 : Z) :
  10000 <= t2 -> t2 <= t3 ->
  let s := Net.session (EscposPrinter.transport payload) EscposPrinter.start
             [(t2, Net.Connected); (t3, Net.Flushed)] in
  Net.settled s = Some (Net.Rejected "Printer timeout", 10000)
  /\ Net.written s = Some payload
  /\ Net.flushed_at s = Some t3
  /\ Net.ended_at s = Some (t3 + 200)
  /\ Net.destroyed_at s = None.
Proof.
  intros H2 H3. cbv zeta.
  set (cb := EscposPrinter.transport payload).
  unfold Net.session. cbn [Net.run].
  (* the idle timer fires on the way to the connection *)
  assert (S1 : Net.advance cb t2 EscposPrinter.start
               = Net.mkSocket t2 None None (Some 10000) None true
                   false None false None None None false
                   (Some (Net.Rejected "Printer timeout", 10000))).
  { unfold Net.advance, Net.rounds.
    replace (Z.max t2 (Net.now EscposPrinter.start)) with t2
      by (cbn; lia).
    rewrite (fire_due_fire _ cb t2 _ Net.Idle 10000);
      [|reflexivity|exact H2].
    rewrite fire_due_none by reflexivity.
    unfold cb. socket_unfold. cbn. settle_max. reflexivity. }
  rewrite S1. clear S1.
  (* the connection is accepted and the payload written *)
  assert (S2 : Net.deliver cb Net.Connected
                 (Net.mkSocket t2 None None (Some 10000) None true
                    false None false None None None false
                    (Some (Net.Rejected "Printer timeout", 10000)))
               = Net.mkSocket t2 None None (Some 10000)
                   (Some (t2 + 10000)) true
                   true (Some payload) false None None None false
                   (Some (Net.Rejected "Printer timeout", 10000)))
    by reflexivity.
  rewrite S2. clear S2.
  (* the clock moves to the end of the write *)
  assert (S3 : exists i,
             Net.advance cb t3
               (Net.mkSocket t2 None None (Some 10000)
                  (Some (t2 + 10000)) true
                  true (Some payload) false None None None false
                  (Some (Net.Rejected "Printer timeout", 10000)))
             = Net.mkSocket t3 None None (Some 10000) i true
                 true (Some payload) false None None None false
                 (Some (Net.Rejected "Printer timeout", 10000))).
  { unfold Net.advance, Net.rounds. cbn [Net.now].
    replace (Z.max t3 t2) with t3 by lia.
    destruct (Z.le_gt_cases (t2 + 10000) t3) as [Hle|Hgt].
    - exists None.
      rewrite (fire_due_fire _ cb t3 _ Net.Idle (t2 + 10000));
        [|reflexivity|exact Hle].
      rewrite fire_due_none by reflexivity.
      unfold cb. socket_unfold. settle_max. reflexivity.
    - exists (Some (t2 + 10000)).
      rewrite (fire_due_later _ cb t3 _ Net.Idle (t2 + 10000));
        [|reflexivity|lia].
      socket_unfold. settle_max. reflexivity. }
  destruct S3 as [i S3]. rewrite S3. clear S3.
  (* the write callback arms the delayed close *)
  assert (S4 : Net.deliver cb Net.Flushed
                 (Net.mkSocket t3 None None (Some 10000) i true
                    true (Some payload) false None None None false
                    (Some (Net.Rejected "Printer timeout", 10000)))
               = Net.mkSocket t3 None (Some (t3 + 200)) (Some 10000)
                   (Some (t3 + 10000)) true
                   true (Some payload) false (Some t3) None None false
                   (Some (Net.Rejected "Printer timeout", 10000)))
    by reflexivity.
  rewrite S4. clear S4.
  (* the delayed close fires, then the idle timer *)
  unfold Net.drain, Net.rounds.
  rewrite (run_out_fire _ cb _ Net.Hold (t3 + 200)).
  2:{ socket_unfold.
      destruct (Z.leb_spec (t3 + 200) (t3 + 10000)); [reflexivity|lia]. }
  assert (S5 : Net.fire cb Net.Hold (t3 + 200)
                 (Net.mkSocket t3 None (Some (t3 + 200)) (Some 10000)
                    (Some (t3 + 10000)) true
                    true (Some payload) false (Some t3) None None false
                    (Some (Net.Rejected "Printer timeout", 10000)))
               = Net.mkSocket (t3 + 200) None None (Some 10000)
                   (Some (t3 + 10000)) true
                   true (Some payload) false (Some t3) (Some (t3 + 200)) None
                   false (Some (Net.Rejected "Printer timeout", 10000))).
  { unfold cb. socket_unfold. settle_max. reflexivity. }
  rewrite S5. clear S5.
  rewrite (run_out_fire _ cb _ Net.Idle (t3 + 10000)) by reflexivity.
  rewrite run_out_none by reflexivity.
  unfold cb. socket_unfold. repeat split; reflexivity.
Qed.

Lemma idle_timeout_still_prints_witness :
  Net.written
    (Net.session (EscposPrinter.transport [x41]) EscposPrinter.start
       [(10500, Net.Connected); (10510, Net.Flushed)])
  = Some [x41].
Proof.
  apply (idle_timeout_still_prints [x41] 10500 10510); lia.
Defined.

Section AsciiFallback.
Variable ascii : string -> Buffer.t.

Lemma ascii_push_loop (lines : list (option string)) (acc : list Buffer.t) :
  fold_left
    (fun acc line =>
       Buffer.push acc (ascii (line_or_empty line ++ Js.nl)%string))
    lines acc
  = acc ++ map (fun line => ascii (line_or_empty line ++ Js.nl)%string) lines.
Proof. apply push_loop. Qed.

End AsciiFallback.

(** X6: the plain-text fallback of the second copy sends text and the cut
    only: the encoded blank line, title and newline (the title
    [SHABU ORDER] when none is given), the 30-dash divider, every line in
    input order, each followed by a newline (an empty line for one that
    is null or undefined), the divider followed by three line feeds in
    one chunk, and the partial cut GS V B 0: no initialisation sequence
    comes before the text and no thank-you line after it. The payload is
    never empty. *)
Theorem ascii_fallback_layout (ascii : string -> Buffer.t)
    (title : option string) (lines : list (option string)) :
  printXprinterAscii_payload ascii title lines
  = plain_layout ascii [x1d; x56; x42; x00]
      (match title with Some s => s | None => "SHABU ORDER" end)
      (map (fun line => match line with Some s => s | None => "" end)
         lines)
  /\ printXprinterAscii_payload ascii title lines <> [].
Proof.
  assert (Heq : printXprinterAscii_payload ascii title lines
                = plain_layout ascii [x1d; x56; x42; x00]
                    (match title with Some s => s | None => "SHABU ORDER" end)
                    (map (fun line =>
                            match line with Some s => s | None => "" end)
                       lines)).
  { unfold printXprinterAscii_payload, printXprinterAscii_parts,
      plain_layout, Buffer.concat.
    rewrite ascii_push_loop. unfold Buffer.push.
    repeat rewrite concat_app. simpl. repeat rewrite app_nil_r.
    repeat rewrite <- app_assoc.
    destruct title as [title|];
      (do 2 f_equal;
       rewrite flat_map_concat_map, map_map; f_equal;
       apply map_ext; intros [line|]; reflexivity). }
  split; [exact Heq|].
  rewrite Heq. unfold plain_layout. intros H.
  apply app_eq_nil in H. destruct H as [_ H].
  apply app_eq_nil in H. destruct H as [_ H].
  apply app_eq_nil in H. destruct H as [_ H].
  apply app_eq_nil in H. destruct H as [_ H]. discriminate H.
Qed.

(** The fallback without a title and with a line that is null, byte by
    byte. *)
Example ascii_fallback_bytes :
  printXprinterAscii_payload (ascii_only TIS620) None [Some "A"; None]
  = [x0a; x53; x48; x41; x42; x55; x20; x4f; x52; x44; x45; x52; x0a]
      ++ repeat x2d 30 ++ [x0a]
      ++ [x41; x0a] ++ [x0a]
      ++ repeat x2d 30 ++ [x0a; x0a; x0a]
      ++ [x1d; x56; x42; x00].
Proof. reflexivity. Qed.

(* ===================================================================== *)
(** * More on the order handler                                            *)
(* ===================================================================== *)

Lemma stamps_app (tr1 tr2 : list Server.effect) :
  stamps (tr1 ++ tr2) = stamps tr1 ++ stamps tr2.
Proof. apply flat_map_app. Qed.

(** What one printer's block leaves in the run: the print call; after a
    resolved print the time-stamp request, and the log of its failure if
    it fails; after a rejected print the log of the rejection. *)
Lemma print_group_trace (encode : codepage -> string -> Buffer.t)
    (cfg : Server.config) (e : Server.env) (b : Server.body)
    (oid : string) (t : Server.target) (x : Server.item)
    (xs : list Server.item) :
  let lines := Server.makeLines (Server.table b) (Server.note b) (x :: xs) in
  let host := match t with Server.EPSON => Server.EPSON_IP cfg
                         | Server.XPRINTER => Server.XPRINTER_IP cfg end in
  let port := match t with Server.EPSON => Server.EPSON_PORT cfg
                         | Server.XPRINTER => Server.XPRINTER_PORT cfg end in
  let net := match t with Server.EPSON => Server.epson_net e
                        | Server.XPRINTER => Server.xprinter_net e end in
  let upd := match t with Server.EPSON => Server.epson_update_error e
                        | Server.XPRINTER => Server.xprinter_update_error e
             end in
  let tag := match t with Server.EPSON => "Print EPSON error:"
                        | Server.XPRINTER => "Print XPRINTER error:" end in
  Server.trace (Server.print_group encode cfg e b oid t (x :: xs))
  = Server.Print t host port (Server.order_title oid) lines
      :: match Net.await
                 (EscposPrinter.call port
                    (Server.payload_of encode cfg t
                       (Server.order_title oid) lines)
                    net) with
         | Some Net.Resolved =>
             Server.OrderSetPrintedAt oid
               :: match upd with
                  | Some message => [Server.ConsoleError tag message]
                  | None => []
                  end
         | Some (Net.Rejected message) => [Server.ConsoleError tag message]
         | None => []
         end.
Proof.
  cbv zeta. unfold Server.print_group, Server.await_print.
  destruct (Net.await _) as [[|message]|]; try reflexivity.
  destruct t.
  - destruct (Server.epson_update_error e); reflexivity.
  - destruct (Server.xprinter_update_error e); reflexivity.
Qed.

Lemma print_group_stamps (encode : codepage -> string -> Buffer.t)
    (cfg : Server.config) (e : Server.env) (b : Server.body)
    (t : Server.target) (its : list Server.item) :
  stamps
    (Server.trace
       (Server.print_group encode cfg e b (Server.make_orderId e) t
          (group (Server.Category_find_active (Server.db_categories e))
             t its)))
  = if print_resolved encode cfg e b t its
    then [Server.make_orderId e] else [].
Proof.
  unfold print_resolved.
  destruct (group _ t its) as [|x xs]; [reflexivity|].
  rewrite print_group_trace. cbv zeta.
  destruct (Net.await _) as [[|message]|]; try reflexivity.
  destruct t; simpl.
  - destruct (Server.epson_update_error e); reflexivity.
  - destruct (Server.xprinter_update_error e); reflexivity.
Qed.

(** The whole run on the path of a saved order, with the two groups
    named. *)
Lemma saved_path_trace (encode : codepage -> string -> Buffer.t)
    (cfg : Server.config) (e : Server.env) (b : Server.body)
    (it : Server.item) (its : list Server.item) :
  Server.items b = Some (map Some (it :: its)) ->
  Server.save_error e = None ->
  Server.find_error e = None ->
  let oid := Server.make_orderId e in
  let o := Server.new_order oid b (it :: its) in
  let cats := Server.Category_find_active (Server.db_categories e) in
  Server.orderHandler encode cfg e b
  = ([Server.OrderSave o; Server.Emit "new-order" o; Server.CategoryFind]
       ++ Server.trace
            (Server.print_group encode cfg e b oid Server.EPSON
               (group cats Server.EPSON (it :: its)))
       ++ Server.trace
            (Server.print_group encode cfg e b oid Server.XPRINTER
               (group cats Server.XPRINTER (it :: its)))
       ++ [Server.Respond 200 (Server.JsonOk oid)],
     Server.Ok tt).
Proof.
  intros Hit Hsave Hfind. cbv zeta.
  rewrite (handler_saved_path encode cfg e b it its Hit Hsave Hfind).
  cbv zeta.
  destruct (byPrinter_groups
              (Server.Category_find_active (Server.db_categories e))
              (it :: its)) as [-> ->].
  reflexivity.
Qed.

(** Whether an array holds a [null]. *)
Lemma objects_None (elements : list (option Server.item)) :
  Server.objects elements = None
  <-> existsb (fun el => match el with None => true | Some _ => false end)
        elements = true.
Proof.
  induction elements as [|[x|] rest IH]; simpl.
  - split; discriminate.
  - rewrite <- IH. destruct (Server.objects rest); split; congruence.
  - split; reflexivity.
Qed.

(** The run for an array with a [null] in it: the handler's [catch]
    alone. *)
Lemma null_item_trace (encode : codepage -> string -> Buffer.t)
    (cfg : Server.config) (e : Server.env) (b : Server.body)
    (el : option Server.item) (els : list (option Server.item)) :
  Server.items b = Some (el :: els) ->
  Server.objects (el :: els) = None ->
  Server.orderHandler encode cfg e b
  = ([Server.ConsoleError "Order creation error:"
        "Cannot read properties of null (reading 'name')";
      Server.Respond 500
        (Server.JsonError
           "Cannot read properties of null (reading 'name')")],
     Server.Ok tt).
Proof.
  intros Hit Hobj. unfold Server.orderHandler.
  rewrite Hit. cbv beta iota. rewrite Hobj. reflexivity.
Qed.

(** The answers of a run, path by path. *)
Lemma handler_responses (encode : codepage -> string -> Buffer.t)
    (cfg : Server.config) (e : Server.env) (b : Server.body) :
  snd (Server.orderHandler encode cfg e b) = Server.Ok tt
  /\ Server.responses (Server.trace (Server.orderHandler encode cfg e b))
     = match Server.items b with
       | None | Some [] =>
           [(400, Server.JsonError "ต้องมีรายการอาหารอย่างน้อย 1 รายการ")]
       | Some (el :: els) =>
           if existsb (fun el => match el with
                                 | None => true
                                 | Some _ => false
                                 end) (el :: els)
           then [(500, Server.JsonError
                         "Cannot read properties of null (reading 'name')")]
           else
             match Server.save_error e, Server.find_error e with
             | Some message, _ => [(500, Server.JsonError message)]
             | None, Some message => [(500, Server.JsonError message)]
             | None, None => [(200, Server.JsonOk (Server.make_orderId e))]
             end
       end.
Proof.
  destruct (Server.items b) as [[|el els]|] eqn:Hit.
  - unfold Server.orderHandler. rewrite Hit. split; reflexivity.
  - destruct (Server.objects (el :: els)) as [its|] eqn:Hobj.
    + assert (Hnull : existsb (fun el => match el with
                                        | None => true
                                        | Some _ => false
                                        end) (el :: els) = false).
      { destruct (existsb _ (el :: els)) eqn:Hex; [|reflexivity].
        apply objects_None in Hex. congruence. }
      rewrite Hnull.
      apply objects_Some in Hobj.
      destruct its as [|it its]; [discriminate|].
      rewrite Hobj in Hit.
      destruct (Server.save_error e) as [m|] eqn:Hsave.
      { unfold Server.orderHandler.
        rewrite Hit, objects_map_Some. cbn [map].
        cbv zeta. rewrite Hsave. split; reflexivity. }
      destruct (Server.find_error e) as [m|] eqn:Hfind.
      { unfold Server.orderHandler.
        rewrite Hit, objects_map_Some. cbn [map].
        cbv zeta. rewrite Hsave, Hfind. split; reflexivity. }
      rewrite (saved_path_trace encode cfg e b it its Hit Hsave Hfind).
      cbv zeta. split; [reflexivity|].
      unfold Server.trace at 1. cbn [fst].
      rewrite !responses_app.
      destruct (print_group_returns encode cfg e b (Server.make_orderId e)
                  Server.EPSON
                  (group
                     (Server.Category_find_active (Server.db_categories e))
                     Server.EPSON (it :: its))) as [_ [_ [R1 _]]].
      destruct (print_group_returns encode cfg e b (Server.make_orderId e)
                  Server.XPRINTER
                  (group
                     (Server.Category_find_active (Server.db_categories e))
                     Server.XPRINTER (it :: its))) as [_ [_ [R2 _]]].
      rewrite R1, R2. reflexivity.
    + pose proof Hobj as Hex. apply objects_None in Hex. rewrite Hex.
      rewrite (null_item_trace encode cfg e b el els Hit Hobj).
      split; reflexivity.
  - unfold Server.orderHandler. rewrite Hit. split; reflexivity.
Qed.

(** X7: every run of the order handler returns and answers exactly once: 400
    when the request has no item list or an empty one; 500 with the
    TypeError's message when an element of the list is [null], and then
    the run is the log and the answer alone, nothing saved, announced or
    printed; for a list of objects, 500 with the error's message when
    saving the order or reading the categories fails, and 200 with the
    order identifier otherwise, whatever the printers do. *)
Theorem handler_answers_once (encode : codepage -> string -> Buffer.t)
    (cfg : Server.config) (e : Server.env) (b : Server.body) :
  snd (Server.orderHandler encode cfg e b) = Server.Ok tt
  /\ Server.responses (Server.trace (Server.orderHandler encode cfg e b))
     = match Server.items b with
       | None | Some [] =>
           [(400, Server.JsonError "ต้องมีรายการอาหารอย่างน้อย 1 รายการ")]
       | Some (el :: els) =>
           if existsb (fun el => match el with
                                 | None => true
                                 | Some _ => false
                                 end) (el :: els)
           then [(500, Server.JsonError
                         "Cannot read properties of null (reading 'name')")]
           else
             match Server.save_error e, Server.find_error e with
             | Some message, _ => [(500, Server.JsonError message)]
             | None, Some message => [(500, Server.JsonError message)]
             | None, None => [(200, Server.JsonOk (Server.make_orderId e))]
             end
       end
  /\ (forall els,
        Server.items b = Some els ->
        els <> [] ->
        In None els ->
        Server.trace (Server.orderHandler encode cfg e b)
        = [Server.ConsoleError "Order creation error:"
             "Cannot read properties of null (reading 'name')";
           Server.Respond 500
             (Server.JsonError
                "Cannot read properties of null (reading 'name')")]).
Proof.
  destruct (handler_responses encode cfg e b) as [Hret Hresp].
  split; [exact Hret|]. split; [exact Hresp|].
  intros els Hit Hne Hin.
  destruct els as [|el els]; [now destruct Hne|].
  assert (Hobj : Server.objects (el :: els) = None).
  { apply objects_None. apply existsb_exists.
    exists None. split; [exact Hin|reflexivity]. }
  now rewrite (null_item_trace encode cfg e b el els Hit Hobj).
Qed.

(** A request whose only item is [null], as [{"items":[null]}] sends
    it. *)
Lemma handler_answers_once_witness :
  Server.trace
    (Server.orderHandler ascii_only sample_cfg sample_env
       (Server.mkBody (Js.Str "5") (Some [None]) Js.Undefined))
  = [Server.ConsoleError "Order creation error:"
       "Cannot read properties of null (reading 'name')";
     Server.Respond 500
       (Server.JsonError
          "Cannot read properties of null (reading 'name')")].
Proof.
  apply (proj2 (proj2 (handler_answers_once ascii_only sample_cfg sample_env
                         (Server.mkBody (Js.Str "5") (Some [None])
                            Js.Undefined)))
           [None]);
    [reflexivity | discriminate | left; reflexivity].
Defined.

(** X8: a 500 answer does not mean that the order was not taken: when the
    order is saved and reading the categories then fails, the run is the
    save, the announcement to the dashboards, the failed read, the log and
    the 500 answer; nothing is printed and the saved order stays. *)
Theorem order_saved_but_answered_500
    (encode : codepage -> string -> Buffer.t) (cfg : Server.config)
    (e : Server.env) (b : Server.body)
    (it : Server.item) (its : list Server.item) (message : string) :
  Server.items b = Some (map Some (it :: its)) ->
  Server.save_error e = None ->
  Server.find_error e = Some message ->
  let o := Server.new_order (Server.make_orderId e) b (it :: its) in
  Server.trace (Server.orderHandler encode cfg e b)
  = [Server.OrderSave o; Server.Emit "new-order" o; Server.CategoryFind;
     Server.ConsoleError "Order creation error:" message;
     Server.Respond 500 (Server.JsonError message)]
  /\ Server.print_calls (Server.trace (Server.orderHandler encode cfg e b))
     = [].
Proof.
  intros Hit Hsave Hfind. cbv zeta.
  unfold Server.orderHandler.
  rewrite Hit, objects_map_Some. cbn [map].
  cbv zeta. rewrite Hsave, Hfind.
  split; reflexivity.
Qed.

Lemma order_saved_but_answered_500_witness :
  Server.print_calls
    (Server.trace
       (Server.orderHandler ascii_only sample_cfg
          (Server.mkEnv 1700000123456 None sample_categories
             (Some "pool destroyed") [] None [] None)
          sample_body))
  = [].
Proof.
  apply (order_saved_but_answered_500 ascii_only sample_cfg
           (Server.mkEnv 1700000123456 None sample_categories
              (Some "pool destroyed") [] None [] None)
           sample_body pork [squid] "pool destroyed"); reflexivity.
Defined.

(** X9: the [printedAt] time stamp is asked for once per printer whose print
    resolved, under the order's identifier, and never otherwise: not for a
    rejected print, not for a printer without items, not on the paths that
    answer 400 or 500. A stamped order therefore had at least one of its
    receipts accepted by a printer, not necessarily both. *)
Theorem printedAt_follows_resolved_prints
    (encode : codepage -> string -> Buffer.t) (cfg : Server.config)
    (e : Server.env) (b : Server.body) :
  stamps (Server.trace (Server.orderHandler encode cfg e b))
  = match Server.item_objects b, Server.save_error e, Server.find_error e
    with
    | Some its, None, None =>
        (if print_resolved encode cfg e b Server.EPSON its
         then [Server.make_orderId e] else [])
          ++ (if print_resolved encode cfg e b Server.XPRINTER its
              then [Server.make_orderId e] else [])
    | _, _, _ => []
    end.
Proof.
  unfold Server.item_objects.
  destruct (Server.items b) as [[|el els]|] eqn:Hit.
  - unfold Server.orderHandler. rewrite Hit.
    destruct (Server.save_error e), (Server.find_error e); reflexivity.
  - destruct (Server.objects (el :: els)) as [[|it its]|] eqn:Hobj.
    + simpl in Hobj. destruct el; [|discriminate].
      destruct (Server.objects els); discriminate.
    + apply objects_Some in Hobj. rewrite Hobj in Hit.
      destruct (Server.save_error e) as [m|] eqn:Hsave.
      { unfold Server.orderHandler.
        rewrite Hit, objects_map_Some. cbn [map].
        cbv zeta. rewrite Hsave. reflexivity. }
      destruct (Server.find_error e) as [m|] eqn:Hfind.
      { unfold Server.orderHandler.
        rewrite Hit, objects_map_Some. cbn [map].
        cbv zeta. rewrite Hsave, Hfind. reflexivity. }
      rewrite (saved_path_trace encode cfg e b it its Hit Hsave Hfind).
      cbv zeta. unfold Server.trace at 1. cbn [fst].
      rewrite !stamps_app, !print_group_stamps. simpl.
      now rewrite app_nil_r.
    + rewrite (null_item_trace encode cfg e b el els Hit Hobj).
      reflexivity.
  - unfold Server.orderHandler. rewrite Hit. reflexivity.
Qed.

(* ===================================================================== *)
(** * The order identifier                                                 *)
(* ===================================================================== *)

Lemma string_length_app (a b : string) :
  String.length (a ++ b)%string = (String.length a + String.length b)%nat.
Proof. induction a as [|c a IH]; simpl; [reflexivity|now rewrite IH]. Qed.

Lemma string_app_assoc (a b c : string) :
  ((a ++ b) ++ c)%string = (a ++ (b ++ c))%string.
Proof. induction a as [|x a IH]; simpl; [reflexivity|now rewrite IH]. Qed.

Lemma substring_all (b : string) : substring 0 (String.length b) b = b.
Proof. induction b as [|c b IH]; simpl; [reflexivity|now rewrite IH]. Qed.

Lemma substring_suffix (a b : string) :
  substring (String.length a) (String.length b) (a ++ b)%string = b.
Proof. induction a as [|c a IH]; simpl; [apply substring_all|exact IH]. Qed.

(** The last [k] characters of a string that ends with a [k]-character
    string are that string. *)
Lemma slice_last_suffix (k : nat) (a b : string) :
  String.length b = k -> Js.slice_last k (a ++ b)%string = b.
Proof.
  intros <-. unfold Js.slice_last. rewrite string_length_app.
  replace (String.length a + String.length b - String.length b)%nat
    with (String.length a) by lia.
  apply substring_suffix.
Qed.

Lemma string_of_revapp (a b : Decimal.uint) :
  NilEmpty.string_of_uint (Decimal.revapp a b)
  = (NilEmpty.string_of_uint (Decimal.rev a)
       ++ NilEmpty.string_of_uint b)%string.
Proof.
  revert b. unfold Decimal.rev.
  induction a as [|a IH|a IH|a IH|a IH|a IH|a IH|a IH|a IH|a IH|a IH];
    intros b; simpl; [reflexivity|..];
    rewrite IH; rewrite (IH (_ Decimal.Nil)); simpl;
    rewrite string_app_assoc; reflexivity.
Qed.

(** A little-endian numeral that is not empty is its lowest digit put
    before the rest; putting it is undone by one step of reversal, and
    prints as the digit's character. *)
Lemma uint_step (r : Decimal.uint) :
  r <> Decimal.Nil ->
  exists c : Decimal.uint -> Decimal.uint,
    r = c (DecimalPos.Unsigned.tl r)
    /\ (forall u acc, Decimal.revapp (c u) acc = Decimal.revapp u (c acc))
    /\ (forall u,
          NilEmpty.string_of_uint (c u)
          = String (digit_char (Z.of_N (DecimalPos.Unsigned.hd r)))
              (NilEmpty.string_of_uint u)).
Proof.
  intros Hr. destruct r; [congruence|..].
  - exists Decimal.D0. repeat split.
  - exists Decimal.D1. repeat split.
  - exists Decimal.D2. repeat split.
  - exists Decimal.D3. repeat split.
  - exists Decimal.D4. repeat split.
  - exists Decimal.D5. repeat split.
  - exists Decimal.D6. repeat split.
  - exists Decimal.D7. repeat split.
  - exists Decimal.D8. repeat split.
  - exists Decimal.D9. repeat split.
Qed.

Lemma hd_lt_10 (r : Decimal.uint) : (DecimalPos.Unsigned.hd r < 10)%N.
Proof. destruct r; simpl; lia. Qed.

Lemma lu_digit (r : Decimal.uint) :
  Z.of_N (DecimalPos.Unsigned.hd r) = Z.of_N (DecimalPos.Unsigned.of_lu r) mod 10
  /\ Z.of_N (DecimalPos.Unsigned.of_lu (DecimalPos.Unsigned.tl r)) = Z.of_N (DecimalPos.Unsigned.of_lu r) / 10.
Proof.
  pose proof (DecimalPos.Unsigned.of_lu_eqn r) as H.
  pose proof (hd_lt_10 r) as Hlt.
  set (h := DecimalPos.Unsigned.hd r) in *. set (q := DecimalPos.Unsigned.of_lu (DecimalPos.Unsigned.tl r)) in *.
  set (a := DecimalPos.Unsigned.of_lu r) in *.
  assert (Ha : Z.of_N a = Z.of_N h + 10 * Z.of_N q) by lia.
  rewrite Ha. split; Z.div_mod_to_equations; lia.
Qed.

Lemma lu_nonnil (r : Decimal.uint) :
  0 < Z.of_N (DecimalPos.Unsigned.of_lu r) -> r <> Decimal.Nil.
Proof. intros H ->. simpl in H. lia. Qed.

(** One digit taken off a little-endian numeral of a positive value. *)
Lemma lu_peel (r : Decimal.uint) (n : Z) :
  Z.of_N (DecimalPos.Unsigned.of_lu r) = n -> 0 < n ->
  exists (c : Decimal.uint -> Decimal.uint) (r' : Decimal.uint),
    r = c r'
    /\ Z.of_N (DecimalPos.Unsigned.of_lu r') = n / 10
    /\ (forall u acc, Decimal.revapp (c u) acc = Decimal.revapp u (c acc))
    /\ (forall u,
          NilEmpty.string_of_uint (c u)
          = String (digit_char (n mod 10)) (NilEmpty.string_of_uint u)).
Proof.
  intros Hn Hpos.
  destruct (uint_step r) as [c [Hc [Hrev Hstr]]].
  { apply lu_nonnil. lia. }
  destruct (lu_digit r) as [Hh Ht]. rewrite Hn in Hh, Ht.
  exists c, (DecimalPos.Unsigned.tl r). repeat split; auto.
  intros u. rewrite Hstr, Hh. reflexivity.
Qed.

Lemma string_of_nonnil (d : Decimal.uint) :
  d <> Decimal.Nil ->
  NilZero.string_of_uint d = NilEmpty.string_of_uint d.
Proof. destruct d; [congruence|reflexivity..]. Qed.

(** The decimal numeral of a number of at least six digits ends with its
    last six digits. *)
Lemma num_to_string_ends (n : Z) :
  100000 <= n ->
  exists front, Js.num_to_string n = (front ++ six_digits n)%string.
Proof.
  intros Hn. destruct n as [|p|p]; try lia.
  unfold Js.num_to_string. simpl Z.to_int.
  unfold NilZero.string_of_int.
  rewrite string_of_nonnil by apply DecimalPos.Unsigned.to_uint_nonnil.
  set (d := Pos.to_uint p).
  assert (Hval : Z.of_N (DecimalPos.Unsigned.of_lu (Decimal.rev d)) = Z.pos p).
  { rewrite <- DecimalPos.Unsigned.of_uint_alt. unfold d.
    rewrite DecimalPos.Unsigned.of_to. reflexivity. }
  assert (Hd : d = Decimal.rev (Decimal.rev d))
    by (symmetry; apply DecimalFacts.rev_rev).
  set (n := Z.pos p) in *.
  assert (P1 : 0 < n / 10) by (Z.div_mod_to_equations; lia).
  assert (P2 : 0 < n / 10 / 10) by (Z.div_mod_to_equations; lia).
  assert (P3 : 0 < n / 10 / 10 / 10) by (Z.div_mod_to_equations; lia).
  assert (P4 : 0 < n / 10 / 10 / 10 / 10)
    by (Z.div_mod_to_equations; lia).
  assert (P5 : 0 < n / 10 / 10 / 10 / 10 / 10)
    by (Z.div_mod_to_equations; lia).
  destruct (lu_peel _ _ Hval) as [c0 [r1 [E0 [V1 [R0 S0]]]]]; [lia|].
  destruct (lu_peel _ _ V1 P1) as [c1 [r2 [E1 [V2 [R1 S1]]]]].
  destruct (lu_peel _ _ V2 P2) as [c2 [r3 [E2 [V3 [R2 S2]]]]].
  destruct (lu_peel _ _ V3 P3) as [c3 [r4 [E3 [V4 [R3 S3]]]]].
  destruct (lu_peel _ _ V4 P4) as [c4 [r5 [E4 [V5 [R4 S4]]]]].
  destruct (lu_peel _ _ V5 P5) as [c5 [r6 [E5 [V6 [R5 S5]]]]].
  exists (NilEmpty.string_of_uint (Decimal.rev r6)).
  rewrite Hd, E0, E1, E2, E3, E4, E5.
  unfold Decimal.rev at 1.
  rewrite R0, R1, R2, R3, R4, R5, string_of_revapp.
  f_equal. rewrite S5, S4, S3, S2, S1, S0. simpl.
  unfold six_digits.
  repeat rewrite Z.div_div by lia. reflexivity.
Qed.

(** For a clock of at least six digits the order identifier is the
    clock's last six decimal digits. *)
Lemma orderId_digits (e : Server.env) :
  100000 <= Server.clock e ->
  Server.make_orderId e = six_digits (Server.clock e).
Proof.
  intros H. unfold Server.make_orderId.
  destruct (num_to_string_ends _ H) as [front ->].
  apply slice_last_suffix. reflexivity.
Qed.

Lemma six_digits_period (m k : Z) :
  six_digits (m + 1000000 * k) = six_digits m.
Proof.
  unfold six_digits.
  replace ((m + 1000000 * k) / 100000 mod 10) with (m / 100000 mod 10)
    by (Z.div_mod_to_equations; lia).
  replace ((m + 1000000 * k) / 10000 mod 10) with (m / 10000 mod 10)
    by (Z.div_mod_to_equations; lia).
  replace ((m + 1000000 * k) / 1000 mod 10) with (m / 1000 mod 10)
    by (Z.div_mod_to_equations; lia).
  replace ((m + 1000000 * k) / 100 mod 10) with (m / 100 mod 10)
    by (Z.div_mod_to_equations; lia).
  replace ((m + 1000000 * k) / 10 mod 10) with (m / 10 mod 10)
    by (Z.div_mod_to_equations; lia).
  replace ((m + 1000000 * k) mod 10) with (m mod 10)
    by (Z.div_mod_to_equations; lia).
  reflexivity.
Qed.

(** X10: the order identifier of a clock of at least six digits has exactly
    six characters: the clock's last six decimal digits, leading zeros kept.
    *)
Theorem orderId_is_six_digits (e : Server.env) :
  100000 <= Server.clock e ->
  Server.make_orderId e = six_digits (Server.clock e mod 1000000)
  /\ String.length (Server.make_orderId e) = 6%nat.
Proof.
  intros H. rewrite (orderId_digits e H). split; [|reflexivity].
  rewrite (Z.div_mod (Server.clock e) 1000000) at 1 by lia.
  rewrite Z.add_comm. apply six_digits_period.
Qed.

Lemma orderId_is_six_digits_witness :
  Server.make_orderId sample_env = six_digits (1700000123456 mod 1000000).
Proof.
  apply (orderId_is_six_digits sample_env). simpl. lia.
Defined.

(** X11: order identifiers repeat: two orders taken a whole number of
    1000000 ms apart (16 minutes 40 seconds) get the same identifier, so the
    identifier does not tell two such orders apart. *)
Theorem orderId_repeats (e1 e2 : Server.env) (k : Z) :
  100000 <= Server.clock e1 -> 0 <= k ->
  Server.clock e2 = Server.clock e1 + 1000000 * k ->
  Server.make_orderId e2 = Server.make_orderId e1.
Proof.
  intros H1 Hk H2.
  rewrite (orderId_digits e1 H1).
  rewrite (orderId_digits e2) by lia.
  rewrite H2. apply six_digits_period.
Qed.

Lemma orderId_repeats_witness :
  Server.make_orderId sample_env_later = Server.make_orderId sample_env.
Proof.
  apply (orderId_repeats sample_env sample_env_later 1); simpl; lia.
Defined.

(* ===================================================================== *)
(** * The cart                                                             *)
(* ===================================================================== *)

Lemma strict_eq_spec (a b : Js.value) :
  Client.strict_eq a b = true <-> a = b.
Proof.
  destruct a, b; simpl; try (split; [discriminate|congruence]);
    try (split; reflexivity).
  - rewrite Bool.eqb_true_iff. split; congruence.
  - rewrite Z.eqb_eq. split; congruence.
  - rewrite String.eqb_eq. split; congruence.
Qed.

Lemma same_item_spec (name : string) (cat : Js.value) (x : Client.entry) :
  Client.same_item name cat x = true <-> entry_key x = (name, cat).
Proof.
  unfold Client.same_item, entry_key.
  rewrite andb_true_iff, String.eqb_eq, strict_eq_spec.
  split; [intros [-> ->]; reflexivity|intros H; inversion H; auto].
Qed.

(** The first match splits the list around it. *)
Lemma find_index_split {A} (p : A -> bool) (l : list A) :
  match Client.find_index p l with
  | Some i =>
      exists l1 x l2,
        l = l1 ++ x :: l2 /\ List.length l1 = i /\ p x = true
        /\ Forall (fun y => p y = false) l1
  | None => Forall (fun y => p y = false) l
  end.
Proof.
  induction l as [|y l IH]; simpl.
  - constructor.
  - destruct (p y) eqn:Hy.
    + exists [], y, l.
      split; [reflexivity|]. split; [reflexivity|].
      split; [exact Hy|constructor].
    + destruct (Client.find_index p l) as [i|].
      * destruct IH as [l1 [x [l2 [-> [Hlen [Hx Hall]]]]]].
        exists (y :: l1), x, l2. simpl.
        split; [reflexivity|]. split; [now rewrite Hlen|].
        split; [exact Hx|now constructor].
      * constructor; assumption.
Qed.

Lemma first_match_unique {A} (p : A -> bool) (l1 m1 l2 m2 : list A)
    (x y : A) :
  l1 ++ x :: l2 = m1 ++ y :: m2 ->
  p x = true -> p y = true ->
  Forall (fun z => p z = false) l1 ->
  Forall (fun z => p z = false) m1 ->
  m1 = l1 /\ y = x /\ m2 = l2.
Proof.
  intros Heq Hx Hy. revert m1 Heq.
  induction l1 as [|a l1 IH]; intros m1 Heq Hl1 Hm1.
  - destruct m1 as [|b m1]; simpl in Heq; inversion Heq; subst.
    + auto.
    + apply Forall_inv in Hm1. congruence.
  - destruct m1 as [|b m1]; simpl in Heq; inversion Heq; subst.
    + apply Forall_inv in Hl1. congruence.
    + destruct (IH m1 H1 (Forall_inv_tail Hl1) (Forall_inv_tail Hm1))
        as [-> [-> ->]].
      auto.
Qed.

Lemma set_qty_middle (l1 l2 : list Client.entry) (x : Client.entry) (q : Z) :
  Client.set_qty (List.length l1) q (l1 ++ x :: l2)
  = l1 ++ Client.mkEntry (Client.e_name x) (Client.e_category x) q :: l2.
Proof. induction l1 as [|y l1 IH]; simpl; [reflexivity|now rewrite IH]. Qed.

Lemma splice1_middle {A} (l1 l2 : list A) (x : A) :
  Client.splice1 (List.length l1) (l1 ++ x :: l2) = l1 ++ l2.
Proof. induction l1 as [|y l1 IH]; simpl; [reflexivity|now rewrite IH]. Qed.

Lemma nth_error_middle {A} (l1 l2 : list A) (x : A) :
  nth_error (l1 ++ x :: l2) (List.length l1) = Some x.
Proof. induction l1 as [|y l1 IH]; simpl; [reflexivity|exact IH]. Qed.

(** [changeQty] without indices: on an entry that is in the cart, and on
    one that is not. *)
Lemma changeQty_found (menu : list Client.menu_item)
    (item : Client.menu_item) (l1 l2 : list Client.entry)
    (x : Client.entry) (name : string) (delta : Z) :
  find (fun i => String.eqb (Client.mi_name i) name) menu = Some item ->
  Client.same_item name (Client.mi_category item) x = true ->
  Forall (fun y => Client.same_item name (Client.mi_category item) y = false)
    l1 ->
  let q := Z.max 0 (Client.qty_or_0 (Some x) + delta) in
  Client.changeQty menu (l1 ++ x :: l2) name delta
  = if q =? 0 then l1 ++ l2
    else l1 ++ Client.mkEntry (Client.e_name x) (Client.e_category x) q
            :: l2.
Proof.
  intros Hmenu Hx Hl1. cbv zeta. unfold Client.changeQty. rewrite Hmenu.
  pose proof (find_index_split
                (Client.same_item name (Client.mi_category item))
                (l1 ++ x :: l2)) as Hsplit.
  destruct (Client.find_index _ (l1 ++ x :: l2)) as [i|].
  - destruct Hsplit as [m1 [y [m2 [Heq [Hlen [Hy Hm1]]]]]].
    assert (Hsame : m1 = l1 /\ y = x /\ m2 = l2)
      by (apply (first_match_unique _ _ _ _ _ _ _ Heq Hx Hy Hl1 Hm1)).
    destruct Hsame as [-> [-> ->]]. subst i.
    rewrite nth_error_middle, set_qty_middle.
    destruct (_ =? 0); [apply splice1_middle|reflexivity].
  - exfalso. rewrite Forall_forall in Hsplit.
    specialize (Hsplit x). rewrite Hsplit in Hx; [discriminate|].
    apply in_or_app. right. now left.
Qed.

Lemma changeQty_fresh (menu : list Client.menu_item)
    (item : Client.menu_item) (cart : list Client.entry)
    (name : string) (delta : Z) :
  find (fun i => String.eqb (Client.mi_name i) name) menu = Some item ->
  Forall (fun y => Client.same_item name (Client.mi_category item) y = false)
    cart ->
  Client.changeQty menu cart name delta
  = if Z.max 0 delta =? 0 then cart
    else cart ++ [Client.mkEntry name (Client.mi_category item)
                    (Z.max 0 delta)].
Proof.
  intros Hmenu Hall. unfold Client.changeQty. rewrite Hmenu.
  pose proof (find_index_split
                (Client.same_item name (Client.mi_category item)) cart)
    as Hsplit.
  destruct (Client.find_index _ cart) as [i|].
  - exfalso. destruct Hsplit as [m1 [y [m2 [-> [_ [Hy _]]]]]].
    rewrite Forall_forall in Hall. specialize (Hall y).
    rewrite Hall in Hy; [discriminate|].
    apply in_or_app. right. now left.
  - rewrite nth_error_middle. simpl Client.qty_or_0.
    rewrite Z.add_0_l, set_qty_middle. simpl.
    destruct (_ =? 0); [|reflexivity].
    rewrite splice1_middle. apply app_nil_r.
Qed.

Lemma find_skip {A} (p : A -> bool) (l1 l : list A) :
  Forall (fun z => p z = false) l1 -> find p (l1 ++ l) = find p l.
Proof.
  induction l1 as [|a l1 IH]; intros H; simpl; [reflexivity|].
  rewrite (Forall_inv H). apply IH. exact (Forall_inv_tail H).
Qed.

Lemma find_nowhere {A} (p : A -> bool) (l : list A) :
  Forall (fun z => p z = false) l -> find p l = None.
Proof.
  intros H. rewrite <- (List.app_nil_r l). now rewrite find_skip.
Qed.

Lemma same_item_false (name : string) (cat : Js.value) (x : Client.entry) :
  Client.same_item name cat x = false <-> entry_key x <> (name, cat).
Proof.
  rewrite <- same_item_spec.
  destruct (Client.same_item name cat x); split; congruence.
Qed.

Lemma no_key_no_match (name : string) (cat : Js.value)
    (l : list Client.entry) :
  ~ In (name, cat) (map entry_key l) ->
  Forall (fun z => Client.same_item name cat z = false) l.
Proof.
  intros H. apply Forall_forall. intros z Hz.
  apply same_item_false. intros Hk. apply H. rewrite <- Hk.
  now apply in_map.
Qed.

Lemma cart_total_app (l1 l2 : list Client.entry) :
  Client.cart_total (l1 ++ l2)
  = Client.cart_total l1 + Client.cart_total l2.
Proof.
  unfold Client.cart_total.
  assert (H : forall l a,
             fold_left (fun s x => s + Client.e_qty x) l a
             = a + fold_left (fun s x => s + Client.e_qty x) l 0).
  { induction l as [|x l IH]; intros a; simpl; [lia|].
    rewrite IH, (IH (Client.e_qty x)). lia. }
  rewrite fold_left_app, H. reflexivity.
Qed.

Lemma cart_total_cons (x : Client.entry) (l : list Client.entry) :
  Client.cart_total (x :: l) = Client.e_qty x + Client.cart_total l.
Proof.
  change (x :: l) with ([x] ++ l). rewrite cart_total_app.
  reflexivity.
Qed.

(** The cart around the entry of an item, or without one. *)
Lemma cart_cases (cart : list Client.entry) (name : string)
    (cat : Js.value) :
  cart_ok cart ->
  (exists l1 x l2,
     cart = l1 ++ x :: l2
     /\ Client.same_item name cat x = true
     /\ Forall (fun z => Client.same_item name cat z = false) l1
     /\ Forall (fun z => Client.same_item name cat z = false) l2
     /\ 1 <= Client.e_qty x /\ cart_ok (l1 ++ l2))
  \/ Forall (fun z => Client.same_item name cat z = false) cart.
Proof.
  intros [Hq Hnd].
  pose proof (find_index_split (Client.same_item name cat) cart) as Hs.
  destruct (Client.find_index _ cart) as [i|]; [left|right; exact Hs].
  destruct Hs as [l1 [x [l2 [-> [_ [Hx Hl1]]]]]].
  exists l1, x, l2.
  rewrite map_app in Hnd. simpl in Hnd.
  pose proof (NoDup_remove_1 _ _ _ Hnd) as Hnd'.
  pose proof (NoDup_remove_2 _ _ _ Hnd) as Hnotin.
  apply same_item_spec in Hx as Hk. rewrite Hk in Hnotin.
  split; [reflexivity|]. split; [exact Hx|]. split; [exact Hl1|].
  split.
  { apply no_key_no_match. intros Hin. apply Hnotin.
    apply in_or_app. now right. }
  rewrite Forall_app in Hq. destruct Hq as [Hq1 Hq2].
  split; [exact (Forall_inv Hq2)|].
  split.
  - apply Forall_app. split; [exact Hq1|exact (Forall_inv_tail Hq2)].
  - now rewrite map_app.
Qed.

(** X12: [changeQty] keeps the cart well formed, for every name and every
    step: all quantities stay at least 1 (an entry that reaches 0 is
    removed, one that would go below is never kept) and no item gets a
    second entry. *)
Theorem changeQty_keeps_cart_ok (menu : list Client.menu_item)
    (cart : list Client.entry) (name : string) (delta : Z) :
  cart_ok cart -> cart_ok (Client.changeQty menu cart name delta).
Proof.
  intros Hok.
  destruct (find (fun i => String.eqb (Client.mi_name i) name) menu)
    as [item|] eqn:Hmenu.
  2: { unfold Client.changeQty. now rewrite Hmenu. }
  destruct (cart_cases cart name (Client.mi_category item) Hok)
    as [[l1 [x [l2 [-> [Hx [Hl1 [Hl2 [Hqx Hrest]]]]]]]] | Hnone].
  - rewrite (changeQty_found menu item l1 l2 x name delta Hmenu Hx Hl1).
    cbv zeta. destruct (Z.eqb_spec (Z.max 0 (Client.qty_or_0 (Some x) + delta)) 0)
      as [Hz|Hz]; [exact Hrest|].
    destruct Hok as [Hq Hnd]. split.
    + rewrite Forall_app in *. destruct Hq as [Hq1 Hq2].
      split; [exact Hq1|]. constructor; [cbn [Client.e_qty]; lia|].
      exact (Forall_inv_tail Hq2).
    + rewrite map_app in *. exact Hnd.
  - rewrite (changeQty_fresh menu item cart name delta Hmenu Hnone).
    destruct (Z.eqb_spec (Z.max 0 delta) 0) as [Hz|Hz]; [exact Hok|].
    destruct Hok as [Hq Hnd]. split.
    + apply Forall_app. split; [exact Hq|].
      constructor; [cbn [Client.e_qty]; lia|constructor].
    + rewrite map_app. simpl.
      apply NoDup_app_remove_l with (l := []). simpl.
      apply NoDup_Add with (a := (name, Client.mi_category item))
                           (l := map entry_key cart).
      * rewrite <- (List.app_nil_r (map entry_key cart)) at 1.
        apply Add_app.
      * split; [exact Hnd|].
        intros Hin. apply in_map_iff in Hin.
        destruct Hin as [z [Hk Hz']].
        rewrite Forall_forall in Hnone. specialize (Hnone z Hz').
        apply same_item_false in Hnone. congruence.
Qed.

Lemma changeQty_keeps_cart_ok_witness :
  cart_ok
    (Client.changeQty [Client.mkMenuItem "Squid" (Js.Str "Seafood")]
       [] "Squid" 1).
Proof.
  apply (changeQty_keeps_cart_ok
           [Client.mkMenuItem "Squid" (Js.Str "Seafood")] [] "Squid" 1).
  split; constructor.
Defined.

Lemma cart_qty_skip (l1 l : list Client.entry) (name : string)
    (cat : Js.value) :
  Forall (fun z => Client.same_item name cat z = false) l1 ->
  cart_qty (l1 ++ l) name cat = cart_qty l name cat.
Proof. intros H. unfold cart_qty. now rewrite find_skip. Qed.

Lemma cart_qty_nowhere (l : list Client.entry) (name : string)
    (cat : Js.value) :
  Forall (fun z => Client.same_item name cat z = false) l ->
  cart_qty l name cat = 0.
Proof. intros H. unfold cart_qty. now rewrite find_nowhere. Qed.

Lemma cart_qty_cons (y : Client.entry) (l : list Client.entry)
    (name : string) (cat : Js.value) :
  cart_qty (y :: l) name cat
  = if Client.same_item name cat y then Client.e_qty y
    else cart_qty l name cat.
Proof. unfold cart_qty. simpl. now destruct (Client.same_item name cat y). Qed.

Lemma cart_qty_app (l1 l2 : list Client.entry) (name : string)
    (cat : Js.value) :
  cart_qty (l1 ++ l2) name cat
  = match find (Client.same_item name cat) l1 with
    | Some x => Client.e_qty x
    | None => cart_qty l2 name cat
    end.
Proof.
  unfold cart_qty. induction l1 as [|a l1 IH]; simpl; [reflexivity|].
  destruct (Client.same_item name cat a); [reflexivity|exact IH].
Qed.

(** X13: after [changeQty(name, delta)] on a well-formed cart, for an item
    of the menu: the cart holds [max(0, before + delta)] of that item, where
    an item without an entry counts as 0; it holds of every other item what
    it held; and the total shown in the cart changes by the difference. A
    name that is not on the menu changes nothing. *)
Theorem changeQty_sets_quantity (menu : list Client.menu_item)
    (cart : list Client.entry) (name : string) (delta : Z) :
  cart_ok cart ->
  match find (fun i => String.eqb (Client.mi_name i) name) menu with
  | None => Client.changeQty menu cart name delta = cart
  | Some item =>
      let cat := Client.mi_category item in
      let before := cart_qty cart name cat in
      let after := Client.changeQty menu cart name delta in
      cart_qty after name cat = Z.max 0 (before + delta)
      /\ (forall name' cat',
            (name', cat') <> (name, cat) ->
            cart_qty after name' cat' = cart_qty cart name' cat')
      /\ Client.cart_total after
         = Client.cart_total cart + (Z.max 0 (before + delta) - before)
  end.
Proof.
  intros Hok.
  destruct (find (fun i => String.eqb (Client.mi_name i) name) menu)
    as [item|] eqn:Hmenu.
  2: { unfold Client.changeQty. now rewrite Hmenu. }
  cbv zeta.
  destruct (cart_cases cart name (Client.mi_category item) Hok)
    as [[l1 [x [l2 [-> [Hx [Hl1 [Hl2 [Hqx Hrest]]]]]]]] | Hnone].
  - rewrite (changeQty_found menu item l1 l2 x name delta Hmenu Hx Hl1).
    cbv zeta.
    assert (Hbefore : cart_qty (l1 ++ x :: l2) name (Client.mi_category item)
                      = Client.e_qty x).
    { rewrite cart_qty_skip by exact Hl1. unfold cart_qty. simpl.
      now rewrite Hx. }
    assert (Hq0 : Client.qty_or_0 (Some x) = Client.e_qty x).
    { simpl. destruct (Z.eqb_spec (Client.e_qty x) 0); lia. }
    rewrite Hbefore, Hq0.
    set (q := Z.max 0 (Client.e_qty x + delta)).
    assert (Hother : forall name' cat' (y : Client.entry),
              (name', cat') <> (name, Client.mi_category item) ->
              entry_key y = (name, Client.mi_category item) ->
              Client.same_item name' cat' y = false).
    { intros name' cat' y Hne Hy. apply same_item_false. congruence. }
    apply same_item_spec in Hx as Hk.
    assert (Hx' : Client.same_item name (Client.mi_category item)
                    (Client.mkEntry (Client.e_name x) (Client.e_category x) q)
                  = true) by (apply same_item_spec; exact Hk).
    destruct (Z.eqb_spec q 0) as [Hz|Hz].
    + split; [|split].
      * rewrite cart_qty_skip by exact Hl1.
        rewrite cart_qty_nowhere by exact Hl2. lia.
      * intros name' cat' Hne. rewrite !cart_qty_app.
        destruct (find _ l1); [reflexivity|].
        rewrite cart_qty_cons.
        now rewrite (Hother name' cat' x Hne Hk).
      * rewrite !cart_total_app, cart_total_cons. lia.
    + split; [|split].
      * rewrite cart_qty_skip by exact Hl1.
        rewrite cart_qty_cons, Hx'. reflexivity.
      * intros name' cat' Hne. rewrite !cart_qty_app.
        destruct (find _ l1); [reflexivity|].
        rewrite !cart_qty_cons.
        rewrite (Hother name' cat' x Hne Hk).
        rewrite (Hother name' cat'
                   (Client.mkEntry (Client.e_name x) (Client.e_category x) q)
                   Hne Hk).
        reflexivity.
      * rewrite !cart_total_app, !cart_total_cons.
        cbn [Client.e_qty]. lia.
  - rewrite (changeQty_fresh menu item cart name delta Hmenu Hnone).
    rewrite (cart_qty_nowhere cart name _ Hnone).
    rewrite Z.add_0_l, Z.sub_0_r.
    assert (Hnew : Client.same_item name (Client.mi_category item)
                     (Client.mkEntry name (Client.mi_category item)
                        (Z.max 0 delta)) = true)
      by (apply same_item_spec; reflexivity).
    destruct (Z.eqb_spec (Z.max 0 delta) 0) as [Hz|Hz].
    + split; [|split].
      * rewrite (cart_qty_nowhere cart name _ Hnone). lia.
      * reflexivity.
      * lia.
    + split; [|split].
      * rewrite cart_qty_skip by exact Hnone.
        rewrite cart_qty_cons, Hnew. reflexivity.
      * intros name' cat' Hne. rewrite cart_qty_app.
        destruct (find _ cart) eqn:Hf.
        -- unfold cart_qty. now rewrite Hf.
        -- unfold cart_qty at 2. rewrite Hf. rewrite cart_qty_cons.
           replace (Client.same_item name' cat'
                      (Client.mkEntry name (Client.mi_category item)
                         (Z.max 0 delta)))
             with false; [reflexivity|].
           symmetry. apply same_item_false.
           unfold entry_key. cbn [Client.e_name Client.e_category].
           congruence.
      * rewrite cart_total_app, cart_total_cons.
        cbn [Client.e_qty].
        change (Client.cart_total []) with 0. lia.
Qed.

Lemma changeQty_sets_quantity_witness :
  Client.changeQty [Client.mkMenuItem "Squid" (Js.Str "Seafood")]
    [Client.mkEntry "Squid" (Js.Str "Seafood") 1] "Tea" 1
  = [Client.mkEntry "Squid" (Js.Str "Seafood") 1].
Proof.
  apply (changeQty_sets_quantity
           [Client.mkMenuItem "Squid" (Js.Str "Seafood")]
           [Client.mkEntry "Squid" (Js.Str "Seafood") 1] "Tea" 1).
  split; repeat constructor; simpl; intuition lia.
Defined.

(** X14: an order sent from a well-formed cart is never refused for lack of
    items, and the server's quantity default never applies to it: every
    receipt line and every stored item carries the quantity the cart shows.
    An empty cart sends nothing. *)
Theorem cart_order_keeps_quantities
    (encode : codepage -> string -> Buffer.t) (cfg : Server.config)
    (e : Server.env) (cart : list Client.entry) (table : string)
    (note : option string) :
  cart_ok cart ->
  match Client.submitOrder_request cart table note with
  | None => cart = []
  | Some b =>
      Server.items b = Some (map (fun x => Some (Client.to_item x)) cart)
      /\ (forall x, In x cart ->
            receipt_qty (Client.to_item x) = Js.Num (Client.e_qty x)
            /\ Server.item_line (Client.to_item x)
               = ("x" ++ Js.num_to_string (Client.e_qty x) ++ "  "
                    ++ Client.e_name x)%string)
      /\ forall st js,
           In (st, js)
             (Server.responses
                (Server.trace (Server.orderHandler encode cfg e b))) ->
           st <> 400
  end.
Proof.
  intros [Hq _]. destruct cart as [|x0 cart]; simpl; [reflexivity|].
  split; [reflexivity|]. split.
  - intros x Hx. rewrite Forall_forall in Hq. specialize (Hq x Hx).
    unfold receipt_qty, Server.item_line, Js.or. simpl.
    destruct (Z.eqb_spec (Client.e_qty x) 0); [lia|]. simpl.
    split; reflexivity.
  - intros st js Hin.
    destruct (handler_responses encode cfg e
                (Server.mkBody (Js.Str table)
                   (Some (Some (Client.to_item x0)
                            :: map (fun x => Some (Client.to_item x)) cart))
                   (match note with
                    | Some s => Js.Str s
                    | None => Js.Null
                    end))) as [_ Hresp].
    rewrite Hresp in Hin. cbn [Server.items] in Hin.
    destruct (existsb _ _);
      [|destruct (Server.save_error e), (Server.find_error e)];
      destruct Hin as [Hin|[]]; inversion Hin; lia.
Qed.

Lemma cart_order_keeps_quantities_witness :
  match Client.submitOrder_request
          [Client.mkEntry "Squid" (Js.Str "Seafood") 2] "5" None with
  | None => False
  | Some b =>
      Server.items b
      = Some [Some (Server.mkItem (Js.Str "Squid") (Js.Num 2)
                      (Js.Str "Seafood") Js.Undefined)]
  end.
Proof.
  pose proof (cart_order_keeps_quantities ascii_only sample_cfg sample_env
                [Client.mkEntry "Squid" (Js.Str "Seafood") 2] "5" None) as H.
  simpl in H. apply H. split; repeat constructor; simpl; intuition lia.
Defined.

(* ===================================================================== *)
(** * Creating a category                                                  *)
(* ===================================================================== *)

Lemma find_app_last {A} (p : A -> bool) (l : list A) (x : A) :
  find p l = None -> p x = true -> find p (l ++ [x]) = Some x.
Proof.
  intros Hl Hx. induction l as [|a l IH]; simpl in *.
  - now rewrite Hx.
  - destruct (p a); [discriminate|now apply IH].
Qed.

Lemma find_filter_none {A} (p q : A -> bool) (l : list A) :
  find p l = None -> find p (filter q l) = None.
Proof.
  induction l as [|a l IH]; simpl; [reflexivity|].
  destruct (p a) eqn:Hp; [discriminate|]. intros H.
  destruct (q a); simpl; [rewrite Hp|]; now apply IH.
Qed.

(** X15: creating a category and then ordering from it. A request that is
    answered 200 has added one active category, under the trimmed name,
    whose printer is [XPRINTER] when the request said exactly that and
    [EPSON] for any other value or none; no category of that name was there
    before; and from then on the order handler sends an item of that
    category to that printer. A request that is answered 400 (no name, a
    blank name, a name already taken) leaves the collection as it was. *)
Theorem created_category_routes
    (trim : string -> string)
    (sort_by_name : list Server.category_doc -> list Server.category_doc)
    (env : Admin.db_env) (db : list Server.category_doc)
    (body : Admin.category_body) :
  let (db', reply) := Admin.createCategory trim sort_by_name env db body in
  (Admin.status reply = 400 -> db' = db)
  /\ (Admin.status reply = 200 ->
      exists name,
        Admin.cb_name body = Js.Str name
        /\ trim name <> ""
        /\ Admin.findOne db (trim name) = None
        /\ db' = db ++ [Server.mkCategory (trim name)
                          (Admin.normalize_printer (Admin.cb_printer body))
                          true]
        /\ forall it,
             Server.category it = Js.Str (trim name) ->
             Server.target_of (Server.Category_find_active db') it
             = if Js.str_strict_eq "XPRINTER" (Admin.cb_printer body)
               then Server.XPRINTER else Server.EPSON).
Proof.
  unfold Admin.createCategory.
  destruct (Js.truthy (Admin.cb_name body)) eqn:Htruthy; simpl;
    [|split; [reflexivity|discriminate]].
  destruct (Admin.cb_name body) as [| |bb|n|name] eqn:Hname;
    try (split; [reflexivity|discriminate]).
  destruct (String.eqb_spec (trim name) "") as [Hblank|Hblank];
    [split; [reflexivity|discriminate]|].
  destruct (Admin.findOne_error env);
    [split; [reflexivity|discriminate]|].
  destruct (Admin.findOne db (trim name)) eqn:Hfind;
    [split; [reflexivity|discriminate]|].
  destruct (Admin.save_error env) eqn:Hsave;
    [split; [reflexivity|discriminate]|].
  destruct (Admin.find_error env) eqn:Hfe.
  - split; discriminate.
  - split; [discriminate|]. intros _.
    exists name.
    assert (Hnorm : Admin.normalize_printer
                      match Admin.cb_printer body with
                      | Js.Undefined => Js.Str "EPSON"
                      | p => p
                      end
                    = Admin.normalize_printer (Admin.cb_printer body))
      by (destruct (Admin.cb_printer body); reflexivity).
    rewrite Hnorm.
    split; [reflexivity|]. split; [exact Hblank|].
    split; [exact Hfind|]. split; [reflexivity|].
    intros it Hcat.
    unfold Server.target_of, Server.cat_printer, Server.lookup_category,
      Server.Category_find_active.
    rewrite filter_app. simpl. rewrite Hcat.
    rewrite (find_app_last _ _
               (Server.mkCategory (trim name)
                  (Admin.normalize_printer (Admin.cb_printer body)) true)).
    + simpl. unfold Admin.normalize_printer.
      destruct (Js.str_strict_eq "XPRINTER" (Admin.cb_printer body));
        reflexivity.
    + apply find_filter_none. exact Hfind.
    + simpl. apply String.eqb_refl.
Qed.

Lemma created_category_routes_witness :
  Server.target_of
    (Server.Category_find_active
       (sample_categories ++ [Server.mkCategory "Drinks" "XPRINTER" true]))
    (Server.mkItem (Js.Str "Tea") (Js.Num 1) (Js.Str "Drinks") Js.Undefined)
  = Server.XPRINTER.
Proof.
  pose proof (created_category_routes (fun s => s) (fun l => l)
                (Admin.mkDbEnv None None None) sample_categories
                (Admin.mkCategoryBody Js.Undefined (Js.Str "Drinks")
                   (Js.Str "XPRINTER"))) as H.
  simpl in H. destruct H as [_ H].
  destruct (H eq_refl) as [name [Hname [_ [_ [_ Hroute]]]]].
  inversion Hname; subst name.
  apply (Hroute (Server.mkItem (Js.Str "Tea") (Js.Num 1) (Js.Str "Drinks")
                   Js.Undefined)).
  reflexivity.
Defined.

(* ===================================================================== *)
(** * The in-memory server                                                *)
(* ===================================================================== *)

Lemma insert_perm (x : Memory.order) (l : list Memory.order) :
  Permutation (Memory.insert x l) (x :: l).
Proof.
  induction l as [|y l IH]; simpl.
  - apply Permutation_refl.
  - destruct (Memory.compare_orders x y <=? 0).
    + apply Permutation_refl.
    + eapply perm_trans; [apply perm_skip, IH | apply perm_swap].
Qed.

Lemma sort_perm (l : list Memory.order) : Permutation (Memory.sort l) l.
Proof.
  induction l as [|x l IH]; simpl.
  - constructor.
  - eapply perm_trans; [apply insert_perm | apply perm_skip, IH].
Qed.

Lemma insert_newest_first (x : Memory.order) (l : list Memory.order) :
  Memory.newest_first l -> Memory.newest_first (Memory.insert x l).
Proof.
  induction l as [|y l IH]; simpl; intros Hs.
  - split; [constructor | exact I].
  - destruct Hs as [Hy Hl].
    unfold Memory.compare_orders.
    destruct (Z.leb_spec (Memory.o_timestamp y - Memory.o_timestamp x) 0)
      as [Hle|Hgt].
    + simpl. split; [|split; assumption].
      constructor; [lia|].
      eapply Forall_impl; [|exact Hy]. simpl. intros b Hb. lia.
    + simpl. split; [|apply IH; exact Hl].
      eapply Permutation_Forall; [apply Permutation_sym, insert_perm|].
      constructor; [lia | exact Hy].
Qed.

Lemma sort_newest_first (l : list Memory.order) :
  Memory.newest_first (Memory.sort l).
Proof.
  induction l as [|x l IH]; simpl.
  - exact I.
  - apply insert_newest_first, IH.
Qed.

Lemma insert_placed_at (t : Z) (x : Memory.order) (l : list Memory.order) :
  Memory.placed_at t (Memory.insert x l) = Memory.placed_at t (x :: l).
Proof.
  induction l as [|y l IH]; simpl.
  - reflexivity.
  - unfold Memory.compare_orders.
    destruct (Z.leb_spec (Memory.o_timestamp y - Memory.o_timestamp x) 0)
      as [Hle|Hgt].
    + reflexivity.
    + unfold Memory.placed_at in *. simpl in *. rewrite IH.
      destruct (Z.eqb_spec (Memory.o_timestamp x) t) as [Hx|Hx];
        destruct (Z.eqb_spec (Memory.o_timestamp y) t) as [Hy|Hy];
        try reflexivity.
      lia.
Qed.

Lemma sort_placed_at (t : Z) (l : list Memory.order) :
  Memory.placed_at t (Memory.sort l) = Memory.placed_at t l.
Proof.
  induction l as [|x l IH]; simpl.
  - reflexivity.
  - rewrite insert_placed_at. unfold Memory.placed_at in *. simpl.
    rewrite IH. reflexivity.
Qed.

Lemma insert_sorted_head (x : Memory.order) (l : list Memory.order) :
  Forall (fun b => Memory.o_timestamp b <= Memory.o_timestamp x) l ->
  Memory.insert x l = x :: l.
Proof.
  destruct l as [|y l]; simpl; intros H.
  - reflexivity.
  - inversion H; subst. unfold Memory.compare_orders.
    destruct (Z.leb_spec (Memory.o_timestamp y - Memory.o_timestamp x) 0);
      [reflexivity | lia].
Qed.

Lemma sort_fixed (l : list Memory.order) :
  Memory.newest_first l -> Memory.sort l = l.
Proof.
  induction l as [|x l IH]; simpl; intros H.
  - reflexivity.
  - destruct H as [Hx Hl]. rewrite (IH Hl). apply insert_sorted_head, Hx.
Qed.

(** X16: [GET /api/orders] answers with the stored orders, newest first,
    orders placed at the same instant in the order they were stored in; the
    sort is in place, so the stored array is left in the listed order, and
    asking again lists the same. *)
Theorem orders_are_listed_newest_first (now : Z) (st : Memory.state) :
  exists listed,
    Memory.handle now st Memory.GetOrders
    = (Memory.mkState (Memory.menuItems st) listed (Memory.orderIdCounter st),
       Memory.Orders listed, [])
    /\ Permutation listed (Memory.orders st)
    /\ Memory.newest_first listed
    /\ (forall t, Memory.placed_at t listed
                  = Memory.placed_at t (Memory.orders st))
    /\ forall later,
         snd (fst (Memory.handle later
                     (fst (fst (Memory.handle now st Memory.GetOrders)))
                     Memory.GetOrders))
         = Memory.Orders listed.
Proof.
  exists (Memory.sort (Memory.orders st)).
  split; [reflexivity|].
  split; [apply sort_perm|].
  split; [apply sort_newest_first|].
  split; [intros t; apply sort_placed_at|].
  intros later. simpl.
  rewrite (sort_fixed _ (sort_newest_first (Memory.orders st))).
  reflexivity.
Qed.

Lemma assign_ids (orderId : option Z) (status : Js.value) (now : Z)
    (l : list Memory.order) :
  map Memory.o_id (Memory.assign orderId status now l) = map Memory.o_id l.
Proof.
  induction l as [|o l IH]; simpl.
  - reflexivity.
  - destruct (Memory.has_id orderId o); simpl; [reflexivity|].
    rewrite IH. reflexivity.
Qed.







Lemma store_ok_step (now : Z) (st : Memory.state) (r : Memory.request) :
  store_ok st -> store_ok (fst (fst (Memory.handle now st r))).
Proof.
  intros [Hnd [Hrange Hlen]].
  destruct r as [|table items note| |orderId status|name category image];
    simpl.
  - split; [exact Hnd | split; assumption].
  - assert (Hburnt : store_ok (Memory.burnt st)).
    { unfold store_ok, Memory.burnt.
      cbn [Memory.orders Memory.orderIdCounter].
      split; [exact Hnd | split; [|lia]].
      eapply Forall_impl; [|exact Hrange]. simpl. intros a Ha. lia. }
    destruct (Memory.truthy table); simpl;
      [|split; [exact Hnd | split; assumption]].
    destruct items as [|[|i items]|];
      try (split; [exact Hnd | split; assumption]);
      try exact Hburnt.
    destruct (Memory.reduce_qty 0 (i :: items)) as [total|];
      [|exact Hburnt].
    assert (Hstored : forall o,
              Memory.o_id o = Memory.orderIdCounter st ->
              store_ok (Memory.mkState (Memory.menuItems st)
                          (Memory.orders st ++ [o])
                          (Memory.orderIdCounter st + 1))).
    2:{ destruct (Memory.logs table (i :: items));
          apply Hstored; reflexivity. }
    intros o Hid.
    unfold store_ok. cbn [Memory.orders Memory.orderIdCounter fst snd].
    rewrite map_app, length_app.
    cbn [map List.length]. rewrite Hid.
    split; [|split].
    + apply NoDup_app; [exact Hnd | |].
      * repeat constructor. intros [].
      * intros a Hin [Ha|[]]. subst a.
        rewrite Forall_forall in Hrange. specialize (Hrange _ Hin). lia.
    + apply Forall_app. split.
      * eapply Forall_impl; [|exact Hrange]. simpl. intros a Ha. lia.
      * constructor; [|constructor]. lia.
    + rewrite Nat2Z.inj_add. cbn [Z.of_nat]. lia.
  - unfold store_ok. simpl.
    pose proof (sort_perm (Memory.orders st)) as Hp.
    split; [|split].
    + eapply Permutation_NoDup; [|exact Hnd].
      apply Permutation_map, Permutation_sym, Hp.
    + eapply Permutation_Forall; [|exact Hrange].
      apply Permutation_map, Permutation_sym, Hp.
    + rewrite (Permutation_length Hp). exact Hlen.
  - destruct (find (Memory.has_id orderId) (Memory.orders st)); simpl;
      [|split; [exact Hnd | split; assumption]].
    unfold store_ok. simpl. rewrite assign_ids.
    split; [exact Hnd | split; [exact Hrange|]].
    rewrite <- (length_map Memory.o_id), assign_ids, length_map. exact Hlen.
  - destruct (Js.truthy name); simpl; split; try exact Hnd; split; assumption.
Qed.

Lemma store_ok_serve (requests : list (Z * Memory.request)) :
  forall st, store_ok st -> store_ok (Memory.serve st requests).
Proof.
  induction requests as [|r requests IH]; intros st Hok.
  - exact Hok.
  - apply IH. apply store_ok_step. exact Hok.
Qed.

Lemma store_ok_initial : store_ok Memory.initial.
Proof.
  split; [constructor | split; [constructor | simpl; lia]].
Qed.

(** X18: whatever requests the in-memory server has served since it started,
    the stored orders have distinct ids, each from 1 up to the counter, the
    counter has moved at least once per stored order, and the id an accepted
    order is answered with is the counter, which no stored order has. *)
Theorem order_ids_stay_unique (requests : list (Z * Memory.request)) :
  let st := Memory.serve Memory.initial requests in
  NoDup (map Memory.o_id (Memory.orders st))
  /\ Forall (fun i => 1 <= i < Memory.orderIdCounter st)
       (map Memory.o_id (Memory.orders st))
  /\ 1 + Z.of_nat (List.length (Memory.orders st)) <= Memory.orderIdCounter st
  /\ forall now table items note id,
       snd (fst (Memory.handle now st (Memory.PostOrder table items note)))
       = Memory.OrderAccepted id ->
       id = Memory.orderIdCounter st
       /\ ~ In id (map Memory.o_id (Memory.orders st)).
Proof.
  intros st.
  destruct (store_ok_serve requests _ store_ok_initial)
    as [Hnd [Hrange Hlen]].
  fold st in Hnd, Hrange, Hlen.
  split; [exact Hnd | split; [exact Hrange | split; [exact Hlen|]]].
  intros now table items note id. simpl.
  destruct (Memory.truthy table); simpl; [|discriminate].
  destruct items as [|[|i items]|]; try discriminate.
  destruct (Memory.reduce_qty 0 (i :: items)) as [total|];
    [|discriminate].
  destruct (Memory.logs table (i :: items)); [|discriminate].
  cbn [fst snd Memory.o_id].
  intros Hacc. inversion Hacc; subst id.
  split; [reflexivity|].
  intros Hin. rewrite Forall_forall in Hrange.
  specialize (Hrange _ Hin). lia.
Qed.

Lemma max_id_bounds (ids : list Z) :
  0 <= Memory.max_id ids /\ Forall (fun i => i <= Memory.max_id ids) ids.
Proof.
  induction ids as [|i ids [IH0 IH]]; simpl.
  - split; [lia | constructor].
  - split; [lia|]. constructor; [lia|].
    eapply Forall_impl; [|exact IH]. simpl. intros a Ha. lia.
Qed.

(** X19: [POST /api/menu] with a name that is truthy appends one item whose
    id is at least 1 and larger than every id on the menu, so no item had
    it; the item is on offer, is the one answered and is listed by [GET
    /api/menu] afterwards; orders and counter are untouched. *)
Theorem new_menu_item_has_a_fresh_id (now : Z) (st : Memory.state)
    (name category image : Js.value) :
  Js.truthy name = true ->
  exists item,
    Memory.handle now st (Memory.PostMenu name category image)
    = (Memory.mkState (Memory.menuItems st ++ [item]) (Memory.orders st)
         (Memory.orderIdCounter st),
       Memory.ItemAdded item, [Memory.MenuUpdated])
    /\ Memory.mi_name item = name
    /\ 1 <= Memory.mi_id item
    /\ Forall (fun m => Memory.mi_id m < Memory.mi_id item)
         (Memory.menuItems st)
    /\ ~ In (Memory.mi_id item) (map Memory.mi_id (Memory.menuItems st))
    /\ forall later items,
         snd (fst (Memory.handle later
                     (fst (fst (Memory.handle now st
                                  (Memory.PostMenu name category image))))
                     Memory.GetMenu))
         = Memory.Menu items ->
         In item items.
Proof.
  intros Hname.
  destruct (max_id_bounds (map Memory.mi_id (Memory.menuItems st)))
    as [H0 Hmax].
  assert (Hlt : Forall (fun m => Memory.mi_id m
                                 < Memory.max_id
                                     (map Memory.mi_id (Memory.menuItems st))
                                   + 1)
                  (Memory.menuItems st)).
  { rewrite Forall_map in Hmax.
    eapply Forall_impl; [|exact Hmax]. simpl. intros m Hm. lia. }
  eexists. unfold Memory.handle at 1. rewrite Hname.
  cbn [negb].
  split; [reflexivity|].
  cbn [Memory.mi_name Memory.mi_id].
  split; [reflexivity|].
  split; [lia|].
  split; [exact Hlt|].
  split.
  - intros Hin. apply in_map_iff in Hin. destruct Hin as [m [Hid Hin]].
    rewrite Forall_forall in Hlt. specialize (Hlt _ Hin). lia.
  - intros later items. unfold Memory.handle. rewrite Hname.
    cbn [negb fst snd Memory.menuItems].
    intros Hmenu. inversion Hmenu; subst items.
    apply filter_In. split; [|reflexivity].
    apply in_or_app. right. left. reflexivity.
Qed.

Lemma new_menu_item_has_a_fresh_id_witness :
  exists item,
    Memory.handle 0 Memory.initial
      (Memory.PostMenu (Js.Str "Tofu") Js.Undefined Js.Undefined)
    = (Memory.mkState (Memory.menuItems Memory.initial ++ [item]) [] 1,
       Memory.ItemAdded item, [Memory.MenuUpdated])
    /\ Memory.mi_id item = 9.
Proof.
  destruct (new_menu_item_has_a_fresh_id 0 Memory.initial (Js.Str "Tofu")
              Js.Undefined Js.Undefined eq_refl)
    as [item [Hhandle _]].
  exists item. split; [exact Hhandle|].
  simpl in Hhandle. inversion Hhandle. reflexivity.
Defined.

Lemma menu_ok_step (now : Z) (st : Memory.state) (r : Memory.request) :
  menu_ok st -> menu_ok (fst (fst (Memory.handle now st r))).
Proof.
  intros Hok.
  destruct r as [|table items note| |orderId status|name category image];
    simpl.
  - exact Hok.
  - destruct (Memory.truthy table); simpl; [|exact Hok].
    destruct items as [|[|i items]|]; try exact Hok.
    destruct (Memory.reduce_qty 0 (i :: items)); [|exact Hok].
    destruct (Memory.logs table (i :: items)); exact Hok.
  - exact Hok.
  - destruct (find (Memory.has_id orderId) (Memory.orders st)); exact Hok.
  - destruct (Js.truthy name) eqn:Hname; simpl; [|exact Hok].
    destruct Hok as [Hnd [Hall [added Hadd]]].
    destruct (max_id_bounds (map Memory.mi_id (Memory.menuItems st)))
      as [H0 Hmax].
    unfold menu_ok. cbn [Memory.menuItems].
    split; [|split].
    + rewrite map_app. apply NoDup_app; [exact Hnd | |].
      * repeat constructor. intros [].
      * intros a Hin [Ha|[]]. cbn [Memory.mi_id] in Ha.
        rewrite Forall_forall in Hmax. specialize (Hmax _ Hin). lia.
    + apply Forall_app. split; [exact Hall|].
      constructor; [|constructor].
      cbn [Memory.available Memory.mi_id]. split; [reflexivity | lia].
    + exists (added ++
              [Memory.mkMenuItem
                 (Memory.max_id (map Memory.mi_id (Memory.menuItems st)) + 1)
                 name (Js.or category (Js.Str "")) (Js.or image Js.Null)
                 true]).
      rewrite Hadd at 1. rewrite app_assoc. reflexivity.
Qed.

Lemma menu_ok_serve (requests : list (Z * Memory.request)) :
  forall st, menu_ok st -> menu_ok (Memory.serve st requests).
Proof.
  induction requests as [|r requests IH]; intros st Hok.
  - exact Hok.
  - apply IH. apply menu_ok_step. exact Hok.
Qed.

Lemma menu_ok_initial : menu_ok Memory.initial.
Proof.
  split; [|split].
  - simpl. repeat constructor; simpl; intuition lia.
  - simpl. repeat constructor; simpl; lia.
  - exists []. rewrite List.app_nil_r. reflexivity.
Qed.

Lemma filter_all {A : Type} (p : A -> bool) (l : list A) :
  Forall (fun a => p a = true) l -> filter p l = l.
Proof.
  induction 1 as [|a l Ha Hl IH]; simpl.
  - reflexivity.
  - rewrite Ha, IH. reflexivity.
Qed.

(** X20: whatever requests the in-memory server has served since it started,
    the menu is the seeded one followed by what was added, its ids are
    distinct, and [GET /api/menu] answers with all of it: no route takes an
    item off the offer. *)
Theorem menu_only_grows (requests : list (Z * Memory.request)) (now : Z) :
  let st := Memory.serve Memory.initial requests in
  NoDup (map Memory.mi_id (Memory.menuItems st))
  /\ (exists added,
        Memory.menuItems st = Memory.menuItems Memory.initial ++ added)
  /\ Memory.handle now st Memory.GetMenu
     = (st, Memory.Menu (Memory.menuItems st), []).
Proof.
  intros st.
  destruct (menu_ok_serve requests _ menu_ok_initial) as [Hnd [Hall Hadd]].
  fold st in Hnd, Hall, Hadd.
  split; [exact Hnd | split; [exact Hadd|]].
  simpl. rewrite filter_all; [reflexivity|].
  eapply Forall_impl; [|exact Hall]. simpl. intros m [Hm _]. exact Hm.
Qed.



(** The same as a run: the order that was answered 500 is in the next
    listing. *)
Example failed_answer_but_stored_order :
  let st1 := fst (fst (Memory.handle 1000 Memory.initial
                         (Memory.PostOrder (Memory.Obj false)
                            (Memory.ItemsArray
                               [Some (Memory.mkLine
                                        (Memory.Prim (Js.Str "Pork"))
                                        (Js.Str "Meat") 2)])
                            Js.Undefined))) in
  snd (fst (Memory.handle 2000 st1 Memory.GetOrders))
  = Memory.Orders
      [Memory.mkOrder 1 (Memory.Obj false)
         [Some (Memory.mkLine (Memory.Prim (Js.Str "Pork"))
                  (Js.Str "Meat") 2)]
         (Js.Str "") (Js.Str "pending") 1000 2 None].
Proof. reflexivity. Qed.





